(** * The asynchronous task queue of [app/core/task_queue.py]

    A shallow embedding of [TaskStatus], [Task], [TaskQueue] and
    [RedisTaskQueue], of the worker pool they hand their jobs to, and of the
    small part of the [json] and [redis] libraries they call, followed by
    the properties of the task lifecycle.

    Conventions.
    - A reading of [time.time()] is an integer number of clock ticks (the
      resolution of the clock); the source only compares readings and
      subtracts them.  Readings are inputs of every operation that takes
      one; nothing is assumed about them unless a statement says so.
    - [uuid.uuid4()] is an input of [submit] as well.
    - Every block run under [self._lock] is one atomic function on the
      queue.  The callable runs between two such blocks.  A thread that
      does not take the lock, as [Task.to_dict] in [get_task_status], sees
      the record between the assignments of a block as well.
    - A call binds its arguments before the body runs: a keyword argument
      that names a parameter already filled by position raises [TypeError]
      and the body does not run.  The texts of these errors are those of
      Python 3.10 and later, which name the class of the method; the pool's
      [submit(fn, /, ...)] takes its own parameters by position only
      (Python 3.9 and later), so no keyword clashes with them. *)

From stdpp Require Import gmap strings list fin_maps pretty sorting.
From Stdlib Require Import Ascii ZArith Lia.

Set Warnings "-register-all,-clear-no-such-hyp".

Local Open Scope Z_scope.
Local Open Scope string_scope.

(** ** Python values, exceptions, outcomes of a callable *)

(** The values a unit of work can return.  A float is kept as its [repr]
    text; [PyObject] stands for any object the [json] encoder rejects
    (a set, bytes, an instance of a user class), named by its type, and
    [PyUncopyable] for one that [copy.deepcopy] rejects as well (a lock, a
    generator, an open file). *)
Inductive PyValue : Type :=
| PyNone
| PyBool (b : bool)
| PyInt (n : Z)
| PyFloat (repr : string)
| PyStr (s : string)
| PyList (l : list PyValue)
| PyDict (d : list (string * PyValue))
| PyObject (type_name : string)
| PyUncopyable (type_name : string).

Inductive ExcClass : Type :=
| Exception
| KeyError
| TypeError
| ValueError
| AttributeError
| JSONDecodeError
| ConnectionError
| ModuleNotFoundError
| SystemExit
| KeyboardInterrupt.

(** [isinstance(e, Exception)]: what an [except Exception] clause catches. *)
Definition is_Exception (c : ExcClass) : bool :=
  match c with
  | SystemExit | KeyboardInterrupt => false
  | _ => true
  end.

(** A raised exception: its class and the text [str(e)]. *)
Record PyExc : Type := mkExc { exc_class : ExcClass; exc_str : string }.

Definition caught (e : PyExc) : bool := is_Exception (exc_class e).

(** A call of the submitted callable on its positional and keyword
    arguments either returns a value or raises. *)
Inductive Outcome : Type :=
| Returned (v : PyValue)
| Raised (e : PyExc).

Definition Callable : Type :=
  list PyValue → list (string * PyValue) → Outcome.

(** Results of operations that may raise. *)
Inductive Result (A : Type) : Type :=
| Ok (a : A)
| Raise (e : PyExc).
Arguments Ok {A} a.
Arguments Raise {A} e.

#[global] Instance Result_ret : MRet Result := λ A a, Ok a.
#[global] Instance Result_bind : MBind Result := λ A B f m,
  match m with Ok a => f a | Raise e => Raise e end.
#[global] Instance Result_fmap : FMap Result := λ A B f m,
  match m with Ok a => Ok (f a) | Raise e => Raise e end.

(** The text of a clock reading ([str] of the float). *)
Definition float_repr (t : Z) : string := pretty t.

(** Assignment [d[k] = v] on a dict kept in insertion order. *)
Fixpoint dict_set {A : Type} (k : string) (v : A) (d : list (string * A))
  : list (string * A) :=
  match d with
  | [] => [(k, v)]
  | (k', v') :: d' =>
      if decide (k = k') then (k, v) :: d' else (k', v') :: dict_set k v d'
  end.

Fixpoint dict_get {A : Type} (k : string) (d : list (string * A)) : option A :=
  match d with
  | [] => None
  | (k', v') :: d' => if decide (k = k') then Some v' else dict_get k d'
  end.

(** ** Keyword arguments

    A method [def f(self, p, *args, **kwargs)] called as
    [obj.f(x, *args, **kwargs)] has [self] and [p] filled by position.  The
    keywords are taken in the order of the call; the first one that names a
    filled parameter makes the call raise, before the body runs. *)
Definition multiple_values (qualname param : string) : PyExc :=
  mkExc TypeError
    (qualname +:+ "() got multiple values for argument '" +:+ param +:+ "'").

Definition bind_kwargs {A : Type} (qualname : string) (params : list string)
    (kwargs : list (string * A)) : Result () :=
  match filter (λ k, k ∈ params) kwargs.*1 with
  | [] => Ok ()
  | k :: _ => Raise (multiple_values qualname k)
  end.

(** ** The [json] codec, as far as the queue uses it

    [json.dumps] with its default separators and [ensure_ascii], and
    [json.loads] by the standard scanner: the first character selects a
    string, an object, an array, one of the literals [null], [true],
    [false], a number, or one of [NaN], [Infinity], [-Infinity]; anything
    else is "Expecting value".  Strings are ASCII. *)
Module json.

Definition dquote : ascii := ascii_of_nat 34.
Definition backslash : ascii := ascii_of_nat 92.

Definition hex_digit (n : nat) : ascii :=
  ascii_of_nat (if (n <? 10)%nat then 48 + n else 87 + n)%nat.

(** One character of a string literal as [dumps] writes it. *)
Definition escape_char (c : ascii) : string :=
  let n := nat_of_ascii c in
  if decide (c = dquote) then String backslash (String dquote "")
  else if decide (c = backslash) then String backslash (String backslash "")
  else if decide (n = 10%nat) then String backslash "n"
  else if decide (n = 13%nat) then String backslash "r"
  else if decide (n = 9%nat) then String backslash "t"
  else if decide (n = 8%nat) then String backslash "b"
  else if decide (n = 12%nat) then String backslash "f"
  else if ((32 <=? n) && (n <=? 126))%nat then String c ""
  else String backslash
         ("u00" +:+ String (hex_digit (n / 16)) (String (hex_digit (n mod 16)) "")).

Fixpoint escape (s : string) : string :=
  match s with
  | EmptyString => ""
  | String c s' => escape_char c +:+ escape s'
  end.

Definition quote (s : string) : string :=
  String dquote (escape s) +:+ String dquote "".

Definition join (sep : string) (parts : list string) : string :=
  match parts with
  | [] => ""
  | p :: ps => foldl (λ acc q, acc +:+ sep +:+ q) p ps
  end.

Definition not_serializable (ty : string) : PyExc :=
  mkExc TypeError ("Object of type " +:+ ty +:+ " is not JSON serializable").

Fixpoint dumps (v : PyValue) : Result string :=
  match v with
  | PyNone => Ok "null"
  | PyBool true => Ok "true"
  | PyBool false => Ok "false"
  | PyInt n => Ok (pretty n)
  | PyFloat r =>
      Ok (if decide (r = "nan") then "NaN"
          else if decide (r = "inf") then "Infinity"
          else if decide (r = "-inf") then "-Infinity"
          else r)
  | PyStr s => Ok (quote s)
  | PyList l =>
      let fix items (l : list PyValue) : Result (list string) :=
        match l with
        | [] => Ok []
        | x :: l' => x' ← dumps x; r ← items l'; Ok (x' :: r)
        end in
      parts ← items l; Ok ("[" +:+ join ", " parts +:+ "]")
  | PyDict d =>
      let fix members (d : list (string * PyValue)) : Result (list string) :=
        match d with
        | [] => Ok []
        | (k, x) :: d' =>
            x' ← dumps x; r ← members d'; Ok ((quote k +:+ ": " +:+ x') :: r)
        end in
      parts ← members d; Ok ("{" +:+ join ", " parts +:+ "}")
  | PyObject ty | PyUncopyable ty => Raise (not_serializable ty)
  end.

(** *** Decoding *)

(** The text of a [JSONDecodeError] is its [msg]; [str(e)] names the
    position of the error after it, which is left out here. *)
Definition decode_error (msg : string) : PyExc := mkExc JSONDecodeError msg.

Definition is_ws (c : ascii) : bool :=
  let n := nat_of_ascii c in
  ((n =? 32) || (n =? 9) || (n =? 10) || (n =? 13))%nat.

Definition is_digit (c : ascii) : bool :=
  let n := nat_of_ascii c in ((48 <=? n) && (n <=? 57))%nat.

Fixpoint skip_ws (s : string) : string :=
  match s with
  | String c s' => if is_ws c then skip_ws s' else s
  | EmptyString => s
  end.

Fixpoint strip (p s : string) : option string :=
  match p, s with
  | EmptyString, _ => Some s
  | String a p', String b s' => if decide (a = b) then strip p' s' else None
  | String _ _, EmptyString => None
  end.

(** The longest run of digits at the head, and what follows it. *)
Fixpoint digits (s : string) : string * string :=
  match s with
  | String c s' =>
      if is_digit c then let '(d, r) := digits s' in (String c d, r)
      else ("", s)
  | EmptyString => ("", "")
  end.

Fixpoint digits_value (acc : Z) (d : string) : Z :=
  match d with
  | EmptyString => acc
  | String c d' => digits_value (10 * acc + Z.of_nat (nat_of_ascii c - 48)) d'
  end.

(** The integer part [0|[1-9][0-9]*] of a number. *)
Definition int_part (s : string) : option (string * string) :=
  match s with
  | String c s' =>
      if decide (c = "0"%char) then Some ("0", s')
      else if is_digit c then let '(d, r) := digits s in Some (d, r)
      else None
  | EmptyString => None
  end.

Definition frac_part (s : string) : string * string :=
  match s with
  | String "." s' =>
      match digits s' with
      | (String c d, r) => (String "." (String c d), r)
      | _ => ("", s)
      end
  | _ => ("", s)
  end.

Definition exp_part (s : string) : string * string :=
  match s with
  | String e s' =>
      if bool_decide (e = "e"%char) || bool_decide (e = "E"%char) then
        let '(sign, s'') :=
          match s' with
          | String "+" r => ("+", r)
          | String "-" r => ("-", r)
          | _ => ("", s')
          end in
        match digits s'' with
        | (String c d, r) => (String e (sign +:+ String c d), r)
        | _ => ("", s)
        end
      else ("", s)
  | EmptyString => ("", s)
  end.

(** [match_number]: an integer, or a float when a fraction or an
    exponent follows. *)
Definition number (s : string) : option (PyValue * string) :=
  let '(neg, s1) :=
    match s with String "-" r => (true, r) | _ => (false, s) end in
  match int_part s1 with
  | None => None
  | Some (i, s2) =>
      let '(f, s3) := frac_part s2 in
      let '(e, s4) := exp_part s3 in
      let sign := if neg then "-" else "" in
      if bool_decide (f = "") && bool_decide (e = "") then
        let n := digits_value 0 i in
        Some (PyInt (if neg then - n else n), s4)
      else Some (PyFloat (sign +:+ i +:+ f +:+ e), s4)
  end.

Definition unescape (c : ascii) : option ascii :=
  if decide (c = dquote) then Some dquote
  else if decide (c = backslash) then Some backslash
  else if decide (c = "/"%char) then Some "/"%char
  else if decide (c = "n"%char) then Some (ascii_of_nat 10)
  else if decide (c = "r"%char) then Some (ascii_of_nat 13)
  else if decide (c = "t"%char) then Some (ascii_of_nat 9)
  else if decide (c = "b"%char) then Some (ascii_of_nat 8)
  else if decide (c = "f"%char) then Some (ascii_of_nat 12)
  else None.

Definition hex_value (c : ascii) : option nat :=
  let n := nat_of_ascii c in
  if ((48 <=? n) && (n <=? 57))%nat then Some (n - 48)%nat
  else if ((97 <=? n) && (n <=? 102))%nat then Some (n - 87)%nat
  else if ((65 <=? n) && (n <=? 70))%nat then Some (n - 55)%nat
  else None.

(** The body of a string literal, after its opening quote. *)
Fixpoint scanstring (s : string) : Result (string * string) :=
  match s with
  | EmptyString => Raise (decode_error "Unterminated string starting at")
  | String c s' =>
      if decide (c = dquote) then Ok ("", s')
      else if decide (c = backslash) then
        match s' with
        | String "u" (String a (String b (String h (String l s'')))) =>
            match hex_value a, hex_value b, hex_value h, hex_value l with
            | Some 0%nat, Some 0%nat, Some x, Some y =>
                '(body, r) ← scanstring s'';
                Ok (String (ascii_of_nat (16 * x + y)) body, r)
            | _, _, _, _ => Raise (decode_error "Invalid \uXXXX escape")
            end
        | String e s'' =>
            match unescape e with
            | Some c' => '(body, r) ← scanstring s''; Ok (String c' body, r)
            | None => Raise (decode_error "Invalid \escape")
            end
        | EmptyString => Raise (decode_error "Unterminated string starting at")
        end
      else if (nat_of_ascii c <? 32)%nat then
        Raise (decode_error "Invalid control character at")
      else '(body, r) ← scanstring s'; Ok (String c body, r)
  end.

Definition expecting_value : PyExc := decode_error "Expecting value".

(** [scan_once] with the array and object loops; [fuel] bounds the
    number of calls, each of which consumes a character. *)
Fixpoint scan_once (fuel : nat) (s : string) : Result (PyValue * string) :=
  match fuel with
  | O => Raise expecting_value
  | S fuel' =>
      match s with
      | EmptyString => Raise expecting_value
      | String c s' =>
          if decide (c = dquote) then
            '(body, r) ← scanstring s'; Ok (PyStr body, r)
          else if decide (c = "{"%char) then
            match skip_ws s' with
            | String "}" r => Ok (PyDict [], r)
            | s1 => '(d, r) ← members fuel' s1 []; Ok (PyDict d, r)
            end
          else if decide (c = "["%char) then
            match skip_ws s' with
            | String "]" r => Ok (PyList [], r)
            | s1 => '(l, r) ← elements fuel' s1; Ok (PyList l, r)
            end
          else
            match strip "null" s, strip "true" s, strip "false" s with
            | Some r, _, _ => Ok (PyNone, r)
            | _, Some r, _ => Ok (PyBool true, r)
            | _, _, Some r => Ok (PyBool false, r)
            | None, None, None =>
                match number s with
                | Some res => Ok res
                | None =>
                    match strip "NaN" s, strip "Infinity" s,
                          strip "-Infinity" s with
                    | Some r, _, _ => Ok (PyFloat "nan", r)
                    | _, Some r, _ => Ok (PyFloat "inf", r)
                    | _, _, Some r => Ok (PyFloat "-inf", r)
                    | None, None, None => Raise expecting_value
                    end
                end
            end
      end
  end
with elements (fuel : nat) (s : string) : Result (list PyValue * string) :=
  match fuel with
  | O => Raise expecting_value
  | S fuel' =>
      '(v, r) ← scan_once fuel' s;
      match skip_ws r with
      | String "]" r' => Ok ([v], r')
      | String "," r' =>
          '(l, r'') ← elements fuel' (skip_ws r'); Ok (v :: l, r'')
      | _ => Raise (decode_error "Expecting ',' delimiter")
      end
  end
with members (fuel : nat) (s : string) (acc : list (string * PyValue))
  : Result (list (string * PyValue) * string) :=
  match fuel with
  | O => Raise expecting_value
  | S fuel' =>
      match s with
      | String c s' =>
          if decide (c = dquote) then
            '(k, r) ← scanstring s';
            match skip_ws r with
            | String ":" r1 =>
                '(v, r2) ← scan_once fuel' (skip_ws r1);
                let acc' := dict_set k v acc in
                match skip_ws r2 with
                | String "}" r3 => Ok (acc', r3)
                | String "," r3 => members fuel' (skip_ws r3) acc'
                | _ => Raise (decode_error "Expecting ',' delimiter")
                end
            | _ => Raise (decode_error "Expecting ':' delimiter")
            end
          else Raise (decode_error
                 "Expecting property name enclosed in double quotes")
      | EmptyString => Raise (decode_error
                 "Expecting property name enclosed in double quotes")
      end
  end.

(** [json.loads]: leading whitespace, one value, trailing whitespace. *)
Definition loads (s : string) : Result PyValue :=
  '(v, r) ← scan_once (S (String.length s)) (skip_ws s);
  match skip_ws r with
  | EmptyString => Ok v
  | _ => Raise (decode_error "Extra data")
  end.

End json.

(** ** State and exceptions

    A method of an object of state [S] is a function from the state before
    the call to the state after it and either the returned value or the
    exception that escapes.  What was written before a [raise] stays
    written. *)
Definition Py (S A : Type) : Type := S → S * Result A.

Definition ret {S A : Type} (a : A) : Py S A := λ s, (s, Ok a).

Definition raise {S A : Type} (e : PyExc) : Py S A := λ s, (s, Raise e).

Definition bind {S A B : Type} (m : Py S A) (k : A → Py S B) : Py S B :=
  λ s, match m s with
       | (s', Ok a) => k a s'
       | (s', Raise e) => (s', Raise e)
       end.

Definition modify {S : Type} (f : S → S) : Py S () := λ s, (f s, Ok ()).

(** [try: body / except Exception as e: handler e]. *)
Definition try_except {S A : Type} (body : Py S A) (handler : PyExc → Py S A)
  : Py S A :=
  λ s, match body s with
       | (s', Ok a) => (s', Ok a)
       | (s', Raise e) => if caught e then handler e s' else (s', Raise e)
       end.

(** The value or exception of a call made inside a method. *)
Definition call {S : Type} (o : Outcome) : Py S PyValue :=
  match o with
  | Returned v => ret v
  | Raised e => raise e
  end.

Declare Scope py_scope.
Delimit Scope py_scope with py.
Notation "'do' x <- m ;; k" := (bind m (λ x, k))
  (at level 10, x name, m at level 99, k at level 200) : py_scope.
Notation "m1 ;; m2" := (bind m1 (λ _, m2))
  (at level 100, m2 at level 200, right associativity) : py_scope.

(** ** [TaskStatus] and [Task] *)

Inductive TaskStatus : Type := PENDING | PROCESSING | COMPLETED | FAILED.

#[global] Instance TaskStatus_eq_dec : EqDecision TaskStatus.
Proof. solve_decision. Defined.

(** [TaskStatus.X.value] *)
Definition value (s : TaskStatus) : string :=
  match s with
  | PENDING => "pending"
  | PROCESSING => "processing"
  | COMPLETED => "completed"
  | FAILED => "failed"
  end.

Definition terminal (s : TaskStatus) : bool :=
  match s with COMPLETED | FAILED => true | _ => false end.

Module Task.

(** [result] and [error] are [None] until assigned; [result] holds any
    value the callable returned, so its [None] is [PyNone]. *)
Record t : Type := mk {
  id : string;
  status : TaskStatus;
  created_at : Z;
  updated_at : Z;
  result : PyValue;
  error : option string
}.

Definition set_status (st : TaskStatus) (task : t) : t :=
  mk (id task) st (created_at task) (updated_at task) (result task) (error task).

Definition set_updated_at (now : Z) (task : t) : t :=
  mk (id task) (status task) (created_at task) now (result task) (error task).

Definition set_result (v : PyValue) (task : t) : t :=
  mk (id task) (status task) (created_at task) (updated_at task) v (error task).

Definition set_error (msg : string) (task : t) : t :=
  mk (id task) (status task) (created_at task) (updated_at task) (result task)
     (Some msg).

Definition cannot_pickle (ty : string) : PyExc :=
  mkExc TypeError ("cannot pickle '" +:+ ty +:+ "' object").

(** What [asdict] does with the value of a field: lists and dicts are
    rebuilt item by item, anything else goes through [copy.deepcopy]. *)
Fixpoint asdict_inner (v : PyValue) : Result PyValue :=
  match v with
  | PyList l =>
      let fix items (l : list PyValue) : Result (list PyValue) :=
        match l with
        | [] => Ok []
        | x :: l' => x' ← asdict_inner x; r ← items l'; Ok (x' :: r)
        end in
      PyList <$> items l
  | PyDict d =>
      let fix members (d : list (string * PyValue))
        : Result (list (string * PyValue)) :=
        match d with
        | [] => Ok []
        | (k, x) :: d' => x' ← asdict_inner x; r ← members d'; Ok ((k, x') :: r)
        end in
      PyDict <$> members d
  | PyUncopyable ty => Raise (cannot_pickle ty)
  | _ => Ok v
  end.

(** The values of [self] at the attribute reads of [to_dict]: [asdict]
    reads the six fields in the order of their declaration, and
    [self.status] is read once more for its [value].  The reads take no
    lock, so a wrapper may write between them. *)
Record Reads : Type := mkReads {
  at_id : t;
  at_status : t;
  at_created_at : t;
  at_updated_at : t;
  at_result : t;
  at_error : t;
  at_value : t
}.

Definition to_dict_reads (r : Reads) : Result (list (string * PyValue)) :=
  res ← asdict_inner (result (at_result r));
  let data :=
    [("id", PyStr (id (at_id r)));
     ("status", PyObject "TaskStatus");
     ("created_at", PyFloat (float_repr (created_at (at_created_at r))));
     ("updated_at", PyFloat (float_repr (updated_at (at_updated_at r))));
     ("result", res);
     ("error", from_option PyStr PyNone (error (at_error r)))] in
  Ok (dict_set "status" (PyStr (value (status (at_value r)))) data).

(** [asdict(self)] with the status replaced by its string value, when
    nothing writes the record during the call. *)
Definition to_dict (task : t) : Result (list (string * PyValue)) :=
  to_dict_reads (mkReads task task task task task task task).

End Task.

(** ** The worker pool

    [ThreadPoolExecutor]: submitted work waits in a FIFO queue; at most
    [_max_workers] items run at a time.  An item is the bound method
    [_execute_task] of the owning queue with its arguments. *)
Record WorkItem : Type := mkItem {
  item_task_id : string;
  item_func : Callable;
  item_args : list PyValue;
  item_kwargs : list (string * PyValue)
}.

Definition run_item (w : WorkItem) : Outcome :=
  item_func w (item_args w) (item_kwargs w).

Module ThreadPoolExecutor.

Record t : Type := mk {
  _max_workers : nat;
  _work_queue : list WorkItem;
  running : list WorkItem
}.

(** The constructor rejects a pool size that is not positive. *)
Definition __init__ (max_workers : Z) : Result t :=
  if decide (max_workers ≤ 0)%Z
  then Raise (mkExc ValueError "max_workers must be greater than 0")
  else Ok (mk (Z.to_nat max_workers) [] []).

Definition submit (w : WorkItem) (p : t) : t :=
  mk (_max_workers p) (_work_queue p ++ [w]) (running p).

(** A free worker takes the oldest waiting item. *)
Definition take (p : t) : option (WorkItem * t) :=
  match _work_queue p with
  | w :: rest =>
      if (length (running p) <? _max_workers p)%nat
      then Some (w, mk (_max_workers p) rest (running p))
      else None
  | [] => None
  end.

Definition run (w : WorkItem) (p : t) : t :=
  mk (_max_workers p) (_work_queue p) (running p ++ [w]).

(** The [k]-th running item leaves its worker. *)
Definition leave (k : nat) (p : t) : t :=
  mk (_max_workers p) (_work_queue p) (delete k (running p)).

End ThreadPoolExecutor.

(** What a call, or a step of a worker, shows to its environment. *)
Inductive Output : Type :=
| Nothing
| TaskId (task_id : string)
| Status (d : option (list (string * PyValue)))
| Escaped (e : PyExc).

Definition status_output (r : Result (option (list (string * PyValue))))
  : Output :=
  match r with
  | Ok d => Status d
  | Raise e => Escaped e
  end.

(** ** [TaskQueue]: the in-memory queue *)
Module TaskQueue.

Record t : Type := mk {
  _tasks : gmap string Task.t;
  _executor : ThreadPoolExecutor.t;
  log : list string
}.

Definition set_tasks (m : gmap string Task.t) (q : t) : t :=
  mk m (_executor q) (log q).

Definition set_executor (p : ThreadPoolExecutor.t) (q : t) : t :=
  mk (_tasks q) p (log q).

(** [logger.info] and [logger.error] append a record. *)
Definition logger (msg : string) : Py t () :=
  modify (λ q, mk (_tasks q) (_executor q) (log q ++ [msg])).

Definition __init__ (max_workers : Z) : Result t :=
  p ← ThreadPoolExecutor.__init__ max_workers;
  Ok (mk ∅ p
        ["TaskQueue initialized with " +:+ pretty max_workers +:+ " workers"]).

Definition key_error (k : string) : PyExc :=
  mkExc KeyError ("'" +:+ k +:+ "'").

(** [self._tasks[task_id].attr = x]: the subscript raises on a missing
    key, before anything is written. *)
Definition setattr_task (task_id : string) (f : Task.t → Task.t) : Py t () :=
  λ q, match _tasks q !! task_id with
       | Some task => (set_tasks (<[task_id := f task]> (_tasks q)) q, Ok ())
       | None => (q, Raise (key_error task_id))
       end.

(** [del self._tasks[tid]] *)
Definition delitem_task (tid : string) : Py t () :=
  λ q, match _tasks q !! tid with
       | Some _ => (set_tasks (delete tid (_tasks q)) q, Ok ())
       | None => (q, Raise (key_error tid))
       end.

Definition lift {A : Type} (r : Result A) : Py t A := λ q, (q, r).

(** The parameters of [submit] and of [_execute_task] that a call fills
    by position. *)
Definition submit_params : list string := ["self"; "func"].
Definition _execute_task_params : list string := ["self"; "task_id"; "func"].

(** A call [queue.submit(func, *args, **kwargs)]. *)
Definition submit (uuid4 : string) (now1 now2 : Z) (func : Callable)
    (args : list PyValue) (kwargs : list (string * PyValue)) (q : t)
  : t * Result string :=
  match bind_kwargs "TaskQueue.submit" submit_params kwargs with
  | Raise e => (q, Raise e)
  | Ok _ =>
      let task_id := uuid4 in
      let task := Task.mk task_id PENDING now1 now2 PyNone None in
      let q := set_tasks (<[task_id := task]> (_tasks q)) q in
      let q := set_executor
                 (ThreadPoolExecutor.submit (mkItem task_id func args kwargs)
                    (_executor q)) q in
      let q := fst (logger ("Task submitted: " +:+ task_id) q) in
      (q, Ok task_id)
  end.

(** The call [self._execute_task(task_id, func, *args, **kwargs)] that the
    pool makes binds its arguments. *)
Definition _execute_task_bind (kwargs : list (string * PyValue)) : Py t () :=
  lift (bind_kwargs "TaskQueue._execute_task" _execute_task_params kwargs).

(** [_execute_task], first locked block: the worker starts. *)
Definition _execute_task_start (now : Z) (task_id : string) : Py t () :=
  (setattr_task task_id (Task.set_status PROCESSING) ;;
   setattr_task task_id (Task.set_updated_at now))%py.

(** [_execute_task], the [try] statement, given what the call of the
    callable produced. *)
Definition _execute_task_finish (now : Z) (task_id : string) (o : Outcome)
  : Py t () :=
  try_except
    (do result <- call o ;;
     setattr_task task_id (Task.set_status COMPLETED) ;;
     setattr_task task_id (Task.set_result result) ;;
     setattr_task task_id (Task.set_updated_at now) ;;
     logger ("Task completed: " +:+ task_id))%py
    (λ e,
     setattr_task task_id (Task.set_status FAILED) ;;
     setattr_task task_id (Task.set_error (exc_str e)) ;;
     setattr_task task_id (Task.set_updated_at now) ;;
     logger ("Task failed: " +:+ task_id +:+ " - " +:+ exc_str e))%py.

(** The whole call of the wrapper, run without interruption: [now1] is
    read at the start, [now2] when the outcome is recorded. *)
Definition _execute_task (now1 now2 : Z) (task_id : string)
    (func : Callable) (args : list PyValue) (kwargs : list (string * PyValue))
  : Py t () :=
  (_execute_task_bind kwargs ;;
   _execute_task_start now1 task_id ;;
   _execute_task_finish now2 task_id (func args kwargs))%py.

Definition get_task (task_id : string) (q : t) : option Task.t :=
  _tasks q !! task_id.

(** [get_task_status] while a wrapper may be writing the record:
    [get_task] returns the object under the lock, and [reads] gives the
    values the object has when [to_dict] reads its attributes. *)
Definition get_task_status_during (reads : Task.t → Task.Reads)
    (task_id : string) (q : t) : Result (option (list (string * PyValue))) :=
  match get_task task_id q with
  | Some task => Some <$> Task.to_dict_reads (reads task)
  | None => Ok None
  end.

(** [get_task_status] when nothing writes the record during the call. *)
Definition get_task_status (task_id : string) (q : t)
  : Result (option (list (string * PyValue))) :=
  get_task_status_during (λ task, Task.mkReads task task task task task task task)
    task_id q.

(** The comprehension of [cleanup_old_tasks]. *)
Definition to_remove (max_age current_time : Z) (q : t) : list string :=
  (filter (λ item, max_age < current_time - Task.created_at item.2)
     (map_to_list (_tasks q))).*1.

Fixpoint delete_all (tids : list string) : Py t () :=
  match tids with
  | [] => ret ()
  | tid :: rest => (delitem_task tid ;; delete_all rest)%py
  end.

(** [cleanup_old_tasks] has no [return]: the count goes to the log. *)
Definition cleanup_old_tasks (max_age current_time : Z) : Py t () :=
  λ q,
    let tids := to_remove max_age current_time q in
    (delete_all tids ;;
     logger ("Cleaned up " +:+ pretty (length tids) +:+ " old tasks"))%py q.

(** *** The worker threads of the pool *)

(** A free worker dequeues the oldest item and calls the wrapper, which
    runs up to the end of the first locked block.  An exception that
    escapes is stored in the future of the item, which [submit] dropped,
    and the worker is free again. *)
Definition worker_start (now : Z) (q : t) : t * Output :=
  match ThreadPoolExecutor.take (_executor q) with
  | None => (q, Nothing)
  | Some (w, p) =>
      match (_execute_task_bind (item_kwargs w) ;;
             _execute_task_start now (item_task_id w))%py (set_executor p q) with
      | (q', Ok _) =>
          (set_executor (ThreadPoolExecutor.run w (_executor q')) q', Nothing)
      | (q', Raise e) => (q', Escaped e)
      end
  end.

(** The callable of the [k]-th running item returns or raises, and the
    worker runs the [try] statement. *)
Definition worker_finish (k : nat) (now : Z) (q : t) : t * Output :=
  match ThreadPoolExecutor.running (_executor q) !! k with
  | None => (q, Nothing)
  | Some w =>
      let q1 := set_executor (ThreadPoolExecutor.leave k (_executor q)) q in
      match _execute_task_finish now (item_task_id w) (run_item w) q1 with
      | (q', Ok _) => (q', Nothing)
      | (q', Raise e) => (q', Escaped e)
      end
  end.

End TaskQueue.

(** ** The external store

    The two hash commands of redis the queue uses, on a store that
    answers: [hset] creates the hash of a key when it is missing, and
    [hgetall] of a missing key is the empty mapping.  Keys, fields and
    values are byte strings; [decode] is the identity on the ASCII texts
    the queue writes.  A hash is kept in the order in which its fields
    were first written, and [hgetall] replies in that order; a real store
    does so for a small hash only, so a statement that is meant for every
    order of the reply quantifies over the permutations of the hash. *)
Module redis.

Definition hset (key field value : string)
    (db : gmap string (list (string * string)))
  : gmap string (list (string * string)) :=
  <[key := dict_set field value (default [] (db !! key))]> db.

(** [hset(key, mapping=...)] *)
Definition hset_mapping (key : string) (mapping : list (string * string))
    (db : gmap string (list (string * string)))
  : gmap string (list (string * string)) :=
  foldl (λ db item, hset key item.1 item.2 db) db mapping.

Definition hgetall (key : string) (db : gmap string (list (string * string)))
  : list (string * string) :=
  default [] (db !! key).

Definition decode (b : string) : string := b.

End redis.

(** ** [RedisTaskQueue]: the queue on the external store *)
Module RedisTaskQueue.

(** After [__init__] either [_redis] is a client of a store with the
    given contents and [_executor] is the pool, or [_redis] is [None] and
    [_fallback] is an in-memory queue.  [log] holds what the constructor
    logged. *)
Inductive t : Type :=
| Connected (_redis : gmap string (list (string * string)))
    (_executor : ThreadPoolExecutor.t) (log : list string)
| Fallback (_fallback : TaskQueue.t) (log : list string).


Definition no_attribute (name : string) : PyExc :=
  mkExc AttributeError
    ("'NoneType' object has no attribute '" +:+ name +:+ "'").

(** [connect] is what [import redis], [redis.from_url(redis_url)] and
    [ping()] produce: the contents of a store that answered, or the
    exception one of them raised. *)
Definition __init__ (connect : Result (gmap string (list (string * string))))
    (max_workers : Z) : Result t :=
  match db ← connect; p ← ThreadPoolExecutor.__init__ max_workers; Ok (db, p) with
  | Ok (db, p) => Ok (Connected db p ["Redis TaskQueue initialized"])
  | Raise e =>
      if caught e then
        f ← TaskQueue.__init__ max_workers;
        Ok (Fallback f ["Redis unavailable: " +:+ exc_str e])
      else Raise e
  end.

(** [self._redis.hset(key, field, value)] *)
Definition _redis_hset (key field value : string) : Py t () :=
  λ q, match q with
       | Connected db p l => (Connected (redis.hset key field value db) p l, Ok ())
       | Fallback _ _ => (q, Raise (no_attribute "hset"))
       end.

Definition _redis_hset_mapping (key : string)
    (mapping : list (string * string)) : Py t () :=
  λ q, match q with
       | Connected db p l =>
           (Connected (redis.hset_mapping key mapping db) p l, Ok ())
       | Fallback _ _ => (q, Raise (no_attribute "hset"))
       end.

Definition _executor_submit (w : WorkItem) : Py t () :=
  λ q, match q with
       | Connected db p l =>
           (Connected db (ThreadPoolExecutor.submit w p) l, Ok ())
       | Fallback _ _ =>
           (q, Raise (mkExc AttributeError
                 "'RedisTaskQueue' object has no attribute '_executor'"))
       end.

Definition lift {A : Type} (r : Result A) : Py t A := λ q, (q, r).

(** [json.dumps(v) if isinstance(v, (dict, list)) else str(v)]; the text
    of an opaque object is taken to be the name of its type. *)
Definition encode_field (v : PyValue) : Result string :=
  match v with
  | PyDict _ | PyList _ => json.dumps v
  | PyNone => Ok "None"
  | PyBool true => Ok "True"
  | PyBool false => Ok "False"
  | PyInt n => Ok (pretty n)
  | PyFloat r => Ok r
  | PyStr s => Ok s
  | PyObject ty | PyUncopyable ty => Ok ty
  end.

(** The comprehension of [submit], item by item into the dict [acc]. *)
Fixpoint encode_mapping (data : list (string * PyValue))
    (acc : list (string * string)) : Result (list (string * string)) :=
  match data with
  | [] => Ok acc
  | (k, v) :: rest =>
      v' ← encode_field v; encode_mapping rest (dict_set k v' acc)
  end.

Definition task_key (task_id : string) : string := "task:" +:+ task_id.

(** A call [queue.submit(func, *args, **kwargs)]; in fallback mode the
    same arguments go on to [TaskQueue.submit]. *)
Definition submit (uuid4 : string) (now1 now2 : Z) (func : Callable)
    (args : list PyValue) (kwargs : list (string * PyValue)) : Py t string :=
  (lift (bind_kwargs "RedisTaskQueue.submit" TaskQueue.submit_params kwargs) ;;
   λ q,
    match q with
    | Fallback f l =>
        let '(f', r) :=
          TaskQueue.submit uuid4 now1 now2 func args kwargs f in
        (Fallback f' l, r)
    | Connected _ _ _ =>
        let task_id := uuid4 in
        let task_data :=
          [("id", PyStr task_id);
           ("status", PyStr (value PENDING));
           ("created_at", PyFloat (float_repr now1));
           ("updated_at", PyFloat (float_repr now2));
           ("result", PyNone);
           ("error", PyNone)] in
        (do mapping <- lift (encode_mapping task_data []) ;;
         _redis_hset_mapping (task_key task_id) mapping ;;
         _executor_submit (mkItem task_id func args kwargs) ;;
         ret task_id)%py q
    end)%py.

(** The call [self._execute_task(task_id, func, *args, **kwargs)] that the
    pool makes binds its arguments. *)
Definition _execute_task_bind (kwargs : list (string * PyValue)) : Py t () :=
  lift (bind_kwargs "RedisTaskQueue._execute_task"
          TaskQueue._execute_task_params kwargs).

(** [_execute_task] up to the [try] statement. *)
Definition _execute_task_start (now : Z) (task_id : string) : Py t () :=
  let key := task_key task_id in
  (_redis_hset key "status" (value PROCESSING) ;;
   _redis_hset key "updated_at" (float_repr now))%py.

(** The [try] statement of [_execute_task]. *)
Definition _execute_task_finish (now : Z) (task_id : string) (o : Outcome)
  : Py t () :=
  let key := task_key task_id in
  try_except
    (do result <- call o ;;
     _redis_hset key "status" (value COMPLETED) ;;
     do text <- lift (json.dumps result) ;;
     _redis_hset key "result" text ;;
     _redis_hset key "updated_at" (float_repr now))%py
    (λ e,
     _redis_hset key "status" (value FAILED) ;;
     _redis_hset key "error" (exc_str e) ;;
     _redis_hset key "updated_at" (float_repr now))%py.

Definition _execute_task (now1 now2 : Z) (task_id : string)
    (func : Callable) (args : list PyValue) (kwargs : list (string * PyValue))
  : Py t () :=
  (_execute_task_bind kwargs ;;
   _execute_task_start now1 task_id ;;
   _execute_task_finish now2 task_id (func args kwargs))%py.

(** The comprehension of [get_task_status]: the field [result] goes
    through [json.loads] when its text is not empty, every other field
    is decoded as text. *)
Fixpoint decode_fields (data : list (string * string))
    (acc : list (string * PyValue)) : Result (list (string * PyValue)) :=
  match data with
  | [] => Ok acc
  | (k, v) :: rest =>
      v' ← (if bool_decide (redis.decode k = "result")
               && negb (bool_decide (v = ""))
            then json.loads v
            else Ok (PyStr (redis.decode v)));
      decode_fields rest (dict_set (redis.decode k) v' acc)
  end.

Definition get_task_status (task_id : string)
  : Py t (option (list (string * PyValue))) :=
  λ q,
    match q with
    | Fallback f _ => (q, TaskQueue.get_task_status task_id f)
    | Connected db _ _ =>
        let key := task_key task_id in
        let data := redis.hgetall key db in
        match data with
        | [] => (q, Ok None)
        | _ :: _ => (q, Some <$> decode_fields data [])
        end
    end.

(** *** The worker threads of the pool *)

Definition worker_start (now : Z) (q : t) : t * Output :=
  match q with
  | Fallback f l =>
      let '(f', out) := TaskQueue.worker_start now f in (Fallback f' l, out)
  | Connected db p l =>
      match ThreadPoolExecutor.take p with
      | None => (q, Nothing)
      | Some (w, p') =>
          match (_execute_task_bind (item_kwargs w) ;;
                 _execute_task_start now (item_task_id w))%py
                  (Connected db p' l) with
          | (Connected db' p'' l', Ok _) =>
              (Connected db' (ThreadPoolExecutor.run w p'') l', Nothing)
          | (q', Ok _) => (q', Nothing)
          | (q', Raise e) => (q', Escaped e)
          end
      end
  end.

Definition worker_finish (k : nat) (now : Z) (q : t) : t * Output :=
  match q with
  | Fallback f l =>
      let '(f', out) := TaskQueue.worker_finish k now f in (Fallback f' l, out)
  | Connected db p l =>
      match ThreadPoolExecutor.running p !! k with
      | None => (q, Nothing)
      | Some w =>
          let q1 := Connected db (ThreadPoolExecutor.leave k p) l in
          match _execute_task_finish now (item_task_id w) (run_item w) q1 with
          | (q', Ok _) => (q', Nothing)
          | (q', Raise e) => (q', Escaped e)
          end
      end
  end.

End RedisTaskQueue.

(** ** Runs of a queue

    What happens to a queue object during the life of the process: calls
    of its methods by the request handlers, and steps of the worker
    threads of its pool. *)
Inductive Event : Type :=
| Submit (uuid4 : string) (now1 now2 : Z) (func : Callable)
    (args : list PyValue) (kwargs : list (string * PyValue))
| GetTaskStatus (task_id : string)
| CleanupOldTasks (max_age current_time : Z)
| WorkerStart (now : Z)
| WorkerFinish (k : nat) (now : Z).

Definition output_of {S : Type} (r : S * Result ()) : S * Output :=
  match r with
  | (s, Ok _) => (s, Nothing)
  | (s, Raise e) => (s, Escaped e)
  end.

Class Queue (Q : Type) : Type := step : Event → Q → Q * Output.

#[global] Instance TaskQueue_step : Queue TaskQueue.t := λ ev q,
  match ev with
  | Submit uuid4 now1 now2 func args kwargs =>
      match TaskQueue.submit uuid4 now1 now2 func args kwargs q with
      | (q', Ok task_id) => (q', TaskId task_id)
      | (q', Raise e) => (q', Escaped e)
      end
  | GetTaskStatus task_id =>
      (q, status_output (TaskQueue.get_task_status task_id q))
  | CleanupOldTasks max_age current_time =>
      output_of (TaskQueue.cleanup_old_tasks max_age current_time q)
  | WorkerStart now => TaskQueue.worker_start now q
  | WorkerFinish k now => TaskQueue.worker_finish k now q
  end.

(** [RedisTaskQueue] defines no [cleanup_old_tasks]. *)
#[global] Instance RedisTaskQueue_step : Queue RedisTaskQueue.t := λ ev q,
  match ev with
  | Submit uuid4 now1 now2 func args kwargs =>
      match RedisTaskQueue.submit uuid4 now1 now2 func args kwargs q with
      | (q', Ok task_id) => (q', TaskId task_id)
      | (q', Raise e) => (q', Escaped e)
      end
  | GetTaskStatus task_id =>
      let '(q', r) := RedisTaskQueue.get_task_status task_id q in
      (q', status_output r)
  | CleanupOldTasks _ _ =>
      (q, Escaped (mkExc AttributeError
         "'RedisTaskQueue' object has no attribute 'cleanup_old_tasks'"))
  | WorkerStart now => RedisTaskQueue.worker_start now q
  | WorkerFinish k now => RedisTaskQueue.worker_finish k now q
  end.

(** The state after a run, and what each event showed. *)
Fixpoint run {Q : Type} `{Queue Q} (evs : list Event) (q : Q) : Q * list Output :=
  match evs with
  | [] => (q, [])
  | ev :: evs' =>
      let '(q1, out) := step ev q in
      let '(q2, outs) := run evs' q1 in
      (q2, out :: outs)
  end.

Definition final {Q : Type} `{Queue Q} (evs : list Event) (q : Q) : Q :=
  (run evs q).1.

(** The states a run goes through, the first one included. *)
Fixpoint states {Q : Type} `{Queue Q} (evs : list Event) (q : Q) : list Q :=
  q :: match evs with
       | [] => []
       | ev :: evs' => states evs' (step ev q).1
       end.


Definition submitted (ev : Event) : list string :=
  match ev with
  | Submit uuid4 _ _ _ _ _ => [uuid4]
  | _ => []
  end.


(** [uuid4] never repeats during the run. *)
Definition uuids_unique (evs : list Event) : Prop :=
  NoDup (evs ≫= submitted).

(** ** The lifecycle of a record *)

(** The statuses of a task that a reader sees between the events of a
    run, repetitions of the same status dropped. *)
Definition status_of (task_id : string) (q : TaskQueue.t) : option TaskStatus :=
  Task.status <$> TaskQueue.get_task task_id q.

Fixpoint changes (l : list TaskStatus) : list TaskStatus :=
  match l with
  | [] => []
  | x :: l' =>
      match l' with
      | y :: _ => if decide (x = y) then changes l' else x :: changes l'
      | [] => [x]
      end
  end.

Definition observed (task_id : string) (evs : list Event) (q : TaskQueue.t)
  : list TaskStatus :=
  changes (omap (status_of task_id) (states evs q)).

(** One step forward in the lifecycle. *)
Definition advances (a b : TaskStatus) : bool :=
  match a, b with
  | PENDING, PROCESSING | PROCESSING, COMPLETED | PROCESSING, FAILED => true
  | _, _ => false
  end.

(** [result] or [error] holds something other than [None]. *)
Definition result_set (task : Task.t) : Prop := Task.result task ≠ PyNone.
Definition error_set (task : Task.t) : Prop := Task.error task ≠ None.

(** ** The module-level queue: [task_queue], [get_task_queue],
    [initialize_task_queue] *)

(** The object the global [task_queue] is bound to, once it is bound. *)
Inductive AnyQueue : Type :=
| InMemory (q : TaskQueue.t)
| OnRedis (q : RedisTaskQueue.t).

(** [if redis_url:] holds for a string that is not empty. *)
Definition truthy_url (redis_url : option string) : bool :=
  match redis_url with
  | Some url => negb (bool_decide (url = ""))
  | None => false
  end.

(** The state is the global [task_queue]; [None] until it is assigned. *)
Definition get_task_queue : Py (option AnyQueue) AnyQueue :=
  λ task_queue,
    match task_queue with
    | None =>
        match TaskQueue.__init__ 4 with
        | Ok q => (Some (InMemory q), Ok (InMemory q))
        | Raise e => (task_queue, Raise e)
        end
    | Some q => (task_queue, Ok q)
    end.

(** [connect] is what reaching the store at [redis_url] produces, as in
    [RedisTaskQueue.__init__]; the global keeps its old binding when a
    constructor raises. *)
Definition initialize_task_queue (redis_url : option string)
    (connect : Result (gmap string (list (string * string))))
    (max_workers : Z) : Py (option AnyQueue) () :=
  λ task_queue,
    if truthy_url redis_url then
      match RedisTaskQueue.__init__ connect max_workers with
      | Ok q => (Some (OnRedis q), Ok ())
      | Raise e => (task_queue, Raise e)
      end
    else
      match TaskQueue.__init__ max_workers with
      | Ok q => (Some (InMemory q), Ok ())
      | Raise e => (task_queue, Raise e)
      end.

#[global] Instance AnyQueue_step : Queue AnyQueue := λ ev q,
  match q with
  | InMemory q => let '(q', out) := step ev q in (InMemory q', out)
  | OnRedis q => let '(q', out) := step ev q in (OnRedis q', out)
  end.

(** ** The caches of [app/core/cache.py]

    A clock reading and a [ttl] are counted in the same unit. *)
Module InMemoryCache.

Record t : Type := mk {
  _cache : gmap string PyValue;
  _expiry : gmap string Z
}.

Definition __init__ : t := mk ∅ ∅.

(** [pop(key, None)] on both dicts. *)
Definition delete (key : string) (c : t) : t :=
  mk (base.delete key (_cache c)) (base.delete key (_expiry c)).

(** [time.time()] is read only when the key is in [_cache]; an entry found
    expired is deleted.  The returned [None] is [PyNone]. *)
Definition get (now : Z) (key : string) (c : t) : t * PyValue :=
  match _cache c !! key with
  | Some v =>
      if decide (now < default 0 (_expiry c !! key)) then (c, v)
      else (delete key c, PyNone)
  | None => (c, PyNone)
  end.

Definition set (now : Z) (key : string) (v : PyValue) (ttl : Z) (c : t) : t :=
  mk (<[key := v]> (_cache c)) (<[key := now + ttl]> (_expiry c)).

Definition clear (c : t) : t := mk ∅ ∅.

End InMemoryCache.

(** [RedisCache]: the store is outside; [reply] is what the one call a
    method makes to the client produces. *)
Module RedisCache.

Inductive t : Type :=
| Client (log : list string)
| Fallback (_fallback : InMemoryCache.t) (log : list string).

Definition __init__ (connect : Result ()) : Result t :=
  match connect with
  | Ok _ => Ok (Client ["Redis cache connected"])
  | Raise e =>
      if caught e then
        Ok (Fallback InMemoryCache.__init__
              ["Redis unavailable, falling back to in-memory: " +:+ exc_str e])
      else Raise e
  end.

Definition lift {A : Type} (r : Result A) : Py t A := λ c, (c, r).

(** The [try] statement returns the decoded data when the store gave
    some; otherwise, and after a caught exception, the method returns
    [None]. *)
Definition get (reply : Result (option string)) (now : Z) (key : string)
  : Py t PyValue :=
  λ c,
    match c with
    | Fallback f l =>
        let '(f', v) := InMemoryCache.get now key f in (Fallback f' l, Ok v)
    | Client _ =>
        (do returned <-
           try_except
             (do data <- lift reply ;;
              match data with
              | Some d =>
                  if bool_decide (d = "") then ret None
                  else (do v <- lift (json.loads d) ;; ret (Some v))
              | None => ret None
              end)
             (λ _, ret None) ;;
         ret (default PyNone returned))%py c
    end.

(** [setex(key, ttl, json.dumps(value))]: the value is encoded before the
    client is called. *)
Definition set (reply : Result ()) (now : Z) (key : string) (v : PyValue)
    (ttl : Z) : Py t () :=
  λ c,
    match c with
    | Fallback f l => (Fallback (InMemoryCache.set now key v ttl f) l, Ok ())
    | Client _ =>
        try_except
          (do text <- lift (json.dumps v) ;; lift reply)%py
          (λ _, ret ()) c
    end.

Definition delete (reply : Result ()) (key : string) : Py t () :=
  λ c,
    match c with
    | Fallback f l => (Fallback (InMemoryCache.delete key f) l, Ok ())
    | Client _ => try_except (lift reply) (λ _, ret ()) c
    end.

Definition clear (reply : Result ()) : Py t () :=
  λ c,
    match c with
    | Fallback f l => (Fallback (InMemoryCache.clear f) l, Ok ())
    | Client _ => try_except (lift reply) (λ _, ret ()) c
    end.

End RedisCache.

(** Runs of an [InMemoryCache]. *)
Inductive CacheCall : Type :=
| CacheGet (now : Z) (key : string)
| CacheSet (now : Z) (key : string) (v : PyValue) (ttl : Z)
| CacheDelete (key : string)
| CacheClear.

Definition cache_step (call : CacheCall) (c : InMemoryCache.t) : InMemoryCache.t :=
  match call with
  | CacheGet now key => (InMemoryCache.get now key c).1
  | CacheSet now key v ttl => InMemoryCache.set now key v ttl c
  | CacheDelete key => InMemoryCache.delete key c
  | CacheClear => InMemoryCache.clear c
  end.

Definition cache_run (calls : list CacheCall) (c : InMemoryCache.t)
  : InMemoryCache.t :=
  foldl (λ c call, cache_step call c) c calls.

(** * Predicates, invariants and concrete runs

    The definitions the statements below are written with. *)

(** ** The locked blocks of [TaskQueue._execute_task] *)

(** The record after each of the three transitions. *)
Definition started (now : Z) (task : Task.t) : Task.t :=
  Task.set_updated_at now (Task.set_status PROCESSING task).

Definition completed (now : Z) (v : PyValue) (task : Task.t) : Task.t :=
  Task.set_updated_at now (Task.set_result v (Task.set_status COMPLETED task)).

Definition failed (now : Z) (msg : string) (task : Task.t) : Task.t :=
  Task.set_updated_at now (Task.set_error msg (Task.set_status FAILED task)).

Definition put (task_id : string) (task : Task.t) (q : TaskQueue.t) : TaskQueue.t :=
  TaskQueue.set_tasks (<[task_id := task]> (TaskQueue._tasks q)) q.

Definition logged (msg : string) (q : TaskQueue.t) : TaskQueue.t :=
  TaskQueue.mk (TaskQueue._tasks q) (TaskQueue._executor q)
    (TaskQueue.log q ++ [msg]).

Ltac unfold_py :=
  unfold TaskQueue._execute_task, TaskQueue._execute_task_start,
    TaskQueue._execute_task_finish, try_except, bind, call, ret, raise,
    TaskQueue.logger, modify, TaskQueue.setattr_task.

(** No keyword of the call is named [self], [task_id] or [func]: the
    arguments bind in [submit] and in the pool's call of [_execute_task]. *)
Definition binds (kwargs : list (string * PyValue)) : Prop :=
  ∀ k, k ∈ kwargs.*1 → k ∉ TaskQueue._execute_task_params.

(** ** Steps of the in-memory queue as a relation *)

(** A record older than [max_age] at the reading [current_time]. *)
Definition expired (max_age current_time : Z) (task : Task.t) : Prop :=
  max_age < current_time - Task.created_at task.

#[global] Instance expired_dec max_age current_time task :
  Decision (expired max_age current_time task).
Proof. unfold expired. apply _. Defined.

(** What the sweep leaves of a lookup. *)
Definition swept (max_age current_time : Z) (o : option Task.t) : option Task.t :=
  match o with
  | Some task =>
      if decide (expired max_age current_time task) then None else Some task
  | None => None
  end.

Inductive Transition (q : TaskQueue.t) : Event → TaskQueue.t → Output → Prop :=
| T_submit uuid4 now1 now2 func args kwargs q' :
    TaskQueue._tasks q'
    = <[uuid4 := Task.mk uuid4 PENDING now1 now2 PyNone None]> (TaskQueue._tasks q) →
    TaskQueue._executor q'
    = ThreadPoolExecutor.submit (mkItem uuid4 func args kwargs)
        (TaskQueue._executor q) →
    Transition q (Submit uuid4 now1 now2 func args kwargs) q' (TaskId uuid4)
| T_status task_id :
    Transition q (GetTaskStatus task_id) q
      (status_output (TaskQueue.get_task_status task_id q))
| T_cleanup max_age current_time q' :
    (∀ tid, TaskQueue._tasks q' !! tid
            = swept max_age current_time (TaskQueue._tasks q !! tid)) →
    TaskQueue._executor q' = TaskQueue._executor q →
    Transition q (CleanupOldTasks max_age current_time) q' Nothing
| T_start_idle now :
    ThreadPoolExecutor.take (TaskQueue._executor q) = None →
    Transition q (WorkerStart now) q Nothing
| T_start now w p task q' :
    ThreadPoolExecutor.take (TaskQueue._executor q) = Some (w, p) →
    TaskQueue._tasks q !! item_task_id w = Some task →
    TaskQueue._tasks q'
    = <[item_task_id w := started now task]> (TaskQueue._tasks q) →
    TaskQueue._executor q' = ThreadPoolExecutor.run w p →
    Transition q (WorkerStart now) q' Nothing
| T_start_gone now w p q' :
    ThreadPoolExecutor.take (TaskQueue._executor q) = Some (w, p) →
    TaskQueue._tasks q !! item_task_id w = None →
    TaskQueue._tasks q' = TaskQueue._tasks q →
    TaskQueue._executor q' = p →
    Transition q (WorkerStart now) q'
      (Escaped (TaskQueue.key_error (item_task_id w)))
| T_finish_idle k now :
    ThreadPoolExecutor.running (TaskQueue._executor q) !! k = None →
    Transition q (WorkerFinish k now) q Nothing
| T_finish_completed k now w v task q' :
    ThreadPoolExecutor.running (TaskQueue._executor q) !! k = Some w →
    run_item w = Returned v →
    TaskQueue._tasks q !! item_task_id w = Some task →
    TaskQueue._tasks q'
    = <[item_task_id w := completed now v task]> (TaskQueue._tasks q) →
    TaskQueue._executor q' = ThreadPoolExecutor.leave k (TaskQueue._executor q) →
    Transition q (WorkerFinish k now) q' Nothing
| T_finish_failed k now w e task q' :
    ThreadPoolExecutor.running (TaskQueue._executor q) !! k = Some w →
    run_item w = Raised e →
    caught e = true →
    TaskQueue._tasks q !! item_task_id w = Some task →
    TaskQueue._tasks q'
    = <[item_task_id w := failed now (exc_str e) task]> (TaskQueue._tasks q) →
    TaskQueue._executor q' = ThreadPoolExecutor.leave k (TaskQueue._executor q) →
    Transition q (WorkerFinish k now) q' Nothing
| T_finish_uncaught k now w e q' :
    ThreadPoolExecutor.running (TaskQueue._executor q) !! k = Some w →
    run_item w = Raised e →
    caught e = false →
    TaskQueue._tasks q' = TaskQueue._tasks q →
    TaskQueue._executor q' = ThreadPoolExecutor.leave k (TaskQueue._executor q) →
    Transition q (WorkerFinish k now) q' (Escaped e)
| T_finish_gone k now w q' :
    ThreadPoolExecutor.running (TaskQueue._executor q) !! k = Some w →
    (∀ e, run_item w = Raised e → caught e = true) →
    TaskQueue._tasks q !! item_task_id w = None →
    TaskQueue._tasks q' = TaskQueue._tasks q →
    TaskQueue._executor q' = ThreadPoolExecutor.leave k (TaskQueue._executor q) →
    Transition q (WorkerFinish k now) q'
      (Escaped (TaskQueue.key_error (item_task_id w)))
| T_submit_unbound uuid4 now1 now2 func args kwargs e :
    bind_kwargs "TaskQueue.submit" TaskQueue.submit_params kwargs = Raise e →
    Transition q (Submit uuid4 now1 now2 func args kwargs) q (Escaped e)
| T_start_unbound now w p e q' :
    ThreadPoolExecutor.take (TaskQueue._executor q) = Some (w, p) →
    bind_kwargs "TaskQueue._execute_task" TaskQueue._execute_task_params
      (item_kwargs w) = Raise e →
    TaskQueue._tasks q' = TaskQueue._tasks q →
    TaskQueue._executor q' = p →
    Transition q (WorkerStart now) q' (Escaped e).

(** ** Invariants of a run of the in-memory queue *)

Definition waiting (q : TaskQueue.t) : list WorkItem :=
  ThreadPoolExecutor._work_queue (TaskQueue._executor q).

Definition at_work (q : TaskQueue.t) : list WorkItem :=
  ThreadPoolExecutor.running (TaskQueue._executor q).

(** The identifier has a record or an item in the pool. *)
Definition known (tid : string) (q : TaskQueue.t) : Prop :=
  is_Some (TaskQueue._tasks q !! tid)
  ∨ tid ∈ item_task_id <$> waiting q
  ∨ tid ∈ item_task_id <$> at_work q.

(** What [result] and [error] hold in each status. *)
Definition fields_ok (task : Task.t) : Prop :=
  match Task.status task with
  | PENDING | PROCESSING => Task.result task = PyNone ∧ Task.error task = None
  | COMPLETED => Task.error task = None
  | FAILED => Task.result task = PyNone ∧ is_Some (Task.error task)
  end.

(** Every identifier has at most one item in the pool; the record of a
    waiting item is pending and the record of a running one is being
    processed, when they are still there. *)
Record consistent (q : TaskQueue.t) : Prop := mk_consistent {
  c_waiting_nodup : NoDup (item_task_id <$> waiting q);
  c_at_work_nodup : NoDup (item_task_id <$> at_work q);
  c_disjoint : ∀ tid,
    tid ∈ item_task_id <$> waiting q → tid ∉ item_task_id <$> at_work q;
  c_waiting : ∀ w task,
    w ∈ waiting q → TaskQueue._tasks q !! item_task_id w = Some task →
    Task.status task = PENDING;
  c_at_work : ∀ w task,
    w ∈ at_work q → TaskQueue._tasks q !! item_task_id w = Some task →
    Task.status task = PROCESSING;
  c_fields : ∀ tid task,
    TaskQueue._tasks q !! tid = Some task → fields_ok task ∧ Task.id task = tid
}.

(** The identifiers still to be drawn are new to the queue and distinct. *)
Definition wf (evs : list Event) (q : TaskQueue.t) : Prop :=
  consistent q
  ∧ NoDup (evs ≫= submitted)
  ∧ ∀ tid, tid ∈ evs ≫= submitted → ¬ known tid q.

(** *** How a step moves the status of a record *)

Definition follows (o o' : option TaskStatus) : Prop :=
  match o, o' with
  | Some a, Some b => a = b ∨ advances a b = true
  | Some _, None => True
  | None, o' => o' = None
  end.

(** *** The statuses seen along a run *)

(** The two full lifecycles. *)
Definition lifecycle (l : list TaskStatus) : Prop :=
  l `sublist_of` [PENDING; PROCESSING; COMPLETED]
  ∨ l `sublist_of` [PENDING; PROCESSING; FAILED].

(** Each status is the one before it or one step further. *)
Fixpoint rising (l : list TaskStatus) : Prop :=
  match l with
  | a :: l' =>
      match l' with
      | b :: _ => (a = b ∨ advances a b = true) ∧ rising l'
      | [] => True
      end
  | [] => True
  end.

(** Each status is one step further than the one before it. *)
Fixpoint climbing (l : list TaskStatus) : Prop :=
  match l with
  | a :: l' =>
      match l' with
      | b :: _ => advances a b = true ∧ climbing l'
      | [] => True
      end
  | [] => True
  end.

(** ** Concrete runs *)

Definition example_queue : TaskQueue.t :=
  TaskQueue.mk ∅ (ThreadPoolExecutor.mk 4 [] [])
    ["TaskQueue initialized with 4 workers"].

Definition returns_n42 : Callable := λ _ _, Returned (PyDict [("n", PyInt 42)]).

Definition example_run : list Event :=
  [Submit "a" 1 2 returns_n42 [] []; WorkerStart 3; WorkerFinish 0 4].

(** ** What [result] and [error] hold *)

Definition exactly_one_set (task : Task.t) : Prop :=
  (result_set task ∧ ¬ error_set task) ∨ (¬ result_set task ∧ error_set task).

Definition running_run : list Event :=
  [Submit "a" 1 2 returns_n42 [] []; WorkerStart 3].

(** [error] holds a text that is not empty. *)
Definition error_nonempty (task : Task.t) : Prop :=
  ∃ msg, Task.error task = Some msg ∧ msg ≠ "".

(** [raise Exception()]: an exception without a message. *)
Definition raises_blank : Callable := λ _ _, Raised (mkExc Exception "").

Definition blank_run : list Event :=
  [Submit "a" 1 2 raises_blank [] []; WorkerStart 3; WorkerFinish 0 4].

Definition raises_boom : Callable := λ _ _, Raised (mkExc ValueError "boom").

Definition boom_run : list Event :=
  [Submit "a" 1 2 raises_boom [] []; WorkerStart 3].

(** [return None] *)
Definition returns_None : Callable := λ _ _, Returned PyNone.

Definition none_run : list Event :=
  [Submit "a" 1 2 returns_None [] []; WorkerStart 3; WorkerFinish 0 4].

(** *** The record between the assignments of a block

    [Task.to_dict] takes no lock: it sees the record after each single
    assignment of a wrapper, not only between the locked blocks. *)

(** The assignments a step of a worker makes to the record of its task,
    in the order of the source.  They are made when the record is in the
    store; otherwise the first subscript raises before anything is
    written. *)
Definition assignments (ev : Event) (q : TaskQueue.t)
  : option (string * list (Task.t → Task.t)) :=
  match ev with
  | WorkerStart now =>
      match ThreadPoolExecutor.take (TaskQueue._executor q) with
      | Some (w, _) =>
          match bind_kwargs "TaskQueue._execute_task"
                  TaskQueue._execute_task_params (item_kwargs w) with
          | Ok _ =>
              Some (item_task_id w,
                    [Task.set_status PROCESSING; Task.set_updated_at now])
          | Raise _ => None
          end
      | None => None
      end
  | WorkerFinish k now =>
      match ThreadPoolExecutor.running (TaskQueue._executor q) !! k with
      | Some w =>
          match run_item w with
          | Returned v =>
              Some (item_task_id w,
                    [Task.set_status COMPLETED; Task.set_result v;
                     Task.set_updated_at now])
          | Raised e =>
              if caught e then
                Some (item_task_id w,
                      [Task.set_status FAILED; Task.set_error (exc_str e);
                       Task.set_updated_at now])
              else None
          end
      | None => None
      end
  | _ => None
  end.

(** The assignments of a step to the record of [tid]. *)
Definition writes (tid : string) (ev : Event) (q : TaskQueue.t)
  : list (Task.t → Task.t) :=
  match assignments ev q with
  | Some (tid', ws) => if decide (tid' = tid) then ws else []
  | None => []
  end.

Definition assign (task : Task.t) (ws : list (Task.t → Task.t)) : Task.t :=
  foldl (λ t f, f t) task ws.

(** The record after each of the assignments. *)
Fixpoint after_each (ws : list (Task.t → Task.t)) (task : Task.t)
  : list Task.t :=
  match ws with
  | [] => []
  | f :: ws' => f task :: after_each ws' (f task)
  end.

(** The step takes the object out of the store: the sweep deletes it, or
    [submit] binds its identifier to a new object. *)
Definition leaves (tid : string) (ev : Event) (q : TaskQueue.t) : bool :=
  match ev with
  | Submit uuid4 _ _ _ _ kwargs =>
      bool_decide (uuid4 = tid)
      && match bind_kwargs "TaskQueue.submit" TaskQueue.submit_params kwargs with
         | Ok _ => true
         | Raise _ => false
         end
  | CleanupOldTasks _ _ =>
      match TaskQueue.get_task tid (step ev q).1 with
      | Some _ => false
      | None => true
      end
  | _ => false
  end.

(** The values that the object [get_task] returned in the state [q] takes
    from then on, one for each assignment made to it while [evs] happen.  An
    object that has left the store is not written any more. *)
Fixpoint history (tid : string) (evs : list Event) (q : TaskQueue.t)
    (task : Task.t) : list Task.t :=
  match evs with
  | [] => []
  | ev :: evs' =>
      if leaves tid ev q then []
      else (after_each (writes tid ev q) task
            ++ history tid evs' (step ev q).1 (assign task (writes tid ev q)))%list
  end.

(** The seven reads of [to_dict] see the object one after the other: each
    one after some number of assignments, never fewer than the read
    before it. *)
Definition reading (vals : list Task.t) (rd : Task.Reads) : Prop :=
  ∃ n1 n2 n3 n4 n5 n6 n7 : nat,
    (n1 ≤ n2 ∧ n2 ≤ n3 ∧ n3 ≤ n4 ∧ n4 ≤ n5 ∧ n5 ≤ n6 ∧ n6 ≤ n7)%nat
    ∧ vals !! n1 = Some (Task.at_id rd)
    ∧ vals !! n2 = Some (Task.at_status rd)
    ∧ vals !! n3 = Some (Task.at_created_at rd)
    ∧ vals !! n4 = Some (Task.at_updated_at rd)
    ∧ vals !! n5 = Some (Task.at_result rd)
    ∧ vals !! n6 = Some (Task.at_error rd)
    ∧ vals !! n7 = Some (Task.at_value rd).

(** [result] is set only in a COMPLETED record and [error] only in a
    FAILED one. *)
Definition only_when_terminal (task : Task.t) : Prop :=
  (result_set task → Task.status task = COMPLETED)
  ∧ (error_set task → Task.status task = FAILED).

(** A terminal status stays. *)
Definition keeps_terminal (x y : Task.t) : Prop :=
  terminal (Task.status x) = true → Task.status y = Task.status x.

(** A reader that polls while the worker is inside its last block. *)
Definition failing_run : list Event :=
  [Submit "a" 1 2 raises_boom [] []; WorkerStart 3; WorkerFinish 0 4].

(** ** The wrapper and a record that has gone *)

(** A worker that finds the record swept under it. *)
Definition swept_run : list Event :=
  [Submit "a" 1 2 returns_n42 [] []; WorkerStart 3; CleanupOldTasks 0 4;
   WorkerFinish 0 5; GetTaskStatus "a"].

(** ** The retention sweep *)

Definition same_reading_run : list Event :=
  [Submit "a" 5 5 returns_n42 [] []].

(** ** Timestamps *)



(** ** The queue on the external store *)

Definition connected_queue : RedisTaskQueue.t :=
  RedisTaskQueue.Connected ∅ (ThreadPoolExecutor.mk 4 [] [])
    ["Redis TaskQueue initialized"].

Definition returns_set : Callable := λ _ _, Returned (PyObject "set").

(** ** Lookup of an identifier without a record *)



(** ** Fallback to the in-memory queue *)




Definition unreachable : PyExc :=
  mkExc ConnectionError "Error 111 connecting to localhost:6379. Connection refused.".

Definition fallback_queue : RedisTaskQueue.t :=
  RedisTaskQueue.Fallback example_queue
    ["Redis unavailable: "
     +:+ "Error 111 connecting to localhost:6379. Connection refused."].

Definition polling_run : list Event :=
  [Submit "a" 1 2 returns_n42 [] []; GetTaskStatus "a"; WorkerStart 3;
   WorkerFinish 0 4; GetTaskStatus "a"; GetTaskStatus "b"].

(** ** More on the in-memory queue *)

(** The pool holds no item for the identifier. *)
Definition no_item (tid : string) (q : TaskQueue.t) : Prop :=
  (tid ∉ item_task_id <$> waiting q) ∧ (tid ∉ item_task_id <$> at_work q).

(** A task completes; then another one is submitted, runs and fails, and
    a sweep and a lookup follow. *)
Definition settled_run : list Event :=
  [Submit "a" 1 2 returns_n42 [] []; WorkerStart 3; WorkerFinish 0 4;
   Submit "b" 5 6 raises_boom [] []; WorkerStart 7; WorkerFinish 0 8;
   CleanupOldTasks 100 9; GetTaskStatus "a"].

(** [raise SystemExit()] *)
Definition raises_exit : Callable := λ _ _, Raised (mkExc SystemExit "").

Definition exit_run : list Event :=
  [Submit "a" 1 2 raises_exit [] []; WorkerStart 3; WorkerFinish 0 4;
   WorkerStart 5; GetTaskStatus "a"].

(** ** More on the queue on the external store *)

Ltac unfold_redis :=
  unfold RedisTaskQueue._execute_task_finish, RedisTaskQueue._execute_task_start,
    try_except, bind, call, RedisTaskQueue.lift, ret, raise,
    RedisTaskQueue._redis_hset.

(** The JSON text of the dict with the one key [n] bound to 42. *)
Definition n42_text : string :=
  "{" +:+ String json.dquote ("n" +:+ String json.dquote ": 42}").

(** The value [get_task_status] gives for one field of a hash. *)
Definition decode_field (k v : string) : Result PyValue :=
  if bool_decide (redis.decode k = "result") && negb (bool_decide (v = ""))
  then json.loads v
  else Ok (PyStr (redis.decode v)).

(** ** The Redis cache *)

Ltac raise_cases :=
  repeat (first
    [ progress simplify_eq
    | match goal with
      | |- Raise _ = Raise _ → _ => intros [= <-]; try done
      | |- Ok _ = Raise _ → _ => by intros ?
      | |- context [match ?x with _ => _ end] => destruct x eqn:?
      end ]).

(** ** Draining the pool *)

(** The keywords of the item bind, and its callable returns, or raises
    what [except Exception] catches. *)
Definition well_behaved (w : WorkItem) : Prop :=
  binds (item_kwargs w)
  ∧ match run_item w with
    | Returned _ => True
    | Raised e => caught e = true
    end.

Definition submits_well_behaved (ev : Event) : Prop :=
  match ev with
  | Submit uuid4 _ _ func args kwargs =>
      well_behaved (mkItem uuid4 func args kwargs)
  | _ => True
  end.

(** [n] rounds in which a free worker takes the next job and the worker
    that has been running longest finishes. *)
Definition drain (n : nat) (now : Z) : list Event :=
  mjoin (replicate n [WorkerStart now; WorkerFinish 0 now]).

(** The number of jobs in the pool. *)
Definition jobs (q : TaskQueue.t) : nat :=
  (length (waiting q) + length (at_work q))%nat.

(** Every item is well behaved, every PENDING record has a waiting item
    and every PROCESSING record a running one. *)
Definition live (q : TaskQueue.t) : Prop :=
  (∀ w, w ∈ waiting q ∨ w ∈ at_work q → well_behaved w)
  ∧ (∀ tid task, TaskQueue._tasks q !! tid = Some task →
       Task.status task = PENDING → tid ∈ item_task_id <$> waiting q)
  ∧ (∀ tid task, TaskQueue._tasks q !! tid = Some task →
       Task.status task = PROCESSING → tid ∈ item_task_id <$> at_work q).

Definition three_tasks : list Event :=
  [Submit "a" 1 2 returns_n42 [] []; Submit "b" 3 4 raises_boom [] [];
   Submit "c" 5 6 returns_None [] []; WorkerStart 7].

(** * Properties *)

(** ** The locked blocks of [TaskQueue._execute_task] *)

Lemma start_present (now : Z) (task_id : string) (q : TaskQueue.t) (task : Task.t) :
  TaskQueue._tasks q !! task_id = Some task →
  TaskQueue._execute_task_start now task_id q
  = (put task_id (started now task) q, Ok ()).
Proof.
  intros Hq. unfold_py. rewrite Hq. cbn.
  rewrite lookup_insert_eq. unfold put, TaskQueue.set_tasks. cbn.
  by rewrite insert_insert_eq.
Qed.

Lemma start_absent (now : Z) (task_id : string) (q : TaskQueue.t) :
  TaskQueue._tasks q !! task_id = None →
  TaskQueue._execute_task_start now task_id q
  = (q, Raise (TaskQueue.key_error task_id)).
Proof. intros Hq. unfold_py. by rewrite Hq. Qed.

Lemma finish_returned_present (now : Z) (task_id : string) (v : PyValue)
    (q : TaskQueue.t) (task : Task.t) :
  TaskQueue._tasks q !! task_id = Some task →
  TaskQueue._execute_task_finish now task_id (Returned v) q
  = (logged ("Task completed: " +:+ task_id)
       (put task_id (completed now v task) q), Ok ()).
Proof.
  intros Hq. unfold_py. rewrite Hq. cbn.
  rewrite lookup_insert_eq. cbn. rewrite lookup_insert_eq. cbn.
  unfold logged, put, TaskQueue.set_tasks. cbn.
  by rewrite !insert_insert_eq.
Qed.

Lemma finish_raised_present (now : Z) (task_id : string) (e : PyExc)
    (q : TaskQueue.t) (task : Task.t) :
  caught e = true →
  TaskQueue._tasks q !! task_id = Some task →
  TaskQueue._execute_task_finish now task_id (Raised e) q
  = (logged ("Task failed: " +:+ task_id +:+ " - " +:+ exc_str e)
       (put task_id (failed now (exc_str e) task) q), Ok ()).
Proof.
  intros He Hq. unfold_py. rewrite He, Hq. cbn.
  rewrite lookup_insert_eq. cbn. rewrite lookup_insert_eq. cbn.
  unfold logged, put, TaskQueue.set_tasks. cbn.
  by rewrite !insert_insert_eq.
Qed.

Lemma finish_uncaught (now : Z) (task_id : string) (e : PyExc) (q : TaskQueue.t) :
  caught e = false →
  TaskQueue._execute_task_finish now task_id (Raised e) q = (q, Raise e).
Proof. intros He. unfold_py. by rewrite He. Qed.

(** With the record gone, the subscript raises in the [try] block (when
    the callable returned) and again in the handler. *)
Lemma finish_absent (now : Z) (task_id : string) (o : Outcome) (q : TaskQueue.t) :
  TaskQueue._tasks q !! task_id = None →
  (∀ e, o = Raised e → caught e = true) →
  TaskQueue._execute_task_finish now task_id o q
  = (q, Raise (TaskQueue.key_error task_id)).
Proof.
  intros Hq Ho. unfold_py. destruct o as [v|e]; cbn.
  - rewrite Hq. cbn. by rewrite Hq.
  - by rewrite (Ho e eq_refl), Hq.
Qed.

(** *** The sweep *)

Lemma to_remove_spec (max_age current_time : Z) (q : TaskQueue.t) (tid : string) :
  tid ∈ TaskQueue.to_remove max_age current_time q
  ↔ ∃ task, TaskQueue._tasks q !! tid = Some task
            ∧ expired max_age current_time task.
Proof.
  unfold TaskQueue.to_remove. rewrite list_elem_of_fmap. split.
  - intros [[k task] [-> Hin]]. apply list_elem_of_filter in Hin as [Hexp Hin].
    apply elem_of_map_to_list in Hin. by exists task.
  - intros (task & Hq & Hexp). exists (tid, task). split; [done|].
    apply list_elem_of_filter. split; [done|]. by apply elem_of_map_to_list.
Qed.

Lemma to_remove_NoDup (max_age current_time : Z) (q : TaskQueue.t) :
  NoDup (TaskQueue.to_remove max_age current_time q).
Proof.
  unfold TaskQueue.to_remove.
  eapply sublist_NoDup; [apply (NoDup_fst_map_to_list (TaskQueue._tasks q))|].
  apply fmap_sublist, sublist_filter.
Qed.

(** Deleting distinct keys that are all present never raises. *)
Lemma delete_all_present (tids : list string) (q : TaskQueue.t) :
  NoDup tids →
  (∀ tid, tid ∈ tids → is_Some (TaskQueue._tasks q !! tid)) →
  ∃ q', TaskQueue.delete_all tids q = (q', Ok ())
        ∧ TaskQueue._executor q' = TaskQueue._executor q
        ∧ TaskQueue.log q' = TaskQueue.log q
        ∧ ∀ tid, TaskQueue._tasks q' !! tid
                 = if decide (tid ∈ tids) then None else TaskQueue._tasks q !! tid.
Proof.
  revert q. induction tids as [|t tids IH]; intros q Hnd Hin.
  - exists q. split_and!; [done..|].
    intros tid. by rewrite decide_False by set_solver.
  - apply NoDup_cons in Hnd as [Ht Hnd].
    destruct (Hin t) as [task Htask]; [set_solver|].
    cbn. unfold bind, TaskQueue.delitem_task. rewrite Htask.
    destruct (IH (TaskQueue.set_tasks (delete t (TaskQueue._tasks q)) q) Hnd)
      as (q' & Hrun & Hex & Hlog & Hlook).
    { intros tid Htid. cbn. rewrite lookup_delete_ne by set_solver.
      apply Hin. set_solver. }
    exists q'. rewrite Hrun. split_and!; [done..|].
    intros tid. rewrite Hlook. cbn.
    destruct (decide (tid = t)) as [->|Hne].
    + rewrite decide_False by done. rewrite decide_True by set_solver.
      apply lookup_delete_eq.
    + rewrite lookup_delete_ne by done.
      destruct (decide (tid ∈ tids)).
      * by rewrite decide_True by set_solver.
      * by rewrite decide_False by set_solver.
Qed.

Lemma cleanup_old_tasks_spec (max_age current_time : Z) (q : TaskQueue.t) :
  ∃ q', TaskQueue.cleanup_old_tasks max_age current_time q = (q', Ok ())
        ∧ TaskQueue._executor q' = TaskQueue._executor q
        ∧ TaskQueue.log q'
          = (TaskQueue.log q
             ++ ["Cleaned up "
                 +:+ pretty (length (TaskQueue.to_remove max_age current_time q))
                 +:+ " old tasks"])%list
        ∧ ∀ tid, TaskQueue._tasks q' !! tid
                 = swept max_age current_time (TaskQueue._tasks q !! tid).
Proof.
  destruct (delete_all_present (TaskQueue.to_remove max_age current_time q) q)
    as (q1 & Hrun & Hex & Hlog & Hlook).
  { apply to_remove_NoDup. }
  { intros tid Htid. apply to_remove_spec in Htid as (task & -> & _). by eexists. }
  exists (logged ("Cleaned up "
                  +:+ pretty (length (TaskQueue.to_remove max_age current_time q))
                  +:+ " old tasks") q1).
  unfold TaskQueue.cleanup_old_tasks, bind. rewrite Hrun. cbn.
  rewrite Hlog. split_and!; [reflexivity|done..|].
  intros tid. rewrite Hlook. unfold swept.
  destruct (TaskQueue._tasks q !! tid) as [task|] eqn:Htask.
  - destruct (decide (expired max_age current_time task)) as [Hexp|Hexp].
    + rewrite decide_True; [done|]. apply to_remove_spec. by exists task.
    + rewrite decide_False; [done|]. intros Hin.
      apply to_remove_spec in Hin as (task' & Htask' & Hexp'). congruence.
  - by destruct (decide _).
Qed.

(** A call binds when no keyword names a parameter filled by position. *)
Lemma bind_kwargs_Ok {A : Type} (qualname : string) (params : list string)
    (kwargs : list (string * A)) :
  bind_kwargs qualname params kwargs = Ok ()
  ↔ ∀ k, k ∈ kwargs.*1 → k ∉ params.
Proof.
  unfold bind_kwargs.
  destruct (filter _ _) as [|k l] eqn:Hf; split; try done.
  - intros _ k Hk Hin.
    assert (Hk' : k ∈ filter (λ k, k ∈ params) kwargs.*1)
      by by apply list_elem_of_filter.
    rewrite Hf in Hk'. by apply elem_of_nil in Hk'.
  - intros Hno. exfalso.
    assert (Hk : k ∈ filter (λ k, k ∈ params) kwargs.*1)
      by (rewrite Hf; left).
    apply list_elem_of_filter in Hk as [Hin Hk]. by apply (Hno k).
Qed.

Lemma bind_kwargs_Raise {A : Type} (qualname : string) (params : list string)
    (kwargs : list (string * A)) (e : PyExc) :
  bind_kwargs qualname params kwargs = Raise e →
  exc_class e = TypeError
  ∧ ∃ k, k ∈ kwargs.*1 ∧ k ∈ params ∧ e = multiple_values qualname k.
Proof.
  unfold bind_kwargs.
  destruct (filter _ _) as [|k l] eqn:Hf; [done|]. intros [= <-].
  split; [done|]. exists k.
  assert (Hk : k ∈ filter (λ k, k ∈ params) kwargs.*1) by (rewrite Hf; left).
  apply list_elem_of_filter in Hk as [Hin Hk]. done.
Qed.

(** Whether a call binds does not depend on the name of the method. *)
Lemma bind_kwargs_name {A : Type} (name name' : string) (params : list string)
    (kwargs : list (string * A)) :
  bind_kwargs name params kwargs = Ok ()
  ↔ bind_kwargs name' params kwargs = Ok ().
Proof. by rewrite !bind_kwargs_Ok. Qed.

Lemma bind_kwargs_nil {A : Type} (qualname : string) (params : list string) :
  bind_kwargs (A := A) qualname params [] = Ok ().
Proof. reflexivity. Qed.

Lemma bind_kwargs_cases {A : Type} (qualname : string) (params : list string)
    (kwargs : list (string * A)) :
  bind_kwargs qualname params kwargs = Ok ()
  ∨ ∃ e, bind_kwargs qualname params kwargs = Raise e.
Proof. destruct (bind_kwargs _ _ _) as [[]|e]; eauto. Qed.

(** [submit] on arguments that bind. *)
Lemma submit_bound (uuid4 : string) (now1 now2 : Z) (func : Callable)
    (args : list PyValue) (kwargs : list (string * PyValue)) (q : TaskQueue.t) :
  bind_kwargs "TaskQueue.submit" TaskQueue.submit_params kwargs = Ok () →
  TaskQueue.submit uuid4 now1 now2 func args kwargs q
  = (logged ("Task submitted: " +:+ uuid4)
       (TaskQueue.set_executor
          (ThreadPoolExecutor.submit (mkItem uuid4 func args kwargs)
             (TaskQueue._executor q))
          (put uuid4 (Task.mk uuid4 PENDING now1 now2 PyNone None) q)),
     Ok uuid4).
Proof. intros Hb. unfold TaskQueue.submit. by rewrite Hb. Qed.

Lemma submit_unbound (uuid4 : string) (now1 now2 : Z) (func : Callable)
    (args : list PyValue) (kwargs : list (string * PyValue)) (q : TaskQueue.t)
    (e : PyExc) :
  bind_kwargs "TaskQueue.submit" TaskQueue.submit_params kwargs = Raise e →
  TaskQueue.submit uuid4 now1 now2 func args kwargs q = (q, Raise e).
Proof. intros Hb. unfold TaskQueue.submit. by rewrite Hb. Qed.

(** The two cases of the status lookup. *)
Lemma get_task_status_None (tid : string) (q : TaskQueue.t) :
  TaskQueue.get_task tid q = None → TaskQueue.get_task_status tid q = Ok None.
Proof.
  intros H. unfold TaskQueue.get_task_status, TaskQueue.get_task_status_during.
  by rewrite H.
Qed.

Lemma get_task_status_Some (tid : string) (q : TaskQueue.t) (task : Task.t) :
  TaskQueue.get_task tid q = Some task →
  TaskQueue.get_task_status tid q = Some <$> Task.to_dict task.
Proof.
  intros H. unfold TaskQueue.get_task_status, TaskQueue.get_task_status_during.
  by rewrite H.
Qed.

Lemma binds_execute (qualname : string) (kwargs : list (string * PyValue)) :
  binds kwargs →
  bind_kwargs qualname TaskQueue._execute_task_params kwargs = Ok ().
Proof. intros Hb. by apply bind_kwargs_Ok. Qed.

Lemma binds_submit (qualname : string) (kwargs : list (string * PyValue)) :
  binds kwargs → bind_kwargs qualname TaskQueue.submit_params kwargs = Ok ().
Proof.
  intros Hb. apply bind_kwargs_Ok. intros k Hk Hin. apply (Hb k Hk).
  unfold TaskQueue.submit_params, TaskQueue._execute_task_params in *.
  set_solver.
Qed.

Lemma binds_nil : binds [].
Proof. intros k Hk. by apply elem_of_nil in Hk. Qed.

(** The call of the wrapper by the pool. *)
Lemma execute_bound {A : Type} (kwargs : list (string * PyValue))
    (m : Py TaskQueue.t A) (q : TaskQueue.t) :
  bind_kwargs "TaskQueue._execute_task" TaskQueue._execute_task_params kwargs
  = Ok () →
  (TaskQueue._execute_task_bind kwargs ;; m)%py q = m q.
Proof.
  intros Hb. unfold bind, TaskQueue._execute_task_bind, TaskQueue.lift.
  by rewrite Hb.
Qed.

Lemma execute_unbound {A : Type} (kwargs : list (string * PyValue))
    (m : Py TaskQueue.t A) (q : TaskQueue.t) (e : PyExc) :
  bind_kwargs "TaskQueue._execute_task" TaskQueue._execute_task_params kwargs
  = Raise e →
  (TaskQueue._execute_task_bind kwargs ;; m)%py q = (q, Raise e).
Proof.
  intros Hb. unfold bind, TaskQueue._execute_task_bind, TaskQueue.lift.
  by rewrite Hb.
Qed.

(** Every step of the queue is one of the transitions. *)
Lemma step_sound (ev : Event) (q : TaskQueue.t) :
  Transition q ev (step ev q).1 (step ev q).2.
Proof.
  destruct ev as [uuid4 now1 now2 func args kwargs|task_id|max_age now|now|k now];
    unfold step, TaskQueue_step.
  - destruct (bind_kwargs "TaskQueue.submit" TaskQueue.submit_params kwargs)
      as [[]|e] eqn:Hb.
    + rewrite submit_bound by done. by constructor.
    + rewrite (submit_unbound _ _ _ _ _ _ _ e) by done. by constructor.
  - constructor.
  - destruct (cleanup_old_tasks_spec max_age now q) as (q' & -> & Hex & _ & Hlook).
    by constructor.
  - unfold TaskQueue.worker_start.
    destruct (ThreadPoolExecutor.take _) as [[w p]|] eqn:Htake; [|by constructor].
    destruct (bind_kwargs "TaskQueue._execute_task"
                TaskQueue._execute_task_params (item_kwargs w))
      as [[]|e] eqn:Hb.
    2:{ rewrite (execute_unbound _ _ _ e) by done. by eapply T_start_unbound. }
    rewrite execute_bound by done.
    destruct (TaskQueue._tasks q !! item_task_id w) as [task|] eqn:Htask.
    + rewrite (start_present now _ (TaskQueue.set_executor p q) task) by done.
      by eapply T_start.
    + rewrite (start_absent now _ (TaskQueue.set_executor p q)) by done.
      by eapply T_start_gone.
  - unfold TaskQueue.worker_finish.
    destruct (ThreadPoolExecutor.running _ !! k) as [w|] eqn:Hw; [|by constructor].
    set (q1 := TaskQueue.set_executor _ q).
    destruct (run_item w) as [v|e] eqn:Hrun;
      [|destruct (caught e) eqn:He];
      destruct (TaskQueue._tasks q !! item_task_id w) as [task|] eqn:Htask.
    + rewrite (finish_returned_present now _ v q1 task) by done.
      by eapply T_finish_completed.
    + rewrite (finish_absent now _ _ q1) by done.
      eapply T_finish_gone; [done| |done..]. by rewrite Hrun.
    + rewrite (finish_raised_present now _ e q1 task) by done.
      by eapply T_finish_failed.
    + rewrite (finish_absent now _ _ q1); [|done|by intros ? [= <-]].
      eapply T_finish_gone; [done| |done..]. rewrite Hrun. by intros ? [= <-].
    + rewrite (finish_uncaught now _ e q1) by done. by eapply T_finish_uncaught.
    + rewrite (finish_uncaught now _ e q1) by done. by eapply T_finish_uncaught.
Qed.

(** ** Invariants of a run of the in-memory queue *)

Lemma take_Some (p p' : ThreadPoolExecutor.t) (w : WorkItem) :
  ThreadPoolExecutor.take p = Some (w, p') →
  ThreadPoolExecutor._work_queue p = w :: ThreadPoolExecutor._work_queue p'
  ∧ ThreadPoolExecutor.running p' = ThreadPoolExecutor.running p.
Proof.
  unfold ThreadPoolExecutor.take. destruct (ThreadPoolExecutor._work_queue p); [done|].
  case_match; [|done]. by intros [= -> <-].
Qed.

Lemma delete_other_key {A B : Type} (f : A → B) (l : list A) (k : nat) (x y : A) :
  NoDup (f <$> l) → l !! k = Some x → y ∈ delete k l → f y ≠ f x.
Proof.
  revert k. induction l as [|a l IH]; intros k Hnd Hk Hy; [done|].
  rewrite fmap_cons in Hnd. apply NoDup_cons in Hnd as [Ha Hnd].
  destruct k as [|k]; cbn in *.
  - injection Hk as ->. intros Heq. apply Ha. rewrite <- Heq.
    by apply list_elem_of_fmap_2.
  - apply elem_of_cons in Hy as [->|Hy].
    + intros Heq. apply Ha. rewrite Heq.
      apply list_elem_of_fmap_2. by eapply list_elem_of_lookup_2.
    + by eapply IH.
Qed.

Lemma fmap_delete_NoDup {A B : Type} (f : A → B) (l : list A) (k : nat) :
  NoDup (f <$> l) → NoDup (f <$> delete k l).
Proof.
  intros Hnd. eapply sublist_NoDup; [done|]. apply fmap_sublist, sublist_delete.
Qed.

Lemma swept_Some (max_age now : Z) (o : option Task.t) (task : Task.t) :
  swept max_age now o = Some task → o = Some task.
Proof. destruct o; cbn; [|done]. by case_decide. Qed.

(** A step makes no identifier known except the one it was given. *)
Lemma transition_known (q q' : TaskQueue.t) (ev : Event) (out : Output)
    (tid : string) :
  Transition q ev q' out → known tid q' → known tid q ∨ tid ∈ submitted ev.
Proof.
  unfold known, waiting, at_work.
  destruct 1 as [uuid4 now1 now2 func args kwargs q' Ht Hp|task_id
    |max_age now q' Ht Hp|now Htake|now w p task q' Htake Htask Ht Hp
    |now w p q' Htake Htask Ht Hp|k now Hk|k now w v task q' Hk Hrun Htask Ht Hp
    |k now w e task q' Hk Hrun He Htask Ht Hp|k now w e q' Hk Hrun He Ht Hp
    |k now w q' Hk Hrun Htask Ht Hp
    |uuid4 now1 now2 func args kwargs e Hbind|now w p e q' Htake Hbind Ht Hp]; try tauto;
    try (apply take_Some in Htake as [Hwq Hr]); rewrite ?Ht, ?Hp; cbn.
  - destruct (decide (tid = uuid4)) as [->|Hne]; [set_solver|].
    rewrite lookup_insert_ne by done. rewrite fmap_app. set_solver.
  - intros [[task Hs]|H]; [|tauto].
    left. left. apply swept_Some in Hs. by eexists.
  - rewrite Hwq, Hr, fmap_app.
    destruct (decide (tid = item_task_id w)) as [->|Hne]; [set_solver|].
    rewrite lookup_insert_ne by done. set_solver.
  - rewrite Hwq, Hr. set_solver.
  - destruct (decide (tid = item_task_id w)) as [->|Hne].
    + intros _. left. left. by eexists.
    + rewrite lookup_insert_ne by done.
      intros [H|[H|H]]; try tauto. left. right. right.
      apply list_elem_of_fmap in H as (y & -> & Hy).
      apply list_elem_of_fmap_2. by eapply list_elem_of_delete_inv.
  - destruct (decide (tid = item_task_id w)) as [->|Hne].
    + intros _. left. left. by eexists.
    + rewrite lookup_insert_ne by done.
      intros [H|[H|H]]; try tauto. left. right. right.
      apply list_elem_of_fmap in H as (y & -> & Hy).
      apply list_elem_of_fmap_2. by eapply list_elem_of_delete_inv.
  - intros [H|[H|H]]; try tauto. left. right. right.
    apply list_elem_of_fmap in H as (y & -> & Hy).
    apply list_elem_of_fmap_2. by eapply list_elem_of_delete_inv.
  - intros [H|[H|H]]; try tauto. left. right. right.
    apply list_elem_of_fmap in H as (y & -> & Hy).
    apply list_elem_of_fmap_2. by eapply list_elem_of_delete_inv.
  - rewrite Hwq, Hr. set_solver.
Qed.

Lemma fmap_delete_elem_of {A B : Type} (f : A → B) (l : list A) (k : nat) (y : B) :
  y ∈ f <$> delete k l → y ∈ f <$> l.
Proof.
  intros H. apply list_elem_of_fmap in H as (x & -> & Hx).
  apply list_elem_of_fmap_2. by eapply list_elem_of_delete_inv.
Qed.

Lemma fields_ok_started (now : Z) (task : Task.t) :
  Task.status task = PENDING → fields_ok task → fields_ok (started now task).
Proof. unfold fields_ok. by intros ->. Qed.

Lemma fields_ok_completed (now : Z) (v : PyValue) (task : Task.t) :
  Task.status task = PROCESSING → fields_ok task → fields_ok (completed now v task).
Proof. unfold fields_ok. intros ->. cbn. tauto. Qed.

Lemma fields_ok_failed (now : Z) (msg : string) (task : Task.t) :
  Task.status task = PROCESSING → fields_ok task → fields_ok (failed now msg task).
Proof. unfold fields_ok. intros ->. cbn. intros [-> _]. by split. Qed.

(** A step on a consistent queue, given a new identifier if it draws one,
    leaves a consistent queue. *)
Lemma transition_consistent (q q' : TaskQueue.t) (ev : Event) (out : Output) :
  Transition q ev q' out →
  consistent q →
  (∀ tid, tid ∈ submitted ev → ¬ known tid q) →
  consistent q'.
Proof.
  intros Htr [Hwn Han Hdj Hw Ha Hf] Hfresh.
  destruct Htr as [uuid4 now1 now2 func args kwargs q' Ht Hp|task_id
    |max_age now q' Ht Hp|now Htake|now w p task q' Htake Htask Ht Hp
    |now w p q' Htake Htask Ht Hp|k now Hk|k now w v task q' Hk Hrun Htask Ht Hp
    |k now w e task q' Hk Hrun He Htask Ht Hp|k now w e q' Hk Hrun He Ht Hp
    |k now w q' Hk Hrun Htask Ht Hp
    |uuid4 now1 now2 func args kwargs e Hbind|now w p e q' Htake Hbind Ht Hp]; try (by split);
    try (apply take_Some in Htake as [Hwq Hr]);
    unfold waiting, at_work in *.
  - (* submit *)
    assert (Hun : ¬ known uuid4 q) by (apply Hfresh; set_solver).
    unfold known, waiting, at_work in Hun.
    split; unfold waiting, at_work; rewrite ?Ht, ?Hp; cbn.
    + rewrite fmap_app. apply NoDup_app. split_and!; [done| |apply NoDup_singleton].
      intros x Hx. cbn. set_solver.
    + done.
    + intros tid. rewrite fmap_app, elem_of_app. intros [H|H]; [by apply Hdj|].
      cbn in H. apply list_elem_of_singleton in H as ->. tauto.
    + intros w task Hin. apply elem_of_app in Hin as [Hin|Hin].
      * rewrite lookup_insert_ne; [by apply Hw|].
        intros Heq. apply Hun. right. left. rewrite Heq.
        by apply list_elem_of_fmap_2.
      * apply list_elem_of_singleton in Hin as ->. cbn.
        rewrite lookup_insert_eq. by intros [= <-].
    + intros w task Hin. rewrite lookup_insert_ne; [by apply Ha|].
      intros Heq. apply Hun. right. right. rewrite Heq.
      by apply list_elem_of_fmap_2.
    + intros tid task. destruct (decide (tid = uuid4)) as [->|Hne].
      * rewrite lookup_insert_eq. by intros [= <-].
      * rewrite lookup_insert_ne by done. apply Hf.
  - (* sweep *)
    split; unfold waiting, at_work; rewrite ?Hp; try done.
    + intros w task Hin Hs. rewrite Ht in Hs. apply swept_Some in Hs. eauto.
    + intros w task Hin Hs. rewrite Ht in Hs. apply swept_Some in Hs. eauto.
    + intros tid task Hs. rewrite Ht in Hs. apply swept_Some in Hs. eauto.
  - (* a worker starts *)
    rewrite Hwq in *. rewrite fmap_cons in *.
    apply NoDup_cons in Hwn as [Hw1 Hwn].
    split; unfold waiting, at_work; rewrite ?Ht, ?Hp; cbn; rewrite ?Hr.
    + done.
    + rewrite fmap_app. apply NoDup_app. split_and!; [done| |apply NoDup_singleton].
      intros x Hx. cbn. intros H. apply list_elem_of_singleton in H as ->.
      by apply (Hdj (item_task_id w)); [left|].
    + intros tid Hin. rewrite fmap_app, elem_of_app. cbn.
      intros [H|H]; [by apply (Hdj tid); [right|]|].
      apply list_elem_of_singleton in H as ->. by apply Hw1.
    + intros w' task' Hin. rewrite lookup_insert_ne.
      * apply Hw. by right.
      * intros Heq. apply Hw1. rewrite Heq. by apply list_elem_of_fmap_2.
    + intros w' task' Hin. apply elem_of_app in Hin as [Hin|Hin].
      * rewrite lookup_insert_ne; [by apply Ha|].
        intros Heq. apply (Hdj (item_task_id w)); [by left|].
        rewrite Heq. by apply list_elem_of_fmap_2.
      * apply list_elem_of_singleton in Hin as ->.
        rewrite lookup_insert_eq. by intros [= <-].
    + intros tid task'. destruct (decide (tid = item_task_id w)) as [->|Hne].
      * rewrite lookup_insert_eq. intros [= <-].
        destruct (Hf _ _ Htask) as [Hok Hid]. split; [|done].
        apply fields_ok_started; [|done]. eapply Hw; [by left|done].
      * rewrite lookup_insert_ne by done. apply Hf.
  - (* a worker starts on a record that has gone *)
    rewrite Hwq in *. rewrite fmap_cons in *.
    apply NoDup_cons in Hwn as [Hw1 Hwn].
    split; unfold waiting, at_work; rewrite ?Ht, ?Hp, ?Hr; try done.
    + intros tid Hin. apply Hdj. by right.
    + intros w' task' Hin. apply Hw. by right.
  - (* the callable returned *)
    assert (Hin : w ∈ ThreadPoolExecutor.running (TaskQueue._executor q))
      by (by eapply list_elem_of_lookup_2).
    split; unfold waiting, at_work; rewrite ?Ht, ?Hp; cbn.
    + done.
    + by apply fmap_delete_NoDup.
    + intros tid H1 H2%fmap_delete_elem_of. by apply (Hdj tid).
    + intros w' task' Hin'. rewrite lookup_insert_ne; [by apply Hw|].
      intros Heq. apply (Hdj (item_task_id w')).
      * by apply list_elem_of_fmap_2.
      * rewrite <- Heq. by apply list_elem_of_fmap_2.
    + intros w' task' Hin'. rewrite lookup_insert_ne.
      * apply Ha. by eapply list_elem_of_delete_inv.
      * intros Heq. by eapply (delete_other_key item_task_id).
    + intros tid task'. destruct (decide (tid = item_task_id w)) as [->|Hne].
      * rewrite lookup_insert_eq. intros [= <-].
        destruct (Hf _ _ Htask) as [Hok Hid]. split; [|done].
        apply fields_ok_completed; [|done]. by eapply Ha.
      * rewrite lookup_insert_ne by done. apply Hf.
  - (* the callable raised *)
    assert (Hin : w ∈ ThreadPoolExecutor.running (TaskQueue._executor q))
      by (by eapply list_elem_of_lookup_2).
    split; unfold waiting, at_work; rewrite ?Ht, ?Hp; cbn.
    + done.
    + by apply fmap_delete_NoDup.
    + intros tid H1 H2%fmap_delete_elem_of. by apply (Hdj tid).
    + intros w' task' Hin'. rewrite lookup_insert_ne; [by apply Hw|].
      intros Heq. apply (Hdj (item_task_id w')).
      * by apply list_elem_of_fmap_2.
      * rewrite <- Heq. by apply list_elem_of_fmap_2.
    + intros w' task' Hin'. rewrite lookup_insert_ne.
      * apply Ha. by eapply list_elem_of_delete_inv.
      * intros Heq. by eapply (delete_other_key item_task_id).
    + intros tid task'. destruct (decide (tid = item_task_id w)) as [->|Hne].
      * rewrite lookup_insert_eq. intros [= <-].
        destruct (Hf _ _ Htask) as [Hok Hid]. split; [|done].
        apply fields_ok_failed; [|done]. by eapply Ha.
      * rewrite lookup_insert_ne by done. apply Hf.
  - (* the exception is not caught *)
    split; unfold waiting, at_work; rewrite ?Ht, ?Hp; cbn; try done.
    + by apply fmap_delete_NoDup.
    + intros tid H1 H2%fmap_delete_elem_of. by apply (Hdj tid).
    + intros w' task' Hin'. apply Ha. by eapply list_elem_of_delete_inv.
  - (* the record has gone *)
    split; unfold waiting, at_work; rewrite ?Ht, ?Hp; cbn; try done.
    + by apply fmap_delete_NoDup.
    + intros tid H1 H2%fmap_delete_elem_of. by apply (Hdj tid).
    + intros w' task' Hin'. apply Ha. by eapply list_elem_of_delete_inv.
  - (* the call of the wrapper does not bind *)
    rewrite Hwq in *. rewrite fmap_cons in *.
    apply NoDup_cons in Hwn as [Hw1 Hwn].
    split; unfold waiting, at_work; rewrite ?Ht, ?Hp, ?Hr; try done.
    + intros tid Hin. apply Hdj. by right.
    + intros w' task' Hin. apply Hw. by right.
Qed.

Lemma wf_step (ev : Event) (evs : list Event) (q : TaskQueue.t) :
  wf (ev :: evs) q → wf evs (step ev q).1.
Proof.
  intros (Hc & Hnd & Hfresh). rewrite bind_cons in Hnd, Hfresh.
  apply NoDup_app in Hnd as (Hnd1 & Hdisj & Hnd2).
  pose proof (step_sound ev q) as Htr. split_and!.
  - eapply transition_consistent; [done..|].
    intros tid Hin. apply Hfresh. set_solver.
  - done.
  - intros tid Hin Hk. eapply transition_known in Hk as [Hk|Hk]; [| |done].
    + eapply Hfresh; [|done]. set_solver.
    + by eapply Hdisj.
Qed.

Lemma wf_init (max_workers : Z) (q0 : TaskQueue.t) (evs : list Event) :
  TaskQueue.__init__ max_workers = Ok q0 → uuids_unique evs → wf evs q0.
Proof.
  unfold TaskQueue.__init__, ThreadPoolExecutor.__init__.
  case_decide; cbn; [done|]. intros [= <-] Hnd. split_and!; [|done|].
  - split; unfold waiting, at_work; cbn; try apply NoDup_nil_2;
      try (intros ? ? ?%elem_of_nil; done); set_solver.
  - intros tid _ [[task Hk]|[Hk|Hk]]; cbn in *; set_solver.
Qed.

(** An invariant of the steps holds in every state of a run, for the
    events that remain. *)
Lemma states_invariant (I : list Event → TaskQueue.t → Prop) :
  (∀ ev evs q, I (ev :: evs) q → I evs (step ev q).1) →
  ∀ evs q i q', I evs q → states evs q !! i = Some q' → I (drop i evs) q'.
Proof.
  intros Hstep evs. induction evs as [|ev evs IH]; intros q i q' HI Hl.
  - destruct i as [|i]; cbn in Hl; [|done]. by injection Hl as <-.
  - destruct i as [|i]; cbn in Hl.
    + by injection Hl as <-.
    + cbn. eapply IH; [|done]. by apply Hstep.
Qed.

Lemma states_wf (max_workers : Z) (q0 q : TaskQueue.t) (evs : list Event)
    (i : nat) (ev : Event) :
  TaskQueue.__init__ max_workers = Ok q0 → uuids_unique evs →
  states evs q0 !! i = Some q → evs !! i = Some ev →
  wf (ev :: drop (S i) evs) q.
Proof.
  intros Hinit Hnd Hq Hev. rewrite <- drop_S by done.
  eapply (states_invariant wf); [apply wf_step| |done]. by eapply wf_init.
Qed.

Lemma final_in_states (evs : list Event) (q : TaskQueue.t) :
  states evs q !! length evs = Some (final evs q).
Proof.
  revert q. induction evs as [|ev evs IH]; intros q; [done|].
  cbn. rewrite IH. unfold final. cbn.
  destruct (step ev q) as [q1 out]. cbn. by destruct (run evs q1).
Qed.

Lemma final_wf (max_workers : Z) (q0 : TaskQueue.t) (evs : list Event) :
  TaskQueue.__init__ max_workers = Ok q0 → uuids_unique evs →
  wf [] (final evs q0).
Proof.
  intros Hinit Hnd.
  pose proof (states_invariant wf wf_step evs q0 (length evs) (final evs q0)
                (wf_init _ _ _ Hinit Hnd) (final_in_states evs q0)) as H.
  by rewrite drop_all in H.
Qed.

(** *** How a step moves the status of a record *)

Lemma status_of_insert (tid tid' : string) (task : Task.t) (q q' : TaskQueue.t) :
  TaskQueue._tasks q' = <[tid' := task]> (TaskQueue._tasks q) →
  status_of tid q'
  = if decide (tid' = tid) then Some (Task.status task) else status_of tid q.
Proof.
  intros Ht. unfold status_of, TaskQueue.get_task. rewrite Ht.
  case_decide as H; [subst; by rewrite lookup_insert_eq|].
  by rewrite lookup_insert_ne.
Qed.

Lemma status_of_same (tid : string) (q q' : TaskQueue.t) :
  TaskQueue._tasks q' = TaskQueue._tasks q → status_of tid q' = status_of tid q.
Proof. unfold status_of, TaskQueue.get_task. by intros ->. Qed.

Lemma follows_refl (o : option TaskStatus) : follows o o.
Proof. destruct o; cbn; auto. Qed.

Lemma transition_follows (q q' : TaskQueue.t) (ev : Event) (out : Output)
    (tid : string) :
  Transition q ev q' out → consistent q → tid ∉ submitted ev →
  follows (status_of tid q) (status_of tid q').
Proof.
  intros Htr Hc Hnew.
  destruct Htr as [uuid4 now1 now2 func args kwargs q' Ht Hp|task_id
    |max_age now q' Ht Hp|now Htake|now w p task q' Htake Htask Ht Hp
    |now w p q' Htake Htask Ht Hp|k now Hk|k now w v task q' Hk Hrun Htask Ht Hp
    |k now w e task q' Hk Hrun He Htask Ht Hp|k now w e q' Hk Hrun He Ht Hp
    |k now w q' Hk Hrun Htask Ht Hp
    |uuid4 now1 now2 func args kwargs e Hbind|now w p e q' Htake Hbind Ht Hp];
    try apply follows_refl;
    try (rewrite (status_of_same tid q q') by done; apply follows_refl).
  - rewrite (status_of_insert tid _ _ q q' Ht).
    rewrite decide_False by set_solver. apply follows_refl.
  - unfold status_of, TaskQueue.get_task. rewrite Ht.
    destruct (TaskQueue._tasks q !! tid) as [task|]; cbn; [|done].
    case_decide; cbn; auto.
  - rewrite (status_of_insert tid _ _ q q' Ht).
    case_decide as Heq; [subst tid|apply follows_refl].
    unfold status_of, TaskQueue.get_task. rewrite Htask. cbn.
    apply take_Some in Htake as [Hwq _].
    rewrite (c_waiting q Hc w task); [by right| |done].
    unfold waiting. rewrite Hwq. by left.
  - rewrite (status_of_insert tid _ _ q q' Ht).
    case_decide as Heq; [subst tid|apply follows_refl].
    unfold status_of, TaskQueue.get_task. rewrite Htask. cbn.
    rewrite (c_at_work q Hc w task); [by right| |done].
    by eapply list_elem_of_lookup_2.
  - rewrite (status_of_insert tid _ _ q q' Ht).
    case_decide as Heq; [subst tid|apply follows_refl].
    unfold status_of, TaskQueue.get_task. rewrite Htask. cbn.
    rewrite (c_at_work q Hc w task); [by right| |done].
    by eapply list_elem_of_lookup_2.
Qed.

(** Only the sweep removes a record. *)
Lemma transition_keeps (q q' : TaskQueue.t) (ev : Event) (out : Output)
    (tid : string) :
  Transition q ev q' out →
  (∀ max_age now, ev ≠ CleanupOldTasks max_age now) →
  is_Some (TaskQueue._tasks q !! tid) → is_Some (TaskQueue._tasks q' !! tid).
Proof.
  intros Htr Hev Hsome.
  destruct Htr as [uuid4 now1 now2 func args kwargs q' Ht Hp|task_id
    |max_age now q' Ht Hp|now Htake|now w p task q' Htake Htask Ht Hp
    |now w p q' Htake Htask Ht Hp|k now Hk|k now w v task q' Hk Hrun Htask Ht Hp
    |k now w e task q' Hk Hrun He Htask Ht Hp|k now w e q' Hk Hrun He Ht Hp
    |k now w q' Hk Hrun Htask Ht Hp
    |uuid4 now1 now2 func args kwargs e Hbind|now w p e q' Htake Hbind Ht Hp];
    try done; try (by rewrite Ht);
    try (rewrite Ht; rewrite lookup_insert; by case_decide).
  by destruct (Hev max_age now).
Qed.

(** *** The statuses seen along a run *)

Lemma changes_rising (l : list TaskStatus) (a : TaskStatus) :
  rising (a :: l) → ∃ l', changes (a :: l) = a :: l' ∧ climbing (a :: l').
Proof.
  revert a. induction l as [|b l IH]; intros a Hr.
  - by exists [].
  - destruct Hr as [Hab Hr]. destruct (IH b Hr) as (l' & Hch & Hcl).
    change (changes (a :: b :: l))
      with (if decide (a = b) then changes (b :: l) else a :: changes (b :: l)).
    case_decide as Heq.
    + subst b. by exists l'.
    + exists (b :: l'). rewrite Hch. split; [done|].
      split; [|done]. by destruct Hab.
Qed.

Lemma climbing_lifecycle (l : list TaskStatus) :
  climbing (PENDING :: l) → lifecycle (PENDING :: l).
Proof.
  unfold lifecycle.
  destruct l as [|b [|c [|d l]]]; cbn.
  - intros _. left. by repeat constructor.
  - intros [H _]. destruct b; try done. left. by repeat constructor.
  - intros (H1 & H2 & _). destruct b; try done.
    destruct c; try done; [left|right]; by repeat constructor.
  - intros (H1 & H2 & H3 & _). destruct b; try done. by destruct c, d.
Qed.

Lemma transition_absent (q q' : TaskQueue.t) (ev : Event) (out : Output)
    (tid : string) :
  Transition q ev q' out → tid ∉ submitted ev →
  TaskQueue._tasks q !! tid = None → TaskQueue._tasks q' !! tid = None.
Proof.
  intros Htr Hnew Hnone.
  destruct Htr as [uuid4 now1 now2 func args kwargs q' Ht Hp|task_id
    |max_age now q' Ht Hp|now Htake|now w p task q' Htake Htask Ht Hp
    |now w p q' Htake Htask Ht Hp|k now Hk|k now w v task q' Hk Hrun Htask Ht Hp
    |k now w e task q' Hk Hrun He Htask Ht Hp|k now w e q' Hk Hrun He Ht Hp
    |k now w q' Hk Hrun Htask Ht Hp
    |uuid4 now1 now2 func args kwargs e Hbind|now w p e q' Htake Hbind Ht Hp];
    try done; try (by rewrite Ht);
    try (rewrite Ht; rewrite lookup_insert_ne; [done|congruence]).
  - rewrite Ht. rewrite lookup_insert_ne; [done|]. set_solver.
  - by rewrite Ht, Hnone.
Qed.

(** A record that is gone and whose identifier is not drawn again is
    never seen again. *)
Lemma seen_absent (evs : list Event) (q : TaskQueue.t) (tid : string) :
  TaskQueue._tasks q !! tid = None → tid ∉ evs ≫= submitted →
  omap (status_of tid) (states evs q) = [].
Proof.
  revert q. induction evs as [|ev evs IH]; intros q Hnone Hnew.
  - cbn. unfold status_of, TaskQueue.get_task. by rewrite Hnone.
  - rewrite bind_cons in Hnew. apply not_elem_of_app in Hnew as [Hnew1 Hnew2].
    assert (Hs : status_of tid q = None).
    { unfold status_of, TaskQueue.get_task. by rewrite Hnone. }
    cbn. rewrite Hs.
    apply IH; [|done]. eapply transition_absent; [apply step_sound|done..].
Qed.

Lemma seen_present (evs : list Event) (q : TaskQueue.t) (tid : string)
    (a : TaskStatus) :
  wf evs q → status_of tid q = Some a →
  ∃ l, omap (status_of tid) (states evs q) = a :: l ∧ rising (a :: l).
Proof.
  revert q a. induction evs as [|ev evs IH]; intros q a Hwf Ha.
  - exists []. cbn. by rewrite Ha.
  - assert (Hk : known tid q).
    { left. unfold status_of, TaskQueue.get_task in Ha.
      by destruct (TaskQueue._tasks q !! tid); [eexists|]. }
    assert (Hnew : tid ∉ (ev :: evs) ≫= submitted).
    { intros Hin. by apply (proj2 (proj2 Hwf) tid). }
    rewrite bind_cons in Hnew. apply not_elem_of_app in Hnew as [Hnew1 Hnew2].
    pose proof (wf_step ev evs q Hwf) as Hwf1.
    pose proof (transition_follows q _ ev _ tid (step_sound ev q) (proj1 Hwf) Hnew1)
      as Hf.
    rewrite Ha in Hf. cbn. rewrite Ha. cbn.
    destruct (status_of tid (step ev q).1) as [b|] eqn:Hb.
    + destruct (IH _ b Hwf1 Hb) as (l & -> & Hr). exists (b :: l).
      split; [done|]. by split.
    + exists []. split; [|done]. f_equal. apply seen_absent; [|done].
      unfold status_of, TaskQueue.get_task in Hb.
      by destruct (TaskQueue._tasks (step ev q).1 !! tid).
Qed.

Lemma seen_from_unknown (evs : list Event) (q : TaskQueue.t) (tid : string) :
  wf evs q → ¬ known tid q →
  omap (status_of tid) (states evs q) = []
  ∨ ∃ l, omap (status_of tid) (states evs q) = PENDING :: l
         ∧ rising (PENDING :: l).
Proof.
  revert q. induction evs as [|ev evs IH]; intros q Hwf Hk.
  - left. apply seen_absent; [|set_solver].
    destruct (TaskQueue._tasks q !! tid) eqn:H; [|done].
    destruct Hk. left. by eexists.
  - assert (Hnone : TaskQueue._tasks q !! tid = None).
    { destruct (TaskQueue._tasks q !! tid) eqn:H; [|done].
      destruct Hk. left. by eexists. }
    pose proof (wf_step ev evs q Hwf) as Hwf1.
    pose proof (step_sound ev q) as Htr.
    assert (Hs : status_of tid q = None).
    { unfold status_of, TaskQueue.get_task. by rewrite Hnone. }
    cbn. rewrite !Hs.
    destruct (decide (tid ∈ submitted ev)) as [Hin|Hnew].
    + destruct ev as [uuid4 now1 now2 func args kwargs| | | |];
        cbn in Hin; try set_solver.
      apply list_elem_of_singleton in Hin as <-.
      unfold step, TaskQueue_step in *.
      destruct (bind_kwargs_cases "TaskQueue.submit" TaskQueue.submit_params
                  kwargs) as [Hb|[e Hb]].
      * right. rewrite submit_bound in * by done.
        apply (seen_present evs _ tid PENDING Hwf1).
        unfold status_of, TaskQueue.get_task. cbn. by rewrite lookup_insert_eq.
      * rewrite (submit_unbound _ _ _ _ _ _ _ e) in * by done.
        by apply IH.
    + apply IH; [done|]. intros Hk1.
      by eapply transition_known in Hk1 as [Hk1|Hk1].
Qed.

(** C2: in a run of a new in-memory queue in which [uuid4] never repeats,
    the statuses a reader sees for a task over time form a subsequence of
    PENDING, PROCESSING, COMPLETED or of PENDING, PROCESSING, FAILED; every
    step leaves the status of a record as it is or moves it one step
    forward in that order; and no step changes the status of a record that
    is COMPLETED or FAILED (the sweep can only remove the record). *)
Theorem status_lifecycle (max_workers : Z) (q0 : TaskQueue.t)
    (evs : list Event) (tid : string) :
  TaskQueue.__init__ max_workers = Ok q0 →
  uuids_unique evs →
  lifecycle (observed tid evs q0)
  ∧ (∀ i ev q a b,
       evs !! i = Some ev → states evs q0 !! i = Some q →
       status_of tid q = Some a → status_of tid (step ev q).1 = Some b →
       a = b ∨ advances a b = true)
  ∧ (∀ i ev q a,
       evs !! i = Some ev → states evs q0 !! i = Some q →
       status_of tid q = Some a → terminal a = true →
       status_of tid (step ev q).1 = Some a
       ∨ (status_of tid (step ev q).1 = None
          ∧ ∃ max_age now, ev = CleanupOldTasks max_age now)).
Proof.
  intros Hinit Hnd.
  assert (Hstep : ∀ i ev q a,
    evs !! i = Some ev → states evs q0 !! i = Some q →
    status_of tid q = Some a →
    follows (Some a) (status_of tid (step ev q).1)).
  { intros i ev q a Hev Hq Ha.
    destruct (states_wf _ _ _ _ _ _ Hinit Hnd Hq Hev) as (Hc & _ & Hfresh).
    rewrite <- Ha. eapply transition_follows; [apply step_sound|done|].
    intros Hin. apply (Hfresh tid); [rewrite bind_cons; set_solver|].
    left. unfold status_of, TaskQueue.get_task in Ha.
    by destruct (TaskQueue._tasks q !! tid); [eexists|]. }
  split_and!.
  - unfold observed.
    destruct (seen_from_unknown evs q0 tid) as [->|(l & -> & Hr)].
    + by eapply wf_init.
    + unfold TaskQueue.__init__, ThreadPoolExecutor.__init__ in Hinit.
      case_decide; cbn in Hinit; [done|]. injection Hinit as <-.
      intros [[task H']|[H'|H']]; cbn in *; set_solver.
    + left. apply sublist_nil_l.
    + destruct (changes_rising l PENDING Hr) as (l' & -> & Hcl).
      by apply climbing_lifecycle.
  - intros i ev q a b Hev Hq Ha Hb.
    specialize (Hstep i ev q a Hev Hq Ha). by rewrite Hb in Hstep.
  - intros i ev q a Hev Hq Ha Hterm.
    specialize (Hstep i ev q a Hev Hq Ha).
    destruct (status_of tid (step ev q).1) as [b|] eqn:Hb.
    + left. destruct Hstep as [->|Hadv]; [done|]. by destruct a, b.
    + right. split; [done|].
      assert (Hkeep : (∀ max_age now, ev ≠ CleanupOldTasks max_age now) → False).
      { intros Hne.
        assert (Hs : is_Some (TaskQueue._tasks (step ev q).1 !! tid)).
        { eapply transition_keeps; [apply step_sound|done|].
          unfold status_of, TaskQueue.get_task in Ha.
          by destruct (TaskQueue._tasks q !! tid); [eexists|]. }
        unfold status_of, TaskQueue.get_task in Hb.
        destruct Hs as [x Hx]. by rewrite Hx in Hb. }
      destruct ev as [| |max_age now| |]; [| |by eauto| |]; by destruct Hkeep.
Qed.

(** ** Concrete runs *)

Lemma example_queue_init : TaskQueue.__init__ 4 = Ok example_queue.
Proof. reflexivity. Qed.

Lemma example_run_unique : uuids_unique example_run.
Proof. unfold uuids_unique. cbn. apply NoDup_singleton. Qed.

Lemma status_lifecycle_witness :
  TaskQueue.__init__ 4 = Ok example_queue
  ∧ uuids_unique example_run
  ∧ lifecycle (observed "a" example_run example_queue).
Proof.
  split_and!; [reflexivity|unfold uuids_unique; cbn; apply NoDup_singleton|].
  apply (status_lifecycle 4 example_queue example_run "a").
  - reflexivity.
  - unfold uuids_unique. cbn. apply NoDup_singleton.
Defined.

(** ** What [result] and [error] hold *)

Lemma states_consistent (max_workers : Z) (q0 q : TaskQueue.t)
    (evs : list Event) (i : nat) :
  TaskQueue.__init__ max_workers = Ok q0 → uuids_unique evs →
  states evs q0 !! i = Some q → consistent q.
Proof.
  intros Hinit Hnd Hq.
  apply (states_invariant wf wf_step evs q0 i q (wf_init _ _ _ Hinit Hnd) Hq).
Qed.

(** The step of a worker whose callable returned, on a consistent queue
    that still holds the record. *)
Lemma worker_finish_returned (q : TaskQueue.t) (k : nat) (now : Z)
    (w : WorkItem) (v : PyValue) (task : Task.t) :
  consistent q →
  at_work q !! k = Some w →
  run_item w = Returned v →
  TaskQueue.get_task (item_task_id w) q = Some task →
  (TaskQueue.worker_finish k now q).2 = Nothing
  ∧ TaskQueue.get_task (item_task_id w) (TaskQueue.worker_finish k now q).1
    = Some (Task.mk (item_task_id w) COMPLETED (Task.created_at task) now v None).
Proof.
  intros Hc Hk Hrun Htask. unfold at_work in Hk. unfold TaskQueue.get_task in *.
  unfold TaskQueue.worker_finish. rewrite Hk, Hrun.
  rewrite (finish_returned_present now _ v _ task) by done. cbn.
  split; [done|]. rewrite lookup_insert_eq. f_equal.
  destruct (c_fields q Hc _ _ Htask) as [Hok Hid].
  assert (Hst : Task.status task = PROCESSING).
  { eapply (c_at_work q Hc w); [|done]. by eapply list_elem_of_lookup_2. }
  unfold fields_ok in Hok. rewrite Hst in Hok. destruct Hok as [_ Herr].
  destruct task. cbn in *. by subst.
Qed.

(** The same when the callable raised an exception that [except Exception]
    catches. *)
Lemma worker_finish_raised (q : TaskQueue.t) (k : nat) (now : Z)
    (w : WorkItem) (e : PyExc) (task : Task.t) :
  consistent q →
  at_work q !! k = Some w →
  run_item w = Raised e →
  caught e = true →
  TaskQueue.get_task (item_task_id w) q = Some task →
  (TaskQueue.worker_finish k now q).2 = Nothing
  ∧ TaskQueue.get_task (item_task_id w) (TaskQueue.worker_finish k now q).1
    = Some (Task.mk (item_task_id w) FAILED (Task.created_at task) now PyNone
              (Some (exc_str e))).
Proof.
  intros Hc Hk Hrun He Htask. unfold at_work in Hk. unfold TaskQueue.get_task in *.
  unfold TaskQueue.worker_finish. rewrite Hk, Hrun.
  rewrite (finish_raised_present now _ e _ task) by done. cbn.
  split; [done|]. rewrite lookup_insert_eq. f_equal.
  destruct (c_fields q Hc _ _ Htask) as [Hok Hid].
  assert (Hst : Task.status task = PROCESSING).
  { eapply (c_at_work q Hc w); [|done]. by eapply list_elem_of_lookup_2. }
  unfold fields_ok in Hok. rewrite Hst in Hok. destruct Hok as [Hres _].
  destruct task. cbn in *. by subst.
Qed.

(** The wrapper run without interruption on the record [submit] has just
    written. *)
Lemma execute_after_submit (q : TaskQueue.t) (uuid4 : string)
    (now1 now2 now3 now4 : Z) (func : Callable) (args : list PyValue)
    (kwargs : list (string * PyValue)) :
  binds kwargs →
  ∃ q1 q' r,
    TaskQueue.submit uuid4 now1 now2 func args kwargs q = (q1, Ok uuid4)
    ∧ TaskQueue._execute_task now3 now4 uuid4 func args kwargs q1 = (q', r)
    ∧ match func args kwargs with
      | Returned v =>
          r = Ok ()
          ∧ TaskQueue.get_task uuid4 q'
            = Some (Task.mk uuid4 COMPLETED now1 now4 v None)
      | Raised e =>
          if caught e then
            r = Ok ()
            ∧ TaskQueue.get_task uuid4 q'
              = Some (Task.mk uuid4 FAILED now1 now4 PyNone (Some (exc_str e)))
          else
            r = Raise e
            ∧ TaskQueue.get_task uuid4 q'
              = Some (Task.mk uuid4 PROCESSING now1 now3 PyNone None)
      end.
Proof.
  intros Hb.
  rewrite (submit_bound _ _ _ _ _ _ _ (binds_submit _ _ Hb)).
  set (q1 := logged _ _). exists q1.
  assert (H1 : TaskQueue._tasks q1 !! uuid4
               = Some (Task.mk uuid4 PENDING now1 now2 PyNone None)).
  { unfold q1. cbn. apply lookup_insert_eq. }
  unfold TaskQueue._execute_task.
  rewrite (execute_bound _ _ _ (binds_execute _ _ Hb)). unfold bind.
  rewrite (start_present now3 uuid4 q1 _ H1).
  set (q2 := put uuid4 _ q1).
  assert (H2 : TaskQueue._tasks q2 !! uuid4
               = Some (Task.mk uuid4 PROCESSING now1 now3 PyNone None)).
  { unfold q2, put. cbn. apply lookup_insert_eq. }
  destruct (func args kwargs) as [v|e]; [|destruct (caught e) eqn:He].
  - rewrite (finish_returned_present now4 uuid4 v q2 _ H2).
    eexists _, _. split_and!; [done..|].
    unfold TaskQueue.get_task. cbn. apply lookup_insert_eq.
  - rewrite (finish_raised_present now4 uuid4 e q2 _ He H2).
    eexists _, _. split_and!; [done..|].
    unfold TaskQueue.get_task. cbn. apply lookup_insert_eq.
  - rewrite (finish_uncaught now4 uuid4 e q2 He).
    by eexists _, _.
Qed.

(** A call of the wrapper whose keywords do not bind raises before the
    first block and writes nothing; the callable is not called. *)
Lemma execute_task_unbound (q : TaskQueue.t) (task_id : string)
    (now1 now2 : Z) (func : Callable) (args : list PyValue)
    (kwargs : list (string * PyValue)) (e : PyExc) :
  bind_kwargs "TaskQueue._execute_task" TaskQueue._execute_task_params kwargs
  = Raise e →
  TaskQueue._execute_task now1 now2 task_id func args kwargs q = (q, Raise e).
Proof. intros Hb. unfold TaskQueue._execute_task. by apply execute_unbound. Qed.

(** C3, as stated, fails: the callable of a running task returns a value,
    but the sweep has removed the record in the meantime; the wrapper
    raises [KeyError], no record is COMPLETED and the status query returns
    not-found. *)
Lemma returned_but_swept :
  ∃ q w,
    states swept_run example_queue !! 3%nat = Some q
    ∧ at_work q !! 0%nat = Some w
    ∧ item_task_id w = "a"
    ∧ run_item w = Returned (PyDict [("n", PyInt 42)])
    ∧ (step (WorkerFinish 0 5) q).2 = Escaped (TaskQueue.key_error "a")
    ∧ TaskQueue.get_task "a" (step (WorkerFinish 0 5) q).1 = None
    ∧ TaskQueue.get_task "a" (final swept_run example_queue) = None.
Proof.
  eexists _, (mkItem "a" returns_n42 [] []).
  split_and!; [reflexivity|reflexivity|reflexivity|reflexivity| | |];
    by vm_compute.
Qed.

(** C3, amended: for a callable that returns a value [v], the execution
    wrapper leaves the record of the task COMPLETED with [result] equal to
    [v] and [error] unset, and lets nothing escape, provided the keywords
    of the call bind and the record is in the store when the wrapper writes.
    This holds for the wrapper run on the record [submit] has just written,
    when no keyword is named [self], [func] or [task_id]; and, in a run of
    a new in-memory queue in which [uuid4] never repeats, whenever the
    callable of a running task returns and the record of the task is still
    in the store.  A call of the wrapper whose keywords do not bind raises
    [TypeError] and writes nothing. *)
Theorem returned_value_recorded (v : PyValue) :
  (∀ q uuid4 now1 now2 now3 now4 func args kwargs,
     func args kwargs = Returned v →
     binds kwargs →
     ∃ q1 q',
       TaskQueue.submit uuid4 now1 now2 func args kwargs q = (q1, Ok uuid4)
       ∧ TaskQueue._execute_task now3 now4 uuid4 func args kwargs q1
         = (q', Ok ())
       ∧ TaskQueue.get_task uuid4 q'
         = Some (Task.mk uuid4 COMPLETED now1 now4 v None))
  ∧ (∀ q task_id now1 now2 func args kwargs e,
       bind_kwargs "TaskQueue._execute_task" TaskQueue._execute_task_params
         kwargs = Raise e →
       TaskQueue._execute_task now1 now2 task_id func args kwargs q
       = (q, Raise e)
       ∧ exc_class e = TypeError)
  ∧ (∀ max_workers q0 evs k now w task,
       TaskQueue.__init__ max_workers = Ok q0 →
       uuids_unique evs →
       at_work (final evs q0) !! k = Some w →
       run_item w = Returned v →
       TaskQueue.get_task (item_task_id w) (final evs q0) = Some task →
       ∃ task',
         step (WorkerFinish k now) (final evs q0)
         = ((TaskQueue.worker_finish k now (final evs q0)).1, Nothing)
         ∧ TaskQueue.get_task (item_task_id w)
             (step (WorkerFinish k now) (final evs q0)).1 = Some task'
         ∧ Task.status task' = COMPLETED
         ∧ Task.result task' = v
         ∧ Task.error task' = None
         ∧ Task.id task' = item_task_id w
         ∧ Task.created_at task' = Task.created_at task).
Proof.
  split_and!.
  - intros q uuid4 now1 now2 now3 now4 func args kwargs Hv Hb.
    destruct (execute_after_submit q uuid4 now1 now2 now3 now4 func args kwargs
                Hb) as (q1 & q' & r & Hsub & Hrun & Hres).
    rewrite Hv in Hres. destruct Hres as [-> Hget]. by exists q1, q'.
  - intros q task_id now1 now2 func args kwargs e Hb. split.
    + by apply execute_task_unbound.
    + by apply bind_kwargs_Raise in Hb as [? _].
  - intros max_workers q0 evs k now w task Hinit Hnd Hk Hrun Htask.
    destruct (final_wf _ _ _ Hinit Hnd) as (Hc & _).
    destruct (worker_finish_returned _ k now w v task Hc Hk Hrun Htask)
      as [Hout Hget].
    eexists. unfold step, TaskQueue_step. split_and!; [|exact Hget|done..].
    rewrite <- Hout. by destruct (TaskQueue.worker_finish k now (final evs q0)).
Qed.

Lemma returned_value_recorded_witness :
  ∃ task',
    step (WorkerFinish 0 4) (final running_run example_queue)
    = ((TaskQueue.worker_finish 0 4 (final running_run example_queue)).1, Nothing)
    ∧ TaskQueue.get_task "a"
        (step (WorkerFinish 0 4) (final running_run example_queue)).1 = Some task'
    ∧ Task.status task' = COMPLETED
    ∧ Task.result task' = PyDict [("n", PyInt 42)]
    ∧ Task.error task' = None
    ∧ Task.id task' = "a"
    ∧ Task.created_at task' = 1.
Proof.
  apply (proj2 (proj2 (returned_value_recorded (PyDict [("n", PyInt 42)])))
           4 example_queue running_run 0%nat 4
           (mkItem "a" returns_n42 [] [])
           (Task.mk "a" PROCESSING 1 3 PyNone None)).
  - reflexivity.
  - unfold uuids_unique. cbn. apply NoDup_singleton.
  - reflexivity.
  - reflexivity.
  - vm_compute. reflexivity.
Defined.

(** C1, as stated, fails: a callable that raises an exception whose text is
    empty leaves the record FAILED with the empty string as [error]. *)
Lemma failed_with_empty_error :
  ∃ task,
    TaskQueue.get_task "a" (final blank_run example_queue) = Some task
    ∧ Task.status task = FAILED
    ∧ Task.error task = Some ""
    ∧ ¬ error_nonempty task.
Proof.
  exists (Task.mk "a" FAILED 1 4 PyNone (Some "")).
  split_and!; [by vm_compute|done|done|].
  intros (msg & Hmsg & Hne). cbn in Hmsg. by injection Hmsg as <-.
Qed.

(** C1, amended: for a callable that raises an exception [e] that
    [except Exception] catches, the execution wrapper leaves the record of
    the task FAILED with [error] set to the text [str(e)], which may be
    empty, and [result] unset, and lets nothing escape, provided the
    keywords of the call bind and the record is in the store when the
    wrapper writes.  This holds for the wrapper run on the record [submit]
    has just written, when no keyword is named [self], [func] or
    [task_id]; and, in a run of a new in-memory queue in which [uuid4]
    never repeats, whenever the callable of a running task raises and the
    record of the task is still in the store. *)
Theorem raised_failure_recorded (e : PyExc) :
  caught e = true →
  (∀ q uuid4 now1 now2 now3 now4 func args kwargs,
     func args kwargs = Raised e →
     binds kwargs →
     ∃ q1 q',
       TaskQueue.submit uuid4 now1 now2 func args kwargs q = (q1, Ok uuid4)
       ∧ TaskQueue._execute_task now3 now4 uuid4 func args kwargs q1
         = (q', Ok ())
       ∧ TaskQueue.get_task uuid4 q'
         = Some (Task.mk uuid4 FAILED now1 now4 PyNone (Some (exc_str e))))
  ∧ (∀ max_workers q0 evs k now w task,
       TaskQueue.__init__ max_workers = Ok q0 →
       uuids_unique evs →
       at_work (final evs q0) !! k = Some w →
       run_item w = Raised e →
       TaskQueue.get_task (item_task_id w) (final evs q0) = Some task →
       ∃ task',
         step (WorkerFinish k now) (final evs q0)
         = ((TaskQueue.worker_finish k now (final evs q0)).1, Nothing)
         ∧ TaskQueue.get_task (item_task_id w)
             (step (WorkerFinish k now) (final evs q0)).1 = Some task'
         ∧ Task.status task' = FAILED
         ∧ Task.error task' = Some (exc_str e)
         ∧ ¬ result_set task'
         ∧ Task.id task' = item_task_id w
         ∧ Task.created_at task' = Task.created_at task).
Proof.
  intros He. split.
  - intros q uuid4 now1 now2 now3 now4 func args kwargs Hraise Hb.
    destruct (execute_after_submit q uuid4 now1 now2 now3 now4 func args kwargs
                Hb) as (q1 & q' & r & Hsub & Hrun & Hres).
    rewrite Hraise, He in Hres. destruct Hres as [-> Hget]. by exists q1, q'.
  - intros max_workers q0 evs k now w task Hinit Hnd Hk Hrun Htask.
    destruct (final_wf _ _ _ Hinit Hnd) as (Hc & _).
    destruct (worker_finish_raised _ k now w e task Hc Hk Hrun He Htask)
      as [Hout Hget].
    eexists. unfold step, TaskQueue_step.
    split_and!; [|exact Hget|done|done| |done|done].
    + rewrite <- Hout.
      by destruct (TaskQueue.worker_finish k now (final evs q0)).
    + unfold result_set. cbn. by intros [].
Qed.

Lemma raised_failure_recorded_witness :
  ∃ task',
    step (WorkerFinish 0 4) (final boom_run example_queue)
    = ((TaskQueue.worker_finish 0 4 (final boom_run example_queue)).1, Nothing)
    ∧ TaskQueue.get_task "a"
        (step (WorkerFinish 0 4) (final boom_run example_queue)).1 = Some task'
    ∧ Task.status task' = FAILED
    ∧ Task.error task' = Some "boom"
    ∧ ¬ result_set task'
    ∧ Task.id task' = "a"
    ∧ Task.created_at task' = 1.
Proof.
  assert (He : caught (mkExc ValueError "boom") = true) by reflexivity.
  apply (proj2 (raised_failure_recorded (mkExc ValueError "boom") He)
           4 example_queue boom_run 0%nat 4
           (mkItem "a" raises_boom [] [])
           (Task.mk "a" PROCESSING 1 3 PyNone None)).
  - reflexivity.
  - unfold uuids_unique. cbn. apply NoDup_singleton.
  - reflexivity.
  - reflexivity.
  - vm_compute. reflexivity.
Defined.

(** *** The record between the assignments of a block *)

(** The copy that [asdict] makes of a value is the value. *)
Lemma asdict_inner_Ok :
  ∀ (v v' : PyValue), Task.asdict_inner v = Ok v' → v' = v.
Proof.
  fix IH 1. intros v v'. destruct v as [|b|n|r|s|l|d|ty|ty];
    try (cbn; by intros [= <-]).
  - cbn. set (items := fix items (l0 : list PyValue) := _).
    assert (Hitems : ∀ l0 l1, items l0 = Ok l1 → l1 = l0).
    { fix IHl 1. intros [|x l'] l1; [by intros [= <-]|]. cbn.
      destruct (Task.asdict_inner x) as [x'|ex] eqn:Hx; cbn; [|done].
      destruct (items l') as [r|er] eqn:Hr; cbn; [|done].
      intros [= <-]. by rewrite (IH x x' Hx), (IHl l' r Hr). }
    destruct (items l) as [l1|el] eqn:Hl; cbn; [|done].
    intros [= <-]. by rewrite (Hitems l l1 Hl).
  - cbn. set (members := fix members (d0 : list (string * PyValue)) := _).
    assert (Hmembers : ∀ d0 d1, members d0 = Ok d1 → d1 = d0).
    { fix IHd 1. intros [|[k x] d'] d1; [by intros [= <-]|]. cbn.
      destruct (Task.asdict_inner x) as [x'|ex] eqn:Hx; cbn; [|done].
      destruct (members d') as [r|er] eqn:Hr; cbn; [|done].
      intros [= <-]. by rewrite (IH x x' Hx), (IHd d' r Hr). }
    destruct (members d) as [d1|ed] eqn:Hd; cbn; [|done].
    intros [= <-]. by rewrite (Hmembers d d1 Hd).
Qed.

(** A step that does not take the object out of the store leaves it in
    the store with the assignments of the step made to it. *)
Lemma writes_agree (tid : string) (ev : Event) (q : TaskQueue.t)
    (task : Task.t) :
  TaskQueue.get_task tid q = Some task →
  leaves tid ev q = false →
  TaskQueue.get_task tid (step ev q).1 = Some (assign task (writes tid ev q)).
Proof.
  unfold TaskQueue.get_task, writes, assign. intros Htask Hstay.
  destruct ev as [uuid4 now1 now2 func args kwargs|task_id|max_age now|now|k now];
    cbn [assignments foldl].
  - unfold step, TaskQueue_step. cbn in Hstay.
    destruct (bind_kwargs "TaskQueue.submit" TaskQueue.submit_params kwargs)
      as [[]|e] eqn:Hb.
    + rewrite submit_bound by done. cbn.
      rewrite andb_true_r in Hstay. apply bool_decide_eq_false in Hstay.
      by rewrite lookup_insert_ne.
    + by rewrite (submit_unbound _ _ _ _ _ _ _ e).
  - done.
  - cbn in Hstay. unfold TaskQueue.get_task in Hstay.
    destruct (cleanup_old_tasks_spec max_age now q)
      as (q' & Hrun & _ & _ & Hlook).
    unfold step, TaskQueue_step in *. rewrite Hrun in *. cbn in *.
    rewrite Hlook, Htask in *. cbn in *. by case_decide.
  - unfold step, TaskQueue_step, TaskQueue.worker_start.
    destruct (ThreadPoolExecutor.take _) as [[w p]|] eqn:Htake; [|done].
    destruct (bind_kwargs "TaskQueue._execute_task"
                TaskQueue._execute_task_params (item_kwargs w))
      as [[]|e] eqn:Hb.
    2:{ by rewrite (execute_unbound _ _ _ e). }
    rewrite execute_bound by done.
    destruct (decide (item_task_id w = tid)) as [Heq|Hne].
    + rewrite (start_present now _ (TaskQueue.set_executor p q) task)
        by (by rewrite Heq).
      cbn. rewrite Heq. by rewrite lookup_insert_eq.
    + destruct (TaskQueue._tasks q !! item_task_id w) as [task'|] eqn:Hw.
      * rewrite (start_present now _ (TaskQueue.set_executor p q) task') by done.
        cbn. by rewrite lookup_insert_ne.
      * by rewrite (start_absent now _ (TaskQueue.set_executor p q)).
  - unfold step, TaskQueue_step, TaskQueue.worker_finish.
    destruct (ThreadPoolExecutor.running _ !! k) as [w|] eqn:Hk; [|done].
    set (q1 := TaskQueue.set_executor _ q).
    destruct (run_item w) as [v|e] eqn:Hrun; [|destruct (caught e) eqn:He].
    + destruct (decide (item_task_id w = tid)) as [Heq|Hne].
      * rewrite (finish_returned_present now _ v q1 task) by (by rewrite Heq).
        cbn. rewrite Heq. by rewrite lookup_insert_eq.
      * destruct (TaskQueue._tasks q !! item_task_id w) as [task'|] eqn:Hw.
        -- rewrite (finish_returned_present now _ v q1 task') by done.
           cbn. by rewrite lookup_insert_ne.
        -- by rewrite (finish_absent now _ _ q1).
    + destruct (decide (item_task_id w = tid)) as [Heq|Hne].
      * rewrite (finish_raised_present now _ e q1 task) by (by rewrite ?Heq).
        cbn. rewrite Heq. by rewrite lookup_insert_eq.
      * destruct (TaskQueue._tasks q !! item_task_id w) as [task'|] eqn:Hw.
        -- rewrite (finish_raised_present now _ e q1 task') by done.
           cbn. by rewrite lookup_insert_ne.
        -- rewrite (finish_absent now _ _ q1); [done..|].
           by intros ? [= <-].
    + by rewrite (finish_uncaught now _ e q1).
Qed.

Lemma keeps_terminal_refl : Reflexive keeps_terminal.
Proof. by intros x. Qed.

Lemma keeps_terminal_trans : Transitive keeps_terminal.
Proof.
  unfold keeps_terminal. intros x y z Hxy Hyz Hx.
  rewrite <- (Hxy Hx). apply Hyz. by rewrite (Hxy Hx).
Qed.

Lemma fields_ok_only_when_terminal (task : Task.t) :
  fields_ok task → only_when_terminal task.
Proof.
  unfold fields_ok, only_when_terminal, result_set, error_set.
  destruct (Task.status task); unfold is_Some; naive_solver.
Qed.

(** The assignments a step makes to a record of a consistent queue: none,
    or those of one of the three blocks, made to a record in the status
    the block expects. *)
Lemma writes_cases (tid : string) (ev : Event) (q : TaskQueue.t)
    (task : Task.t) :
  consistent q →
  TaskQueue.get_task tid q = Some task →
  writes tid ev q = []
  ∨ (∃ now, writes tid ev q
            = [Task.set_status PROCESSING; Task.set_updated_at now]
            ∧ Task.status task = PENDING)
  ∨ (∃ now v, writes tid ev q
              = [Task.set_status COMPLETED; Task.set_result v;
                 Task.set_updated_at now]
              ∧ Task.status task = PROCESSING)
  ∨ (∃ now msg, writes tid ev q
                = [Task.set_status FAILED; Task.set_error msg;
                   Task.set_updated_at now]
                ∧ Task.status task = PROCESSING).
Proof.
  intros Hc Htask. unfold writes, TaskQueue.get_task in *.
  destruct ev as [uuid4 now1 now2 func args kwargs|task_id|max_age now|now|k now];
    cbn [assignments]; try by left.
  - destruct (ThreadPoolExecutor.take _) as [[w p]|] eqn:Htake; [|by left].
    destruct (bind_kwargs _ _ _); [|by left].
    case_decide as Heq; [|by left]. right. left. exists now. split; [done|].
    apply take_Some in Htake as [Hwq _].
    apply (c_waiting q Hc w); [|by rewrite Heq].
    unfold waiting. rewrite Hwq. by left.
  - destruct (ThreadPoolExecutor.running _ !! k) as [w|] eqn:Hk; [|by left].
    assert (Hst : item_task_id w = tid → Task.status task = PROCESSING).
    { intros Heq. apply (c_at_work q Hc w); [|by rewrite Heq].
      by eapply list_elem_of_lookup_2. }
    destruct (run_item w) as [v|e]; [|destruct (caught e)]; [| |by left].
    + case_decide as Heq; [|by left]. right. right. left.
      exists now, v. by split; [|apply Hst].
    + case_decide as Heq; [|by left]. right. right. right.
      exists now, (exc_str e). by split; [|apply Hst].
Qed.

(** Inside a block: every value of the record has its fields set only
    when its status allows it, and keeps a terminal status from then on. *)
Lemma block_values (tid : string) (ev : Event) (q : TaskQueue.t)
    (task : Task.t) :
  consistent q →
  TaskQueue.get_task tid q = Some task →
  Forall only_when_terminal (after_each (writes tid ev q) task)
  ∧ StronglySorted keeps_terminal (task :: after_each (writes tid ev q) task)
  ∧ Forall (λ x, keeps_terminal x (assign task (writes tid ev q)))
      (task :: after_each (writes tid ev q) task).
Proof.
  intros Hc Htask.
  destruct (c_fields q Hc tid task Htask) as [Hok _]. unfold fields_ok in Hok.
  destruct (writes_cases tid ev q task Hc Htask)
    as [->|[(now & -> & Hst)|[(now & v & -> & Hst)|(now & msg & -> & Hst)]]];
    rewrite ?Hst in Hok; try destruct Hok as [Hres Herr];
    unfold assign, only_when_terminal, keeps_terminal, result_set, error_set;
    cbn; rewrite ?Hst, ?Hres, ?Herr;
    (split_and!; repeat constructor; cbn; rewrite ?Hst, ?Hres, ?Herr; naive_solver).
Qed.

(** Along the whole history of the object. *)
Lemma history_values (tid : string) (evs : list Event) (q : TaskQueue.t)
    (task : Task.t) :
  wf evs q →
  TaskQueue.get_task tid q = Some task →
  Forall only_when_terminal (task :: history tid evs q task)
  ∧ StronglySorted keeps_terminal (task :: history tid evs q task).
Proof.
  revert q task. induction evs as [|ev evs IH]; intros q task Hwf Htask.
  - destruct (c_fields q (proj1 Hwf) tid task Htask) as [Hok _].
    split; [|repeat constructor].
    constructor; [by apply fields_ok_only_when_terminal|constructor].
  - destruct (c_fields q (proj1 Hwf) tid task Htask) as [Hok _].
    cbn [history]. destruct (leaves tid ev q) eqn:Hstay.
    { split; [|repeat constructor].
      constructor; [by apply fields_ok_only_when_terminal|constructor]. }
    pose proof (writes_agree tid ev q task Htask Hstay) as Htask'.
    destruct (block_values tid ev q task (proj1 Hwf) Htask)
      as (Hblock & Hsorted & Hlast).
    destruct (IH _ _ (wf_step ev evs q Hwf) Htask') as (Hall & Hrest).
    apply Forall_cons in Hall as [_ Hall].
    apply StronglySorted_cons in Hrest as [Hhd Hrest].
    split.
    + constructor; [by apply fields_ok_only_when_terminal|].
      by apply Forall_app.
    + rewrite app_comm_cons. apply StronglySorted_app_2; [|done..].
      intros x y Hx Hy.
      apply (keeps_terminal_trans x (assign task (writes tid ev q)) y).
      * by apply (proj1 (Forall_forall _ _) Hlast x).
      * by apply (proj1 (Forall_forall _ _) Hhd y).
Qed.

Lemma result_set_cases (task : Task.t) :
  Task.result task = PyNone ∨ result_set task.
Proof.
  unfold result_set. destruct (Task.result task); [by left|by right..].
Qed.

Lemma sorted_lookup {A : Type} (R : relation A) (l : list A) (a b : nat)
    (x y : A) :
  Reflexive R →
  StronglySorted R l → (a ≤ b)%nat → l !! a = Some x → l !! b = Some y → R x y.
Proof.
  intros Hrefl Hs. revert a b. induction Hs as [|z l Hs IH Hall]; intros a b Hab Ha Hb.
  - done.
  - destruct a as [|a], b as [|b]; cbn in *; try lia.
    + by simplify_eq.
    + injection Ha as <-. apply (proj1 (Forall_forall _ _) Hall).
      by eapply list_elem_of_lookup_2.
    + apply (IH a b); [lia|done..].
Qed.

(** C8, as stated, fails: after a callable returned [None] the record is
    COMPLETED and neither [result] nor [error] is set. *)
Lemma completed_with_nothing_set :
  ∃ task,
    TaskQueue.get_task "a" (final none_run example_queue) = Some task
    ∧ terminal (Task.status task) = true
    ∧ ¬ exactly_one_set task.
Proof.
  exists (Task.mk "a" COMPLETED 1 4 PyNone None).
  split_and!; [by vm_compute|done|].
  unfold exactly_one_set, result_set, error_set. cbn. tauto.
Qed.

(** C8, amended: in a run of a new in-memory queue in which [uuid4] never
    repeats, at every point, also between the assignments of a locked
    block of the wrapper and for a status query whose reads fall between
    them, [result] is set only when the status is COMPLETED and [error]
    only when it is FAILED, and before a terminal status neither is set.
    Between the blocks, a FAILED record has [error] set and [result]
    unset; a COMPLETED record has [error] unset, and its [result] is the
    value the callable returned, so it is set exactly when that value is
    not [None].  Inside its last block the wrapper writes the terminal
    status first: a reader can see it while neither field is set yet. *)
Theorem result_and_error_by_status (max_workers : Z) (q0 : TaskQueue.t)
    (evs : list Event) :
  TaskQueue.__init__ max_workers = Ok q0 →
  uuids_unique evs →
  (∀ i q tid task rd d,
     states evs q0 !! i = Some q → TaskQueue.get_task tid q = Some task →
     reading (task :: history tid (drop i evs) q task) rd →
     TaskQueue.get_task_status_during (λ _, rd) tid q = Ok (Some d) →
     ∃ st res err,
       dict_get "status" d = Some (PyStr (value st))
       ∧ dict_get "result" d = Some res
       ∧ dict_get "error" d = Some err
       ∧ (res ≠ PyNone → st = COMPLETED)
       ∧ (err ≠ PyNone → st = FAILED)
       ∧ (terminal st = false → res = PyNone ∧ err = PyNone))
  ∧ (∀ i q k now w task,
       states evs q0 !! i = Some q → evs !! i = Some (WorkerFinish k now) →
       at_work q !! k = Some w →
       (∀ e, run_item w = Raised e → caught e = true) →
       TaskQueue.get_task (item_task_id w) q = Some task →
       ∃ x, history (item_task_id w) (drop i evs) q task !! 0%nat = Some x
            ∧ terminal (Task.status x) = true
            ∧ ¬ result_set x ∧ ¬ error_set x)
  ∧ (∀ i q tid task,
     states evs q0 !! i = Some q → TaskQueue.get_task tid q = Some task →
     (result_set task → Task.status task = COMPLETED)
     ∧ (error_set task → Task.status task = FAILED)
     ∧ (terminal (Task.status task) = false → ¬ result_set task ∧ ¬ error_set task)
     ∧ (Task.status task = FAILED → error_set task ∧ ¬ result_set task)
     ∧ (Task.status task = COMPLETED → ¬ error_set task))
  ∧ (∀ i q k now w v task,
       states evs q0 !! i = Some q → evs !! i = Some (WorkerFinish k now) →
       at_work q !! k = Some w → run_item w = Returned v →
       TaskQueue.get_task (item_task_id w) q = Some task →
       ∃ task',
         TaskQueue.get_task (item_task_id w) (step (WorkerFinish k now) q).1
         = Some task'
         ∧ Task.status task' = COMPLETED
         ∧ Task.result task' = v
         ∧ (result_set task' ↔ v ≠ PyNone)).
Proof.
  intros Hinit Hnd. split_and!.
  - intros i q tid task rd d Hq Htask Hrd.
    pose proof (states_invariant wf wf_step evs q0 i q
                  (wf_init _ _ _ Hinit Hnd) Hq) as Hwf.
    destruct (history_values tid _ q task Hwf Htask) as [Hall Hsorted].
    destruct Hrd as (n1 & n2 & n3 & n4 & n5 & n6 & n7 & Hle
                     & H1 & H2 & H3 & H4 & H5 & H6 & H7).
    unfold TaskQueue.get_task_status_during. rewrite Htask.
    unfold Task.to_dict_reads.
    destruct (Task.asdict_inner (Task.result (Task.at_result rd)))
      as [res|e] eqn:Hres; [|done].
    apply asdict_inner_Ok in Hres as ->. intros [= <-].
    exists (Task.status (Task.at_value rd)), (Task.result (Task.at_result rd)),
      (from_option PyStr PyNone (Task.error (Task.at_error rd))).
    split_and!; [reflexivity..| | |].
    + intros Hr.
      destruct (proj1 (Forall_forall _ _) Hall (Task.at_result rd)) as [Hc _];
        [by eapply list_elem_of_lookup_2|].
      specialize (Hc Hr).
      rewrite (sorted_lookup keeps_terminal _ n5 n7 _ _ keeps_terminal_refl Hsorted) by
        (first [lia | done | by rewrite Hc]). done.
    + intros He.
      destruct (proj1 (Forall_forall _ _) Hall (Task.at_error rd)) as [_ Hc];
        [by eapply list_elem_of_lookup_2|].
      assert (Hset : error_set (Task.at_error rd)).
      { unfold error_set. by destruct (Task.error (Task.at_error rd)). }
      specialize (Hc Hset).
      rewrite (sorted_lookup keeps_terminal _ n6 n7 _ _ keeps_terminal_refl Hsorted) by
        (first [lia | done | by rewrite Hc]). done.
    + intros Hterm. split.
      * destruct (result_set_cases (Task.at_result rd)) as [Hr|Hr]; [done|].
        destruct (proj1 (Forall_forall _ _) Hall (Task.at_result rd))
          as [Hc _]; [by eapply list_elem_of_lookup_2|].
        specialize (Hc Hr).
        rewrite (sorted_lookup keeps_terminal _ n5 n7 _ _ keeps_terminal_refl Hsorted) in Hterm
          by (first [lia | done | by rewrite Hc]).
        by rewrite Hc in Hterm.
      * destruct (Task.error (Task.at_error rd)) as [msg|] eqn:Herr; [|done].
        destruct (proj1 (Forall_forall _ _) Hall (Task.at_error rd))
          as [_ Hc]; [by eapply list_elem_of_lookup_2|].
        assert (Hset : error_set (Task.at_error rd))
          by (unfold error_set; by rewrite Herr).
        specialize (Hc Hset).
        rewrite (sorted_lookup keeps_terminal _ n6 n7 _ _ keeps_terminal_refl Hsorted) in Hterm
          by (first [lia | done | by rewrite Hc]).
        by rewrite Hc in Hterm.
  - intros i q k now w task Hq Hev Hk Hcaught Htask.
    pose proof (states_consistent _ _ _ _ _ Hinit Hnd Hq) as Hc.
    destruct (c_fields q Hc _ task Htask) as [Hok _].
    assert (Hst : Task.status task = PROCESSING).
    { eapply (c_at_work q Hc w); [|done]. by eapply list_elem_of_lookup_2. }
    unfold fields_ok in Hok. rewrite Hst in Hok. destruct Hok as [Hres Herr].
    rewrite (drop_S _ _ _ Hev). cbn [history leaves].
    unfold writes. cbn [assignments]. unfold at_work in Hk. rewrite Hk.
    unfold result_set, error_set.
    destruct (run_item w) as [v|e] eqn:Hrun.
    + rewrite decide_True by done. cbn. eexists. split; [done|].
      cbn. rewrite Hres, Herr. by split_and!; [|intros []|intros []].
    + rewrite (Hcaught e eq_refl). rewrite decide_True by done. cbn.
      eexists. split; [done|].
      cbn. rewrite Hres, Herr. by split_and!; [|intros []|intros []].
  - intros i q tid task Hq Htask.
    pose proof (states_consistent _ _ _ _ _ Hinit Hnd Hq) as Hc.
    destruct (c_fields q Hc tid task Htask) as [Hok _].
    unfold fields_ok in Hok. unfold result_set, error_set.
    destruct (Task.status task); cbn; unfold is_Some in Hok; naive_solver.
  - intros i q k now w v task Hq Hev Hk Hrun Htask.
    pose proof (states_consistent _ _ _ _ _ Hinit Hnd Hq) as Hc.
    destruct (worker_finish_returned _ k now w v task Hc Hk Hrun Htask)
      as [_ Hget].
    eexists. unfold step, TaskQueue_step. split_and!; [exact Hget|done..].
Qed.

Lemma result_and_error_by_status_witness :
  TaskQueue.__init__ 4 = Ok example_queue
  ∧ uuids_unique example_run
  ∧ uuids_unique failing_run
  ∧ (∃ task',
      TaskQueue.get_task "a" (step (WorkerFinish 0 4) (final running_run example_queue)).1
      = Some task'
      ∧ Task.status task' = COMPLETED
      ∧ Task.result task' = PyDict [("n", PyInt 42)]
      ∧ (result_set task' ↔ PyDict [("n", PyInt 42)] ≠ PyNone))
  ∧ (∃ x, history "a" (drop 2 failing_run) (final boom_run example_queue)
            (Task.mk "a" PROCESSING 1 3 PyNone None) !! 0%nat = Some x
          ∧ terminal (Task.status x) = true
          ∧ ¬ result_set x ∧ ¬ error_set x).
Proof.
  assert (Hinit : TaskQueue.__init__ 4 = Ok example_queue) by reflexivity.
  assert (Hnd : uuids_unique example_run)
    by (unfold uuids_unique; cbn; apply NoDup_singleton).
  assert (Hnd' : uuids_unique failing_run)
    by (unfold uuids_unique; cbn; apply NoDup_singleton).
  split_and!; [done..| |].
  - apply (proj2 (proj2 (proj2
             (result_and_error_by_status 4 example_queue example_run Hinit Hnd)))
             2%nat (final running_run example_queue) 0%nat 4
             (mkItem "a" returns_n42 [] []) (PyDict [("n", PyInt 42)])
             (Task.mk "a" PROCESSING 1 3 PyNone None)).
    + reflexivity.
    + reflexivity.
    + reflexivity.
    + reflexivity.
    + vm_compute. reflexivity.
  - apply (proj1 (proj2
             (result_and_error_by_status 4 example_queue failing_run Hinit Hnd'))
             2%nat (final boom_run example_queue) 0%nat 4
             (mkItem "a" raises_boom [] [])
             (Task.mk "a" PROCESSING 1 3 PyNone None)).
    + reflexivity.
    + reflexivity.
    + reflexivity.
    + intros e [= <-]. reflexivity.
    + vm_compute. reflexivity.
Defined.

(** A status query that reads the record of a failing task right after
    the wrapper has assigned the status, before it assigns [error]:
    FAILED, and no error yet. *)
Lemma failed_seen_before_error :
  ∃ rd,
    reading (Task.mk "a" PROCESSING 1 3 PyNone None
             :: history "a" (drop 2 failing_run) (final boom_run example_queue)
                  (Task.mk "a" PROCESSING 1 3 PyNone None)) rd
    ∧ TaskQueue.get_task_status_during (λ _, rd) "a"
        (final boom_run example_queue)
      = Ok (Some [("id", PyStr "a"); ("status", PyStr "failed");
                  ("created_at", PyFloat "1"); ("updated_at", PyFloat "3");
                  ("result", PyNone); ("error", PyNone)]).
Proof.
  set (x := Task.mk "a" FAILED 1 3 PyNone None).
  exists (Task.mkReads x x x x x x x). split.
  - exists 1%nat, 1%nat, 1%nat, 1%nat, 1%nat, 1%nat, 1%nat.
    split_and!; try lia; by vm_compute.
  - by vm_compute.
Qed.

(** ** The wrapper and a record that has gone *)

(** C10: the status updates of [TaskQueue._execute_task] go through only
    while the record is in the store.  With the record present, the first
    block and the [try] statement (for a callable that returns, or raises
    what [except Exception] catches) end without an exception.  With the
    record missing, each of them raises [KeyError] for the identifier out of
    the wrapper and writes nothing; so does the whole call of the wrapper,
    whatever the callable (a call whose keywords do not bind raises the
    [TypeError] of the binding instead, and writes nothing either); and the
    retention sweep is one way to get there. *)
Theorem execute_task_needs_record (q : TaskQueue.t) (task_id : string)
    (now : Z) (o : Outcome) :
  (∀ e, o = Raised e → caught e = true) →
  match TaskQueue._tasks q !! task_id with
  | Some task =>
      (TaskQueue._execute_task_start now task_id q).2 = Ok ()
      ∧ (TaskQueue._execute_task_finish now task_id o q).2 = Ok ()
      ∧ ∀ max_age current_time q',
          expired max_age current_time task →
          TaskQueue.cleanup_old_tasks max_age current_time q = (q', Ok ()) →
          TaskQueue._execute_task_start now task_id q'
          = (q', Raise (TaskQueue.key_error task_id))
          ∧ TaskQueue._execute_task_finish now task_id o q'
            = (q', Raise (TaskQueue.key_error task_id))
  | None =>
      TaskQueue._execute_task_start now task_id q
      = (q, Raise (TaskQueue.key_error task_id))
      ∧ TaskQueue._execute_task_finish now task_id o q
        = (q, Raise (TaskQueue.key_error task_id))
      ∧ ∀ now' func args kwargs,
          TaskQueue._execute_task now now' task_id func args kwargs q
          = (q, Raise
                  match bind_kwargs "TaskQueue._execute_task"
                          TaskQueue._execute_task_params kwargs with
                  | Ok _ => TaskQueue.key_error task_id
                  | Raise e => e
                  end)
  end.
Proof.
  intros Ho. destruct (TaskQueue._tasks q !! task_id) as [task|] eqn:Htask.
  - split_and!.
    + by rewrite (start_present now task_id q task).
    + destruct o as [v|e].
      * by rewrite (finish_returned_present now task_id v q task).
      * by rewrite (finish_raised_present now task_id e q task); [|apply Ho|].
    + intros max_age current_time q' Hexp Hrun.
      destruct (cleanup_old_tasks_spec max_age current_time q)
        as (q1 & Hrun1 & _ & _ & Hlook).
      rewrite Hrun in Hrun1. injection Hrun1 as <-.
      assert (Hgone : TaskQueue._tasks q' !! task_id = None).
      { rewrite Hlook, Htask. cbn. by rewrite decide_True. }
      split; [by apply start_absent|by apply finish_absent].
  - split_and!; [by apply start_absent|by apply finish_absent|].
    intros now' func args kwargs.
    destruct (bind_kwargs "TaskQueue._execute_task"
                TaskQueue._execute_task_params kwargs) as [[]|e] eqn:Hb.
    + unfold TaskQueue._execute_task. rewrite execute_bound by done.
      unfold bind. by rewrite start_absent.
    + by apply execute_task_unbound.
Qed.

Lemma execute_task_needs_record_witness :
  TaskQueue._execute_task_start 3 "a" example_queue
  = (example_queue, Raise (TaskQueue.key_error "a"))
  ∧ TaskQueue._execute_task_finish 3 "a" (Returned PyNone) example_queue
    = (example_queue, Raise (TaskQueue.key_error "a"))
  ∧ ∀ now' func args kwargs,
      TaskQueue._execute_task 3 now' "a" func args kwargs example_queue
      = (example_queue,
         Raise
           match bind_kwargs "TaskQueue._execute_task"
                   TaskQueue._execute_task_params kwargs with
           | Ok _ => TaskQueue.key_error "a"
           | Raise e => e
           end).
Proof.
  apply (execute_task_needs_record example_queue "a" 3 (Returned PyNone)).
  intros e He. discriminate He.
Defined.

Lemma swept_run_outputs :
  (run swept_run example_queue).2
  = [TaskId "a"; Nothing; Nothing; Escaped (TaskQueue.key_error "a"); Status None].
Proof. by vm_compute. Qed.

(** ** The retention sweep *)

Lemma size_delete_present (m : gmap string Task.t) (tid : string) (task : Task.t) :
  m !! tid = Some task → size m = S (size (delete tid m)).
Proof.
  intros H. rewrite <- (insert_id m tid task H) at 1.
  rewrite <- insert_delete_eq. apply map_size_insert_None, lookup_delete_eq.
Qed.

Lemma delete_all_size (tids : list string) (q q' : TaskQueue.t) :
  TaskQueue.delete_all tids q = (q', Ok ()) →
  size (TaskQueue._tasks q) = (size (TaskQueue._tasks q') + length tids)%nat.
Proof.
  revert q. induction tids as [|t tids IH]; intros q.
  - cbn. unfold ret. intros [= <-]. lia.
  - cbn. unfold bind, TaskQueue.delitem_task.
    destruct (TaskQueue._tasks q !! t) as [task|] eqn:Htask; [|done].
    intros Hrun. apply IH in Hrun. cbn in Hrun.
    rewrite (size_delete_present _ t task Htask). lia.
Qed.

(** C4, as stated, fails: [cleanup_old_tasks(max_age=0)] at the clock
    reading at which a task was submitted returns [None], not a count, and
    the status query on that task still finds the record. *)
Lemma sweep_zero_keeps_same_reading :
  ∃ q' d,
    TaskQueue.cleanup_old_tasks 0 5 (final same_reading_run example_queue)
    = (q', Ok ())
    ∧ TaskQueue.get_task_status "a" q' = Ok (Some d).
Proof. eexists _, _. split; by vm_compute. Qed.

(** C4, amended: [cleanup_old_tasks(max_age)] never raises and returns
    nothing; it removes exactly the records whose [created_at] lies more
    than [max_age] before the clock reading it takes, whatever their
    status, and leaves every other record as it was; the number of records
    it removed is the number it writes to the log; and after
    [cleanup_old_tasks(max_age=0)] the status query returns not-found for
    every identifier whose record was created strictly before that
    reading. *)
Theorem sweep_removes_expired (max_age current_time : Z) (q : TaskQueue.t) :
  ∃ q' (removed : nat),
    TaskQueue.cleanup_old_tasks max_age current_time q = (q', Ok ())
    ∧ (∀ tid, TaskQueue.get_task tid q'
              = swept max_age current_time (TaskQueue.get_task tid q))
    ∧ (∀ tid task, TaskQueue.get_task tid q = Some task →
         expired max_age current_time task →
         TaskQueue.get_task_status tid q' = Ok None)
    ∧ size (TaskQueue._tasks q) = (size (TaskQueue._tasks q') + removed)%nat
    ∧ TaskQueue.log q'
      = (TaskQueue.log q
         ++ ["Cleaned up " +:+ pretty removed +:+ " old tasks"])%list
    ∧ (max_age = 0 →
       ∀ tid task, TaskQueue.get_task tid q = Some task →
         Task.created_at task < current_time →
         TaskQueue.get_task_status tid q' = Ok None).
Proof.
  destruct (cleanup_old_tasks_spec max_age current_time q)
    as (q' & Hrun & _ & Hlog & Hlook).
  assert (Hgone : ∀ tid task, TaskQueue.get_task tid q = Some task →
    expired max_age current_time task →
    TaskQueue.get_task_status tid q' = Ok None).
  { intros tid task Htask Hexp. apply get_task_status_None.
    unfold TaskQueue.get_task in *.
    rewrite Hlook, Htask. cbn. by rewrite decide_True. }
  exists q', (length (TaskQueue.to_remove max_age current_time q)).
  split_and!; [done|exact Hlook|exact Hgone| |done|].
  - unfold TaskQueue.cleanup_old_tasks, bind in Hrun.
    destruct (TaskQueue.delete_all _ q) as [q1 [[]|e]] eqn:Hdel; [|done].
    apply delete_all_size in Hdel. cbn in Hrun. by injection Hrun as <-.
  - intros -> tid task Htask Hlt. apply (Hgone tid task Htask).
    unfold expired. lia.
Qed.

(** ** Timestamps *)








(** ** The queue on the external store *)

Lemma dict_get_set_eq {A : Type} (k : string) (v : A) (d : list (string * A)) :
  dict_get k (dict_set k v d) = Some v.
Proof.
  induction d as [|[k' v'] d IH]; cbn.
  - by rewrite decide_True.
  - case_decide as Hk; cbn.
    + by rewrite decide_True.
    + by rewrite decide_False.
Qed.

Lemma dict_get_set_ne {A : Type} (k k' : string) (v : A) (d : list (string * A)) :
  k ≠ k' → dict_get k (dict_set k' v d) = dict_get k d.
Proof.
  intros Hne. induction d as [|[k'' v''] d IH]; cbn.
  - by rewrite decide_False.
  - destruct (decide (k' = k'')) as [->|Hk]; cbn.
    + by rewrite !decide_False.
    + case_decide; [done|apply IH].
Qed.

Lemma hgetall_hset (key field v : string)
    (db : gmap string (list (string * string))) :
  redis.hgetall key (redis.hset key field v db)
  = dict_set field v (redis.hgetall key db).
Proof. unfold redis.hgetall, redis.hset. by rewrite lookup_insert_eq. Qed.

Lemma hset_other (key key' field v : string)
    (db : gmap string (list (string * string))) :
  key ≠ key' → redis.hset key field v db !! key' = db !! key'.
Proof. intros Hne. unfold redis.hset. by rewrite lookup_insert_ne. Qed.

Lemma hgetall_hset_mapping (key : string) (mapping : list (string * string))
    (db : gmap string (list (string * string))) :
  redis.hgetall key (redis.hset_mapping key mapping db)
  = foldl (λ h item, dict_set item.1 item.2 h) (redis.hgetall key db) mapping.
Proof.
  unfold redis.hset_mapping. revert db.
  induction mapping as [|[f v] mapping IH]; intros db; [done|].
  cbn. by rewrite IH, hgetall_hset.
Qed.



(** The text [None] is not JSON. *)
Lemma loads_None : json.loads "None" = Raise json.expecting_value.
Proof. reflexivity. Qed.

Lemma decode_fields_cons (k v : string) (data : list (string * string))
    (acc : list (string * PyValue)) :
  RedisTaskQueue.decode_fields ((k, v) :: data) acc
  = (v' ← (if bool_decide (k = "result") && negb (bool_decide (v = ""))
           then json.loads v else Ok (PyStr v));
     RedisTaskQueue.decode_fields data (dict_set k v' acc)).
Proof. reflexivity. Qed.

(** A hash whose [result] field holds the text [None] cannot be decoded. *)
Lemma decode_fields_result_None (data : list (string * string))
    (acc : list (string * PyValue)) :
  dict_get "result" data = Some "None" →
  RedisTaskQueue.decode_fields data acc = Raise json.expecting_value.
Proof.
  revert acc. induction data as [|[k v] data IH]; intros acc; [done|].
  rewrite decode_fields_cons. cbn [dict_get]. case_decide as Hk.
  - intros [= ->]. subst k. by rewrite loads_None.
  - intros Hget. rewrite bool_decide_eq_false_2 by done.
    cbn [andb mbind Result_bind]. unfold mbind, Result_bind. by apply IH.
Qed.

(** What [submit] does on a store that answers. *)
Lemma redis_submit_connected (uuid4 : string) (now1 now2 : Z) (func : Callable)
    (args : list PyValue) (kwargs : list (string * PyValue))
    (db : gmap string (list (string * string))) (p : ThreadPoolExecutor.t)
    (l : list string) :
  bind_kwargs "RedisTaskQueue.submit" TaskQueue.submit_params kwargs = Ok () →
  RedisTaskQueue.submit uuid4 now1 now2 func args kwargs
    (RedisTaskQueue.Connected db p l)
  = (RedisTaskQueue.Connected
       (redis.hset_mapping (RedisTaskQueue.task_key uuid4)
          [("id", uuid4); ("status", "pending");
           ("created_at", float_repr now1); ("updated_at", float_repr now2);
           ("result", "None"); ("error", "None")] db)
       (ThreadPoolExecutor.submit (mkItem uuid4 func args kwargs) p) l,
     Ok uuid4).
Proof.
  intros Hb. unfold RedisTaskQueue.submit, bind at 1, RedisTaskQueue.lift.
  by rewrite Hb.
Qed.

(** A call of [submit] that does not bind raises and does nothing, in
    either mode. *)
Lemma redis_submit_unbound (uuid4 : string) (now1 now2 : Z) (func : Callable)
    (args : list PyValue) (kwargs : list (string * PyValue))
    (q : RedisTaskQueue.t) (e : PyExc) :
  bind_kwargs "RedisTaskQueue.submit" TaskQueue.submit_params kwargs = Raise e →
  RedisTaskQueue.submit uuid4 now1 now2 func args kwargs q = (q, Raise e).
Proof.
  intros Hb. unfold RedisTaskQueue.submit, bind at 1, RedisTaskQueue.lift.
  by rewrite Hb.
Qed.



(** On the external store a result that [json.dumps] rejects is recorded
    as COMPLETED first and as FAILED right after: the status is written
    before the result is encoded, inside the [try] block. *)
Lemma redis_finish_unserializable (now : Z) (task_id ty : string)
    (db : gmap string (list (string * string))) (p : ThreadPoolExecutor.t)
    (l : list string) :
  RedisTaskQueue._execute_task_finish now task_id (Returned (PyObject ty))
    (RedisTaskQueue.Connected db p l)
  = (RedisTaskQueue.Connected
       (redis.hset (RedisTaskQueue.task_key task_id) "updated_at" (float_repr now)
          (redis.hset (RedisTaskQueue.task_key task_id) "error"
             (exc_str (json.not_serializable ty))
             (redis.hset (RedisTaskQueue.task_key task_id) "status" "failed"
                (redis.hset (RedisTaskQueue.task_key task_id) "status"
                   "completed" db)))) p l,
     Ok ()).
Proof. reflexivity. Qed.

(** C7 does not hold of the code: on a store that answers, the status
    lookup of a task that was just submitted raises.  [submit] writes
    [str(None)], the text [None], into the fields [result] and [error];
    [get_task_status] passes every non-empty [result] text to [json.loads],
    which rejects it.  The same happens as long as the worker has not
    written a result, that is for PENDING, PROCESSING and FAILED tasks.
    This is so for every call of [submit] that returns an identifier; the
    only other calls are those whose keywords do not bind, which raise
    [TypeError] and submit nothing. *)
Theorem pending_lookup_raises (uuid4 : string) (now1 now2 : Z) (func : Callable)
    (args : list PyValue) (kwargs : list (string * PyValue))
    (db : gmap string (list (string * string))) (p : ThreadPoolExecutor.t)
    (l : list string) :
  match bind_kwargs "RedisTaskQueue.submit" TaskQueue.submit_params kwargs with
  | Ok _ =>
      ∃ q', RedisTaskQueue.submit uuid4 now1 now2 func args kwargs
              (RedisTaskQueue.Connected db p l) = (q', Ok uuid4)
            ∧ RedisTaskQueue.get_task_status uuid4 q'
              = (q', Raise (mkExc JSONDecodeError "Expecting value"))
  | Raise e =>
      RedisTaskQueue.submit uuid4 now1 now2 func args kwargs
        (RedisTaskQueue.Connected db p l)
      = (RedisTaskQueue.Connected db p l, Raise e)
  end.
Proof.
  destruct (bind_kwargs "RedisTaskQueue.submit" TaskQueue.submit_params kwargs)
    as [[]|e] eqn:Hb; [|by apply redis_submit_unbound].
  eexists. split; [by apply redis_submit_connected|].
  unfold RedisTaskQueue.get_task_status.
  set (key := RedisTaskQueue.task_key uuid4).
  set (data := redis.hgetall key _).
  assert (Hres : dict_get "result" data = Some "None").
  { unfold data. rewrite hgetall_hset_mapping. cbn [foldl fst snd].
    rewrite dict_get_set_ne by done. apply dict_get_set_eq. }
  destruct data as [|item data]; [done|].
  by rewrite (decode_fields_result_None _ _ Hres).
Qed.

(** A whole life of a task on the external store: the lookup raises while
    the task is PENDING and while it is PROCESSING; once it is COMPLETED the
    lookup returns a record whose timestamps are texts and whose [error] is
    the text [None]. *)
Lemma connected_run_outputs :
  RedisTaskQueue.__init__ (Ok ∅) 4 = Ok connected_queue
  ∧ (run [Submit "a" 1 2 returns_n42 [] []; GetTaskStatus "a"; WorkerStart 3;
          GetTaskStatus "a"; WorkerFinish 0 4; GetTaskStatus "a"]
       connected_queue).2
    = [TaskId "a";
       Escaped (mkExc JSONDecodeError "Expecting value");
       Nothing;
       Escaped (mkExc JSONDecodeError "Expecting value");
       Nothing;
       Status (Some [("id", PyStr "a"); ("status", PyStr "completed");
                     ("created_at", PyStr "1"); ("updated_at", PyStr "4");
                     ("result", PyDict [("n", PyInt 42)]);
                     ("error", PyStr "None")])].
Proof. split; by vm_compute. Qed.

(** A result that [json.dumps] rejects: the record is marked COMPLETED,
    then FAILED, and the lookup raises. *)
Lemma connected_unserializable_outputs :
  (run [Submit "a" 1 2 returns_set [] []; WorkerStart 3;
        WorkerFinish 0 4; GetTaskStatus "a"] connected_queue).2
  = [TaskId "a"; Nothing; Nothing;
     Escaped (mkExc JSONDecodeError "Expecting value")].
Proof. by vm_compute. Qed.

(** ** Lookup of an identifier without a record *)









(** ** Fallback to the in-memory queue *)





Lemma fallback_polling_outputs :
  RedisTaskQueue.__init__ (Raise unreachable) 4 = Ok fallback_queue
  ∧ (run polling_run fallback_queue).2 = (run polling_run example_queue).2.
Proof. split; by vm_compute. Qed.

(** ** More on the in-memory queue *)

(** X1: a call of [submit] whose keywords bind returns the identifier it
    drew; a status query made right after it finds the new record, PENDING,
    with the two clock readings and with [result] and [error] both [None]
    (also when the identifier had a record before: that record is
    overwritten); the lookup of every other identifier is what it was; and
    the job joins the end of the pool's queue.  A call with a keyword named
    [self] or [func] raises [TypeError] and changes nothing: no record, no
    job and no line in the log. *)
Theorem submit_visible (q : TaskQueue.t) (uuid4 : string) (now1 now2 : Z)
    (func : Callable) (args : list PyValue) (kwargs : list (string * PyValue)) :
  match bind_kwargs "TaskQueue.submit" TaskQueue.submit_params kwargs with
  | Ok _ =>
      ∃ q',
        TaskQueue.submit uuid4 now1 now2 func args kwargs q = (q', Ok uuid4)
        ∧ TaskQueue.get_task_status uuid4 q'
          = Ok (Some [("id", PyStr uuid4); ("status", PyStr "pending");
                      ("created_at", PyFloat (float_repr now1));
                      ("updated_at", PyFloat (float_repr now2));
                      ("result", PyNone); ("error", PyNone)])
        ∧ (∀ tid, tid ≠ uuid4 →
             TaskQueue.get_task tid q' = TaskQueue.get_task tid q)
        ∧ waiting q' = (waiting q ++ [mkItem uuid4 func args kwargs])%list
        ∧ at_work q' = at_work q
  | Raise e =>
      TaskQueue.submit uuid4 now1 now2 func args kwargs q = (q, Raise e)
      ∧ exc_class e = TypeError
      ∧ ∃ k, (k = "self" ∨ k = "func") ∧ k ∈ kwargs.*1
             ∧ e = multiple_values "TaskQueue.submit" k
  end.
Proof.
  destruct (bind_kwargs "TaskQueue.submit" TaskQueue.submit_params kwargs)
    as [[]|e] eqn:Hb.
  - rewrite submit_bound by done. eexists.
    split_and!; [done| |intros tid Hne|done|done].
    + rewrite (get_task_status_Some _ _
                 (Task.mk uuid4 PENDING now1 now2 PyNone None)); [done|].
      unfold TaskQueue.get_task. cbn. by rewrite lookup_insert_eq.
    + unfold TaskQueue.get_task. cbn. by rewrite lookup_insert_ne.
  - rewrite (submit_unbound _ _ _ _ _ _ _ e) by done.
    apply bind_kwargs_Raise in Hb as (Hc & k & Hk & Hin & ->).
    split_and!; [done..|]. exists k. split_and!; [|done..].
    unfold TaskQueue.submit_params in Hin. set_solver.
Qed.

(** A step puts no item into the pool except for the identifier it drew. *)
Lemma transition_items (q q' : TaskQueue.t) (ev : Event) (out : Output)
    (tid : string) :
  Transition q ev q' out → tid ∉ submitted ev → no_item tid q → no_item tid q'.
Proof.
  unfold no_item, waiting, at_work. intros Htr Hnew [Hw Hr].
  destruct Htr as [uuid4 now1 now2 func args kwargs q' Ht Hp|task_id
    |max_age now q' Ht Hp|now Htake|now w p task q' Htake Htask Ht Hp
    |now w p q' Htake Htask Ht Hp|k now Hk|k now w v task q' Hk Hrun Htask Ht Hp
    |k now w e task q' Hk Hrun He Htask Ht Hp|k now w e q' Hk Hrun He Ht Hp
    |k now w q' Hk Hrun Htask Ht Hp
    |uuid4 now1 now2 func args kwargs e Hbind|now w p e q' Htake Hbind Ht Hp]; try done;
    try (apply take_Some in Htake as [Hwq Hrq]; rewrite Hwq in Hw);
    rewrite ?Hp; cbn; rewrite ?Hrq;
    try (split; [done|]; intros Hin; by apply Hr, (fmap_delete_elem_of _ _ k)).
  - split; [|done]. rewrite fmap_app. cbn in *. set_solver.
  - by split.
  - split; [set_solver|]. rewrite fmap_app. cbn in *. set_solver.
  - split; [set_solver|done].
  - split; [set_solver|done].
Qed.

(** A step leaves the record of an identifier without an item as it is,
    unless it is the sweep removing it. *)
Lemma transition_untouched (q q' : TaskQueue.t) (ev : Event) (out : Output)
    (tid : string) :
  Transition q ev q' out → tid ∉ submitted ev → no_item tid q →
  TaskQueue._tasks q' !! tid = TaskQueue._tasks q !! tid
  ∨ TaskQueue._tasks q' !! tid = None.
Proof.
  unfold no_item, waiting, at_work. intros Htr Hnew [Hw Hr].
  assert (Hrun : ∀ k w,
    ThreadPoolExecutor.running (TaskQueue._executor q) !! k = Some w →
    item_task_id w ≠ tid).
  { intros k w Hk <-. apply Hr, list_elem_of_fmap_2.
    by eapply list_elem_of_lookup_2. }
  destruct Htr as [uuid4 now1 now2 func args kwargs q' Ht Hp|task_id
    |max_age now q' Ht Hp|now Htake|now w p task q' Htake Htask Ht Hp
    |now w p q' Htake Htask Ht Hp|k now Hk|k now w v task q' Hk Hrun' Htask Ht Hp
    |k now w e task q' Hk Hrun' He Htask Ht Hp|k now w e q' Hk Hrun' He Ht Hp
    |k now w q' Hk Hrun' Htask Ht Hp
    |uuid4 now1 now2 func args kwargs e Hbind|now w p e q' Htake Hbind Ht Hp];
    try (left; congruence).
  - left. rewrite Ht, lookup_insert_ne; [done|]. set_solver.
  - rewrite Ht. destruct (TaskQueue._tasks q !! tid); cbn; [|by left].
    case_decide; [by right|by left].
  - left. apply take_Some in Htake as [Hwq _]. rewrite Hwq in Hw.
    rewrite Ht, lookup_insert_ne; [done|]. set_solver.
  - left. rewrite Ht, lookup_insert_ne; [done|]. by eapply Hrun.
  - left. rewrite Ht, lookup_insert_ne; [done|]. by eapply Hrun.
Qed.

Lemma states_step (evs : list Event) (q0 q : TaskQueue.t) (i : nat) (ev : Event) :
  states evs q0 !! i = Some q → evs !! i = Some ev →
  states evs q0 !! S i = Some (step ev q).1.
Proof.
  revert q0 i. induction evs as [|ev' evs IH]; intros q0 i Hq Hev; [done|].
  destruct i as [|i]; cbn in *.
  - injection Hq as <-. injection Hev as <-. by destruct evs.
  - by apply IH.
Qed.

Lemma states_drop (evs : list Event) (q0 q : TaskQueue.t) (i d : nat) :
  states evs q0 !! i = Some q →
  states evs q0 !! (i + d)%nat = states (drop i evs) q !! d.
Proof.
  revert q0 i. induction evs as [|ev evs IH]; intros q0 i Hq.
  - destruct i as [|i]; cbn in Hq; [|done]. by injection Hq as <-.
  - destruct i as [|i]; cbn in *.
    + by injection Hq as <-.
    + by apply IH.
Qed.

(** The record of an identifier that has no item and is not drawn again
    stays as it is until it is removed, and then stays removed. *)
Lemma later_same_or_gone (evs : list Event) (q q' : TaskQueue.t) (tid : string)
    (o : option Task.t) (d : nat) :
  tid ∉ evs ≫= submitted → no_item tid q →
  TaskQueue._tasks q !! tid = o ∨ TaskQueue._tasks q !! tid = None →
  states evs q !! d = Some q' →
  TaskQueue._tasks q' !! tid = o ∨ TaskQueue._tasks q' !! tid = None.
Proof.
  revert q d. induction evs as [|ev evs IH]; intros q d Hnew Hitem Hq Hd.
  - destruct d as [|d]; cbn in Hd; [|done]. by injection Hd as <-.
  - destruct d as [|d]; cbn in Hd; [by injection Hd as <-|].
    rewrite bind_cons in Hnew. apply not_elem_of_app in Hnew as [Hnew1 Hnew2].
    pose proof (step_sound ev q) as Htr.
    eapply IH; [done| |  |done].
    + by eapply transition_items.
    + destruct (transition_untouched _ _ _ _ tid Htr Hnew1 Hitem) as [Heq|Heq];
        rewrite Heq; [done|by right].
Qed.

Lemma terminal_no_item (q : TaskQueue.t) (tid : string) (task : Task.t) :
  consistent q → TaskQueue._tasks q !! tid = Some task →
  terminal (Task.status task) = true → no_item tid q.
Proof.
  intros Hc Htask Hterm. split; intros Hin;
    apply list_elem_of_fmap in Hin as (w & -> & Hw).
  - rewrite (c_waiting q Hc w task Hw Htask) in Hterm. done.
  - rewrite (c_at_work q Hc w task Hw Htask) in Hterm. done.
Qed.

(** X2: in a run of a new in-memory queue in which [uuid4] never repeats,
    a record that is COMPLETED or FAILED is never written again: in every
    later state the lookup of its identifier gives the very same record,
    with the same result, error and timestamps, or nothing once the sweep
    has removed it. *)
Theorem terminal_record_frozen (max_workers : Z) (q0 q q' : TaskQueue.t)
    (evs : list Event) (tid : string) (i j : nat) (task : Task.t) :
  TaskQueue.__init__ max_workers = Ok q0 →
  uuids_unique evs →
  (i ≤ j)%nat →
  states evs q0 !! i = Some q →
  states evs q0 !! j = Some q' →
  TaskQueue.get_task tid q = Some task →
  terminal (Task.status task) = true →
  TaskQueue.get_task tid q' = Some task ∨ TaskQueue.get_task tid q' = None.
Proof.
  intros Hinit Hnd Hij Hq Hq' Htask Hterm. unfold TaskQueue.get_task in *.
  destruct (states_invariant wf wf_step evs q0 i q (wf_init _ _ _ Hinit Hnd) Hq)
    as (Hc & _ & Hfresh).
  replace j with (i + (j - i))%nat in Hq' by lia.
  rewrite (states_drop evs q0 q i _ Hq) in Hq'.
  eapply (later_same_or_gone (drop i evs) q q' tid); [| | |done].
  - intros Hin. apply (Hfresh tid Hin). left. by eexists.
  - by eapply terminal_no_item.
  - by left.
Qed.

Lemma terminal_record_frozen_witness :
  TaskQueue.get_task "a" (final settled_run example_queue)
  = Some (Task.mk "a" COMPLETED 1 4 (PyDict [("n", PyInt 42)]) None)
  ∨ TaskQueue.get_task "a" (final settled_run example_queue) = None.
Proof.
  apply (terminal_record_frozen 4 example_queue
           (final (take 3 settled_run) example_queue)
           (final settled_run example_queue) settled_run "a" 3 8
           (Task.mk "a" COMPLETED 1 4 (PyDict [("n", PyInt 42)]) None)).
  - reflexivity.
  - unfold uuids_unique. cbn. repeat constructor; set_solver.
  - lia.
  - vm_compute. reflexivity.
  - vm_compute. reflexivity.
  - vm_compute. reflexivity.
  - reflexivity.
Defined.

(** X3: in a run of a new in-memory queue in which [uuid4] never repeats,
    when the callable of a running task raises an exception that
    [except Exception] does not catch (such as [SystemExit]), the wrapper
    lets it escape and writes nothing: the record was PROCESSING and in
    every later state it is still that same record, PROCESSING with the
    timestamp of the start, unless the sweep has removed it. *)
Theorem uncaught_failure_stays_processing (max_workers : Z)
    (q0 q q' : TaskQueue.t) (evs : list Event) (i j k : nat) (now : Z)
    (w : WorkItem) (e : PyExc) (task : Task.t) :
  TaskQueue.__init__ max_workers = Ok q0 →
  uuids_unique evs →
  evs !! i = Some (WorkerFinish k now) →
  states evs q0 !! i = Some q →
  at_work q !! k = Some w →
  run_item w = Raised e →
  caught e = false →
  TaskQueue.get_task (item_task_id w) q = Some task →
  (i < j)%nat →
  states evs q0 !! j = Some q' →
  (step (WorkerFinish k now) q).2 = Escaped e
  ∧ Task.status task = PROCESSING
  ∧ (TaskQueue.get_task (item_task_id w) q' = Some task
     ∨ TaskQueue.get_task (item_task_id w) q' = None).
Proof.
  intros Hinit Hnd Hev Hq Hk Hrun He Htask Hij Hq'.
  unfold TaskQueue.get_task, at_work in *.
  destruct (states_wf _ _ _ _ _ _ Hinit Hnd Hq Hev) as (Hc & Hnd' & Hfresh).
  assert (Hin : w ∈ at_work q) by (by eapply list_elem_of_lookup_2).
  assert (Hstep : step (WorkerFinish k now) q
                  = (TaskQueue.set_executor
                       (ThreadPoolExecutor.leave k (TaskQueue._executor q)) q,
                     Escaped e)).
  { unfold step, TaskQueue_step, TaskQueue.worker_finish.
    by rewrite Hk, Hrun, finish_uncaught. }
  split_and!.
  - by rewrite Hstep.
  - by eapply (c_at_work q Hc w).
  - pose proof (states_step evs q0 q i _ Hq Hev) as Hq1. rewrite Hstep in Hq1.
    cbn [fst] in Hq1.
    replace j with (S i + (j - S i))%nat in Hq' by lia.
    rewrite (states_drop evs q0 _ (S i) _ Hq1) in Hq'.
    eapply (later_same_or_gone (drop (S i) evs) _ q' (item_task_id w)); [| | |done].
    + intros Hsub. apply (Hfresh (item_task_id w)).
      * rewrite bind_cons. set_solver.
      * left. by eexists.
    + split; unfold waiting, at_work; cbn.
      * intros Hw. apply (c_disjoint q Hc _ Hw). by apply list_elem_of_fmap_2.
      * intros Hd. apply list_elem_of_fmap in Hd as (y & Hy & Hd).
        by apply (delete_other_key item_task_id _ k w y (c_at_work_nodup q Hc) Hk Hd).
    + by left.
Qed.

Lemma uncaught_failure_stays_processing_witness :
  (step (WorkerFinish 0 4)
     (final [Submit "a" 1 2 raises_exit [] []; WorkerStart 3] example_queue)).2
  = Escaped (mkExc SystemExit "")
  ∧ Task.status (Task.mk "a" PROCESSING 1 3 PyNone None) = PROCESSING
  ∧ (TaskQueue.get_task "a" (final exit_run example_queue)
     = Some (Task.mk "a" PROCESSING 1 3 PyNone None)
     ∨ TaskQueue.get_task "a" (final exit_run example_queue) = None).
Proof.
  apply (uncaught_failure_stays_processing 4 example_queue
           (final [Submit "a" 1 2 raises_exit [] []; WorkerStart 3] example_queue)
           (final exit_run example_queue) exit_run 2 5 0 4
           (mkItem "a" raises_exit [] []) (mkExc SystemExit "")
           (Task.mk "a" PROCESSING 1 3 PyNone None)).
  - reflexivity.
  - unfold uuids_unique. cbn. apply NoDup_singleton.
  - reflexivity.
  - reflexivity.
  - reflexivity.
  - reflexivity.
  - reflexivity.
  - vm_compute. reflexivity.
  - lia.
  - reflexivity.
Defined.

Lemma take_bound (p p' : ThreadPoolExecutor.t) (w : WorkItem) :
  ThreadPoolExecutor.take p = Some (w, p') →
  (length (ThreadPoolExecutor.running p) < ThreadPoolExecutor._max_workers p)%nat
  ∧ ThreadPoolExecutor._max_workers p' = ThreadPoolExecutor._max_workers p.
Proof.
  unfold ThreadPoolExecutor.take. destruct (ThreadPoolExecutor._work_queue p); [done|].
  destruct (_ <? _)%nat eqn:Hlt; [|done]. intros [= <- <-].
  by apply Nat.ltb_lt in Hlt.
Qed.

Lemma transition_bound (q q' : TaskQueue.t) (ev : Event) (out : Output) (n : nat) :
  Transition q ev q' out →
  ThreadPoolExecutor._max_workers (TaskQueue._executor q) = n
  ∧ (length (at_work q) ≤ n)%nat →
  ThreadPoolExecutor._max_workers (TaskQueue._executor q') = n
  ∧ (length (at_work q') ≤ n)%nat.
Proof.
  unfold at_work. intros Htr [Hn Hlen].
  destruct Htr as [uuid4 now1 now2 func args kwargs q' Ht Hp|task_id
    |max_age now q' Ht Hp|now Htake|now w p task q' Htake Htask Ht Hp
    |now w p q' Htake Htask Ht Hp|k now Hk|k now w v task q' Hk Hrun Htask Ht Hp
    |k now w e task q' Hk Hrun He Htask Ht Hp|k now w e q' Hk Hrun He Ht Hp
    |k now w q' Hk Hrun Htask Ht Hp
    |uuid4 now1 now2 func args kwargs e Hbind|now w p e q' Htake Hbind Ht Hp]; try done;
    try (pose proof (take_bound _ _ _ Htake) as [Hlt Hmax];
         apply take_Some in Htake as [_ Hr]);
    rewrite ?Hp; cbn; rewrite ?length_app, ?Hr; cbn;
    try (split; [congruence|lia]).
  all: split; [done|].
  all: pose proof (length_filter (λ _, True)
                     (ThreadPoolExecutor.running (TaskQueue._executor q))).
  all: rewrite length_delete by (by eexists); lia.
Qed.

(** X4: in every state of a run of a new in-memory queue built with
    [max_workers] workers, at most [max_workers] wrappers are running, and
    the pool keeps the size it was built with. *)
Theorem pool_never_exceeds (max_workers : Z) (q0 q : TaskQueue.t)
    (evs : list Event) (i : nat) :
  TaskQueue.__init__ max_workers = Ok q0 →
  states evs q0 !! i = Some q →
  (0 < max_workers)%Z
  ∧ ThreadPoolExecutor._max_workers (TaskQueue._executor q)
    = Z.to_nat max_workers
  ∧ (length (at_work q) ≤ Z.to_nat max_workers)%nat.
Proof.
  intros Hinit Hq.
  assert (H0 : (0 < max_workers)%Z
               ∧ ThreadPoolExecutor._max_workers (TaskQueue._executor q0)
                 = Z.to_nat max_workers
               ∧ (length (at_work q0) ≤ Z.to_nat max_workers)%nat).
  { unfold TaskQueue.__init__, ThreadPoolExecutor.__init__ in Hinit.
    case_decide; cbn in Hinit; [done|]. injection Hinit as <-. cbn.
    split_and!; [lia|done|lia]. }
  destruct H0 as (Hpos & H0).
  split; [done|].
  apply (states_invariant
           (λ _ q, ThreadPoolExecutor._max_workers (TaskQueue._executor q)
                   = Z.to_nat max_workers
                   ∧ (length (at_work q) ≤ Z.to_nat max_workers)%nat)
           (λ ev _ q H, transition_bound q _ ev _ (Z.to_nat max_workers)
                          (step_sound ev q) H)
           evs q0 i q H0 Hq).
Qed.

Lemma pool_never_exceeds_witness :
  (0 < 4)%Z
  ∧ ThreadPoolExecutor._max_workers
      (TaskQueue._executor (final example_run example_queue)) = Z.to_nat 4
  ∧ (length (at_work (final example_run example_queue)) ≤ Z.to_nat 4)%nat.
Proof.
  apply (pool_never_exceeds 4 example_queue (final example_run example_queue)
           example_run 3).
  - reflexivity.
  - reflexivity.
Defined.

(** X5: a second sweep at the same clock reading with the same [max_age]
    removes nothing: it leaves the records as the first sweep left them and
    logs a count of 0; neither sweep touches the pool, so the jobs of
    removed records stay queued. *)
Theorem sweep_twice (max_age current_time : Z) (q : TaskQueue.t) :
  ∃ q1 q2,
    TaskQueue.cleanup_old_tasks max_age current_time q = (q1, Ok ())
    ∧ TaskQueue.cleanup_old_tasks max_age current_time q1 = (q2, Ok ())
    ∧ TaskQueue._tasks q2 = TaskQueue._tasks q1
    ∧ TaskQueue.log q2
      = (TaskQueue.log q1 ++ ["Cleaned up 0 old tasks"])%list
    ∧ TaskQueue._executor q2 = TaskQueue._executor q
    ∧ ∀ tid task, TaskQueue.get_task tid q1 = Some task →
        ¬ expired max_age current_time task.
Proof.
  destruct (cleanup_old_tasks_spec max_age current_time q)
    as (q1 & Hrun1 & Hex1 & _ & Hlook1).
  assert (Hkept : ∀ tid task, TaskQueue.get_task tid q1 = Some task →
                              ¬ expired max_age current_time task).
  { intros tid task. unfold TaskQueue.get_task. rewrite Hlook1.
    destruct (TaskQueue._tasks q !! tid) as [task0|]; cbn; [|done].
    case_decide; [done|]. by intros [= <-]. }
  assert (Hnone : TaskQueue.to_remove max_age current_time q1 = []).
  { apply elem_of_nil_inv. intros tid Hin.
    apply to_remove_spec in Hin as (task & Htask & Hexp).
    by apply (Hkept tid task). }
  exists q1, (logged "Cleaned up 0 old tasks" q1).
  split_and!; [done| |done|done|done|done].
  unfold TaskQueue.cleanup_old_tasks. by rewrite Hnone.
Qed.

(** ** The module-level queue *)

Lemma TaskQueue_init_cases (max_workers : Z) :
  ((max_workers ≤ 0)%Z
   ∧ TaskQueue.__init__ max_workers
     = Raise (mkExc ValueError "max_workers must be greater than 0"))
  ∨ ((0 < max_workers)%Z
     ∧ ∃ q, TaskQueue.__init__ max_workers = Ok q
            ∧ TaskQueue._tasks q = ∅
            ∧ waiting q = [] ∧ at_work q = []).
Proof.
  unfold TaskQueue.__init__, ThreadPoolExecutor.__init__, mbind, Result_bind.
  case_decide; [by left|]. right. split; [lia|]. by eexists.
Qed.

(** X6: [get_task_queue] always returns a queue and binds the global to
    it: when the global is unbound it builds an in-memory queue with 4
    workers and no records, otherwise it returns the queue the global is
    bound to and builds nothing; a second call returns the same queue.
    After [initialize_task_queue] has returned, [get_task_queue] returns the
    queue it built: an in-memory queue when the URL is missing or empty, a
    [RedisTaskQueue] otherwise. *)
Theorem get_task_queue_singleton (task_queue : option AnyQueue) :
  (∃ q, get_task_queue task_queue = (Some q, Ok q)
        ∧ get_task_queue (Some q) = (Some q, Ok q)
        ∧ match task_queue with
          | Some q' => q = q'
          | None => ∃ lq, q = InMemory lq ∧ TaskQueue.__init__ 4 = Ok lq
                          ∧ TaskQueue._tasks lq = ∅
          end)
  ∧ (∀ redis_url connect max_workers task_queue',
       initialize_task_queue redis_url connect max_workers task_queue
       = (task_queue', Ok ()) →
       ∃ q, task_queue' = Some q
            ∧ get_task_queue task_queue' = (task_queue', Ok q)
            ∧ if truthy_url redis_url
              then ∃ rq, q = OnRedis rq
                         ∧ RedisTaskQueue.__init__ connect max_workers = Ok rq
              else ∃ lq, q = InMemory lq
                         ∧ TaskQueue.__init__ max_workers = Ok lq).
Proof.
  split.
  - destruct task_queue as [q|].
    + by exists q.
    + eexists. split_and!; [reflexivity..|]. by eexists.
  - intros redis_url connect max_workers task_queue'.
    unfold initialize_task_queue. destruct (truthy_url redis_url).
    + destruct (RedisTaskQueue.__init__ connect max_workers) as [rq|e]; [|done].
      intros [= <-]. eexists. split_and!; [done..|]. by eexists.
    + destruct (TaskQueue.__init__ max_workers) as [lq|e]; [|done].
      intros [= <-]. eexists. split_and!; [done..|]. by eexists.
Qed.

(** X7: [initialize_task_queue] with a pool size that is not positive (0
    or a negative integer) raises [ValueError] whichever backend is
    selected and leaves the global bound as it was.  With a positive pool
    size, and a store that answers or fails with something
    [except Exception] catches, it never raises and rebinds the global;
    unless it is bound to a queue on a store that answered, the new queue
    holds no record, so every status query on it, also for an identifier
    the old queue knew, returns not-found. *)
Theorem initialize_task_queue_edges (redis_url : option string)
    (connect : Result (gmap string (list (string * string))))
    (max_workers : Z) (task_queue : option AnyQueue) :
  (∀ e, connect = Raise e → caught e = true) →
  ((max_workers ≤ 0)%Z →
   initialize_task_queue redis_url connect max_workers task_queue
   = (task_queue, Raise (mkExc ValueError "max_workers must be greater than 0")))
  ∧ ((0 < max_workers)%Z →
     ∃ q, initialize_task_queue redis_url connect max_workers task_queue
          = (Some q, Ok ())
          ∧ ((∃ db p l, truthy_url redis_url = true ∧ connect = Ok db
                        ∧ q = OnRedis (RedisTaskQueue.Connected db p l))
             ∨ ∀ tid, step (GetTaskStatus tid) q = (q, Status None))).
Proof.
  intros Hconn. unfold initialize_task_queue, RedisTaskQueue.__init__.
  destruct (TaskQueue_init_cases max_workers)
    as [[Hn Hinit]|(Hn & lq & Hinit & Htasks & _)].
  - split; [intros _|lia].
    destruct (truthy_url redis_url); [|by rewrite Hinit].
    unfold TaskQueue.__init__ in Hinit.
    destruct (ThreadPoolExecutor.__init__ max_workers) as [p|e'] eqn:Hp; [done|].
    cbn in Hinit. injection Hinit as ->.
    destruct connect as [db|e]; cbn.
    + unfold TaskQueue.__init__. by rewrite Hp.
    + rewrite (Hconn e eq_refl). unfold TaskQueue.__init__. by rewrite Hp.
  - split; [lia|intros _].
    assert (Hlocal : ∀ tid, TaskQueue.get_task_status tid lq = Ok None).
    { intros tid. apply get_task_status_None. unfold TaskQueue.get_task.
      by rewrite Htasks, lookup_empty. }
    destruct (truthy_url redis_url); [|rewrite Hinit].
    + unfold TaskQueue.__init__ in Hinit.
      destruct (ThreadPoolExecutor.__init__ max_workers) as [p|e'] eqn:Hp; [|done].
      destruct connect as [db|e]; cbn.
      * eexists. split; [done|]. left. by eexists _, _, _.
      * rewrite (Hconn e eq_refl). unfold TaskQueue.__init__. rewrite Hp. cbn.
        cbn in Hinit. injection Hinit as <-.
        eexists. split; [done|]. right. intros tid.
        unfold step, AnyQueue_step, step, RedisTaskQueue_step. cbn.
        by rewrite Hlocal.
    + eexists. split; [done|]. right. intros tid.
      unfold step, AnyQueue_step, step, TaskQueue_step. by rewrite Hlocal.
Qed.

Lemma initialize_task_queue_edges_witness :
  initialize_task_queue (Some "redis://cache:6379") (Raise unreachable) (-2)
    (Some (InMemory (final example_run example_queue)))
  = (Some (InMemory (final example_run example_queue)),
     Raise (mkExc ValueError "max_workers must be greater than 0"))
  ∧ ∃ q, initialize_task_queue (Some "redis://cache:6379") (Raise unreachable) 4
           (Some (InMemory (final example_run example_queue)))
         = (Some q, Ok ())
         ∧ ((∃ db p l, truthy_url (Some "redis://cache:6379") = true
                       ∧ Raise unreachable = Ok db
                       ∧ q = OnRedis (RedisTaskQueue.Connected db p l))
            ∨ ∀ tid, step (GetTaskStatus tid) q = (q, Status None)).
Proof.
  assert (Hconn : ∀ e : PyExc,
    Raise (A := gmap string (list (string * string))) unreachable = Raise e
    → caught e = true).
  { intros e He. injection He as <-. reflexivity. }
  split.
  - apply (proj1 (initialize_task_queue_edges (Some "redis://cache:6379")
                    (Raise unreachable) (-2)
                    (Some (InMemory (final example_run example_queue))) Hconn)).
    lia.
  - apply (proj2 (initialize_task_queue_edges (Some "redis://cache:6379")
                    (Raise unreachable) 4
                    (Some (InMemory (final example_run example_queue))) Hconn)).
    lia.
Defined.

(** ** More on the queue on the external store *)

(** The only exception of the encoder is the [TypeError] for an object it
    cannot encode. *)
Lemma dumps_raises_TypeError :
  ∀ (v : PyValue) (e : PyExc), json.dumps v = Raise e → exc_class e = TypeError.
Proof.
  fix IH 1. intros v e. destruct v as [|b|n|r|s|l|d|ty|ty].
  - done.
  - by destruct b.
  - done.
  - done.
  - done.
  - cbn. set (items := fix items (l0 : list PyValue) := _).
    assert (Hitems : ∀ l0 e0, items l0 = Raise e0 → exc_class e0 = TypeError).
    { fix IHl 1. intros [|x l'] e0; [done|]. cbn.
      destruct (json.dumps x) as [x'|ex] eqn:Hx; cbn.
      - destruct (items l') as [r|er] eqn:Hr; cbn; [done|].
        intros [= <-]. by apply (IHl l').
      - intros [= <-]. by apply (IH x). }
    destruct (items l) as [parts|el] eqn:Hl; cbn; [done|].
    intros [= <-]. by apply (Hitems l).
  - cbn. set (members := fix members (d0 : list (string * PyValue)) := _).
    assert (Hmembers : ∀ d0 e0, members d0 = Raise e0 → exc_class e0 = TypeError).
    { fix IHd 1. intros [|[k x] d'] e0; [done|]. cbn.
      destruct (json.dumps x) as [x'|ex] eqn:Hx; cbn.
      - destruct (members d') as [r|er] eqn:Hr; cbn; [done|].
        intros [= <-]. by apply (IHd d').
      - intros [= <-]. by apply (IH x). }
    destruct (members d) as [parts|ed] eqn:Hd; cbn; [done|].
    intros [= <-]. by apply (Hmembers d).
  - cbn. by intros [= <-].
  - cbn. by intros [= <-].
Qed.

Lemma redis_finish_returned (now : Z) (task_id text : string) (v : PyValue)
    (db : gmap string (list (string * string))) (p : ThreadPoolExecutor.t)
    (l : list string) :
  json.dumps v = Ok text →
  RedisTaskQueue._execute_task_finish now task_id (Returned v)
    (RedisTaskQueue.Connected db p l)
  = (RedisTaskQueue.Connected
       (redis.hset (RedisTaskQueue.task_key task_id) "updated_at" (float_repr now)
          (redis.hset (RedisTaskQueue.task_key task_id) "result" text
             (redis.hset (RedisTaskQueue.task_key task_id) "status" "completed"
                db))) p l,
     Ok ()).
Proof. intros Hd. unfold_redis. by rewrite Hd. Qed.

Lemma redis_finish_rejected (now : Z) (task_id : string) (v : PyValue) (e : PyExc)
    (db : gmap string (list (string * string))) (p : ThreadPoolExecutor.t)
    (l : list string) :
  json.dumps v = Raise e →
  RedisTaskQueue._execute_task_finish now task_id (Returned v)
    (RedisTaskQueue.Connected db p l)
  = (RedisTaskQueue.Connected
       (redis.hset (RedisTaskQueue.task_key task_id) "updated_at" (float_repr now)
          (redis.hset (RedisTaskQueue.task_key task_id) "error" (exc_str e)
             (redis.hset (RedisTaskQueue.task_key task_id) "status" "failed"
                (redis.hset (RedisTaskQueue.task_key task_id) "status"
                   "completed" db)))) p l,
     Ok ()).
Proof.
  intros Hd. unfold_redis. rewrite Hd. unfold caught.
  by rewrite (dumps_raises_TypeError v e Hd).
Qed.

Lemma redis_finish_raised (now : Z) (task_id : string) (e : PyExc)
    (db : gmap string (list (string * string))) (p : ThreadPoolExecutor.t)
    (l : list string) :
  caught e = true →
  RedisTaskQueue._execute_task_finish now task_id (Raised e)
    (RedisTaskQueue.Connected db p l)
  = (RedisTaskQueue.Connected
       (redis.hset (RedisTaskQueue.task_key task_id) "updated_at" (float_repr now)
          (redis.hset (RedisTaskQueue.task_key task_id) "error" (exc_str e)
             (redis.hset (RedisTaskQueue.task_key task_id) "status" "failed"
                db))) p l,
     Ok ()).
Proof. intros He. unfold_redis. by rewrite He. Qed.

(** X8: on a store that answers, the [try] statement of
    [RedisTaskQueue._execute_task] lets no exception escape that
    [except Exception] catches, whether the callable raised it or
    [json.dumps] rejected the returned value.  It writes only the hash of
    the task.  Afterwards the hash holds the clock reading as [updated_at],
    and either the status [completed] with the encoded result, or the
    status [failed] with the text of the exception as [error]: the one the
    callable raised, or the encoder's when the result cannot be encoded. *)
Theorem redis_failure_contained (now : Z) (task_id : string) (o : Outcome)
    (db : gmap string (list (string * string))) (p : ThreadPoolExecutor.t)
    (l : list string) :
  (∀ e, o = Raised e → caught e = true) →
  ∃ db',
    RedisTaskQueue._execute_task_finish now task_id o
      (RedisTaskQueue.Connected db p l)
    = (RedisTaskQueue.Connected db' p l, Ok ())
    ∧ (∀ key, key ≠ RedisTaskQueue.task_key task_id → db' !! key = db !! key)
    ∧ dict_get "updated_at" (redis.hgetall (RedisTaskQueue.task_key task_id) db')
      = Some (float_repr now)
    ∧ match o with
      | Returned v =>
          match json.dumps v with
          | Ok text =>
              dict_get "status" (redis.hgetall (RedisTaskQueue.task_key task_id) db')
              = Some "completed"
              ∧ dict_get "result"
                  (redis.hgetall (RedisTaskQueue.task_key task_id) db')
                = Some text
          | Raise e =>
              dict_get "status" (redis.hgetall (RedisTaskQueue.task_key task_id) db')
              = Some "failed"
              ∧ dict_get "error"
                  (redis.hgetall (RedisTaskQueue.task_key task_id) db')
                = Some (exc_str e)
              ∧ exc_class e = TypeError
          end
      | Raised e =>
          dict_get "status" (redis.hgetall (RedisTaskQueue.task_key task_id) db')
          = Some "failed"
          ∧ dict_get "error" (redis.hgetall (RedisTaskQueue.task_key task_id) db')
            = Some (exc_str e)
      end.
Proof.
  intros Ho. destruct o as [v|e]; [destruct (json.dumps v) as [text|e] eqn:Hd|].
  - eexists. split; [by apply redis_finish_returned|].
    split_and!.
    + intros key Hne. by rewrite !hset_other.
    + rewrite hgetall_hset. apply dict_get_set_eq.
    + rewrite !hgetall_hset, !dict_get_set_ne by done. apply dict_get_set_eq.
    + rewrite !hgetall_hset, dict_get_set_ne by done. apply dict_get_set_eq.
  - eexists. split; [by apply redis_finish_rejected|].
    split_and!.
    + intros key Hne. by rewrite !hset_other.
    + rewrite hgetall_hset. apply dict_get_set_eq.
    + rewrite !hgetall_hset, !dict_get_set_ne by done. apply dict_get_set_eq.
    + rewrite !hgetall_hset, dict_get_set_ne by done. apply dict_get_set_eq.
    + by eapply dumps_raises_TypeError.
  - eexists. split; [by apply redis_finish_raised, Ho|].
    split_and!.
    + intros key Hne. by rewrite !hset_other.
    + rewrite hgetall_hset. apply dict_get_set_eq.
    + rewrite !hgetall_hset, !dict_get_set_ne by done. apply dict_get_set_eq.
    + rewrite !hgetall_hset, dict_get_set_ne by done. apply dict_get_set_eq.
Qed.

Lemma redis_failure_contained_witness :
  ∃ db',
    RedisTaskQueue._execute_task_finish 4 "a" (Raised (mkExc ValueError "boom"))
      connected_queue
    = (RedisTaskQueue.Connected db' (ThreadPoolExecutor.mk 4 [] [])
         ["Redis TaskQueue initialized"], Ok ())
    ∧ (∀ key, key ≠ RedisTaskQueue.task_key "a"
            → db' !! key = (∅ : gmap string (list (string * string))) !! key)
    ∧ dict_get "updated_at" (redis.hgetall (RedisTaskQueue.task_key "a") db')
      = Some (float_repr 4)
    ∧ dict_get "status" (redis.hgetall (RedisTaskQueue.task_key "a") db')
      = Some "failed"
    ∧ dict_get "error" (redis.hgetall (RedisTaskQueue.task_key "a") db')
      = Some "boom".
Proof.
  apply (redis_failure_contained 4 "a" (Raised (mkExc ValueError "boom")) ∅
           (ThreadPoolExecutor.mk 4 [] []) ["Redis TaskQueue initialized"]).
  intros e He. injection He as <-. reflexivity.
Defined.

Lemma redis_start_connected_eq (now : Z) (task_id : string)
    (db : gmap string (list (string * string))) (p : ThreadPoolExecutor.t)
    (l : list string) :
  RedisTaskQueue._execute_task_start now task_id (RedisTaskQueue.Connected db p l)
  = (RedisTaskQueue.Connected
       (redis.hset (RedisTaskQueue.task_key task_id) "updated_at" (float_repr now)
          (redis.hset (RedisTaskQueue.task_key task_id) "status" "processing" db))
       p l,
     Ok ()).
Proof. reflexivity. Qed.

Lemma hgetall_missing (key : string) (db : gmap string (list (string * string))) :
  db !! key = None → redis.hgetall key db = [].
Proof. intros H. unfold redis.hgetall. by rewrite H. Qed.

Lemma loads_empty : json.loads "" = Raise json.expecting_value.
Proof. reflexivity. Qed.

Lemma decode_fields_text (k v : string) (data : list (string * string))
    (acc : list (string * PyValue)) :
  k ≠ "result" →
  RedisTaskQueue.decode_fields ((k, v) :: data) acc
  = RedisTaskQueue.decode_fields data (dict_set k (PyStr v) acc).
Proof.
  intros Hk. rewrite decode_fields_cons. by rewrite bool_decide_eq_false_2.
Qed.

Lemma decode_fields_result (text : string) (v : PyValue)
    (data : list (string * string)) (acc : list (string * PyValue)) :
  json.loads text = Ok v →
  RedisTaskQueue.decode_fields (("result", text) :: data) acc
  = RedisTaskQueue.decode_fields data (dict_set "result" v acc).
Proof.
  intros Hl. rewrite decode_fields_cons.
  assert (text ≠ "") by (intros ->; by rewrite loads_empty in Hl).
  rewrite bool_decide_eq_true_2 by done.
  rewrite (bool_decide_eq_false_2 (text = "")) by done. cbn [andb negb].
  by rewrite Hl.
Qed.

(** X10: on the external store a worker never misses the record.  When
    the key of the task holds nothing (the hash was deleted, or never
    written), the start of [RedisTaskQueue._execute_task] creates a hash with
    the two fields [status] and [updated_at] only, and the status lookup
    then returns that partial record, without [id] and [created_at], instead
    of not-found.  When the callable then raises, the hash gets an [error]
    field and the lookup returns the three fields. *)
Theorem redis_worker_recreates_hash (now : Z) (task_id : string)
    (db : gmap string (list (string * string))) (p : ThreadPoolExecutor.t)
    (l : list string) :
  db !! RedisTaskQueue.task_key task_id = None →
  ∃ q',
    RedisTaskQueue.get_task_status task_id (RedisTaskQueue.Connected db p l)
    = (RedisTaskQueue.Connected db p l, Ok None)
    ∧ RedisTaskQueue._execute_task_start now task_id
        (RedisTaskQueue.Connected db p l) = (q', Ok ())
    ∧ RedisTaskQueue.get_task_status task_id q'
      = (q', Ok (Some [("status", PyStr "processing");
                       ("updated_at", PyStr (float_repr now))]))
    ∧ ∀ now' e, caught e = true →
        ∃ q'',
          RedisTaskQueue._execute_task_finish now' task_id (Raised e) q'
          = (q'', Ok ())
          ∧ RedisTaskQueue.get_task_status task_id q''
            = (q'', Ok (Some [("status", PyStr "failed");
                              ("updated_at", PyStr (float_repr now'));
                              ("error", PyStr (exc_str e))])).
Proof.
  intros Hdb. eexists. split_and!.
  - unfold RedisTaskQueue.get_task_status. by rewrite (hgetall_missing _ _ Hdb).
  - apply redis_start_connected_eq.
  - unfold RedisTaskQueue.get_task_status.
    rewrite !hgetall_hset, (hgetall_missing _ _ Hdb).
    set (data := dict_set "updated_at" _ _).
    assert (Hdata : data = [("status", "processing");
                            ("updated_at", float_repr now)]) by reflexivity.
    rewrite Hdata. by rewrite !decode_fields_text by done.
  - intros now' e He. eexists. split; [by apply redis_finish_raised|].
    unfold RedisTaskQueue.get_task_status.
    rewrite !hgetall_hset, (hgetall_missing _ _ Hdb).
    set (data := dict_set "updated_at" _ _).
    assert (Hdata : data = [("status", "failed");
                            ("updated_at", float_repr now');
                            ("error", exc_str e)]) by reflexivity.
    rewrite Hdata. by rewrite !decode_fields_text by done.
Qed.

Lemma redis_worker_recreates_hash_witness :
  ∃ q',
    RedisTaskQueue.get_task_status "gone" connected_queue
    = (connected_queue, Ok None)
    ∧ RedisTaskQueue._execute_task_start 3 "gone" connected_queue = (q', Ok ())
    ∧ RedisTaskQueue.get_task_status "gone" q'
      = (q', Ok (Some [("status", PyStr "processing");
                       ("updated_at", PyStr (float_repr 3))]))
    ∧ ∀ now' e, caught e = true →
        ∃ q'',
          RedisTaskQueue._execute_task_finish now' "gone" (Raised e) q'
          = (q'', Ok ())
          ∧ RedisTaskQueue.get_task_status "gone" q''
            = (q'', Ok (Some [("status", PyStr "failed");
                              ("updated_at", PyStr (float_repr now'));
                              ("error", PyStr (exc_str e))])).
Proof.
  apply (redis_worker_recreates_hash 3 "gone" ∅ (ThreadPoolExecutor.mk 4 [] [])
           ["Redis TaskQueue initialized"]).
  reflexivity.
Defined.

(** ** The in-memory cache *)

Lemma cache_step_keys (call : CacheCall) (c : InMemoryCache.t) :
  dom (InMemoryCache._cache c) = dom (InMemoryCache._expiry c) →
  dom (InMemoryCache._cache (cache_step call c))
  = dom (InMemoryCache._expiry (cache_step call c)).
Proof.
  intros Hdom. destruct call as [now key|now key v ttl|key|]; cbn.
  - unfold InMemoryCache.get. destruct (InMemoryCache._cache c !! key); [|done].
    case_decide; [done|]. cbn. by rewrite !dom_delete_L, Hdom.
  - by rewrite !dom_insert_L, Hdom.
  - by rewrite !dom_delete_L, Hdom.
  - done.
Qed.

(** X11: after any sequence of [get], [set], [delete] and [clear] on a new
    [InMemoryCache], the two dicts [_cache] and [_expiry] have the same
    keys: every cached value has an expiry time (the default 0 of
    [self._expiry.get(key, 0)] is never used) and no expiry time is left
    behind without its value. *)
Theorem cache_keys_agree (calls : list CacheCall) (key : string) :
  dom (InMemoryCache._cache (cache_run calls InMemoryCache.__init__))
  = dom (InMemoryCache._expiry (cache_run calls InMemoryCache.__init__))
  ∧ (is_Some (InMemoryCache._cache (cache_run calls InMemoryCache.__init__) !! key)
     ↔ is_Some (InMemoryCache._expiry (cache_run calls InMemoryCache.__init__)
                !! key)).
Proof.
  assert (Hdom : ∀ c,
    dom (InMemoryCache._cache c) = dom (InMemoryCache._expiry c) →
    dom (InMemoryCache._cache (cache_run calls c))
    = dom (InMemoryCache._expiry (cache_run calls c))).
  { unfold cache_run. induction calls as [|call calls IH]; intros c Hc; [done|].
    cbn. by apply IH, cache_step_keys. }
  specialize (Hdom InMemoryCache.__init__ eq_refl).
  split; [done|]. by rewrite <- !elem_of_dom, Hdom.
Qed.

(** X12: a value stored by [set] at the reading [now] with [ttl] is
    returned by every [get] of the key whose reading is strictly before
    [now + ttl], and such a [get] changes nothing.  A [get] at [now + ttl]
    or later returns [None] and deletes the entry from both dicts, after
    which [get] returns [None] whatever the clock says.  So with a [ttl] of
    0 or less no [get] at or after [now] ever returns the value. *)
Theorem cache_set_then_get (c : InMemoryCache.t) (now now' ttl : Z)
    (key : string) (v : PyValue) :
  ((now' < now + ttl)%Z →
   InMemoryCache.get now' key (InMemoryCache.set now key v ttl c)
   = (InMemoryCache.set now key v ttl c, v))
  ∧ ((now + ttl ≤ now')%Z →
     InMemoryCache.get now' key (InMemoryCache.set now key v ttl c)
     = (InMemoryCache.delete key c, PyNone)
     ∧ ∀ t, InMemoryCache.get t key (InMemoryCache.delete key c)
            = (InMemoryCache.delete key c, PyNone))
  ∧ ((ttl ≤ 0)%Z → (now ≤ now')%Z →
     (InMemoryCache.get now' key (InMemoryCache.set now key v ttl c)).2 = PyNone).
Proof.
  assert (Hget : InMemoryCache.get now' key (InMemoryCache.set now key v ttl c)
                 = if decide (now' < now + ttl)%Z
                   then (InMemoryCache.set now key v ttl c, v)
                   else (InMemoryCache.delete key c, PyNone)).
  { unfold InMemoryCache.get, InMemoryCache.set. cbn.
    rewrite !lookup_insert_eq. cbn. case_decide; [done|].
    unfold InMemoryCache.delete. cbn. by rewrite !delete_insert_eq. }
  split_and!.
  - intros Hlt. by rewrite Hget, decide_True.
  - intros Hge. rewrite Hget, decide_False by lia. split; [done|].
    intros t. unfold InMemoryCache.get, InMemoryCache.delete. cbn.
    by rewrite lookup_delete_eq.
  - intros Httl Hle. by rewrite Hget, decide_False by lia.
Qed.

Lemma cache_set_then_get_witness :
  InMemoryCache.get 299 "qa:k" (InMemoryCache.set 0 "qa:k" (PyInt 7) 300
                                  InMemoryCache.__init__)
  = (InMemoryCache.set 0 "qa:k" (PyInt 7) 300 InMemoryCache.__init__, PyInt 7).
Proof.
  apply (proj1 (cache_set_then_get InMemoryCache.__init__ 0 299 300 "qa:k"
                  (PyInt 7))).
  lia.
Defined.

(** X13: [get], [set] and [delete] of one key leave every other key as it
    was: a later [get] of another key returns what it would have returned
    before.  After [clear] every [get] returns [None], and after [delete]
    the [get] of the deleted key returns [None]. *)
Theorem cache_other_keys (c : InMemoryCache.t) (key key' : string) (t : Z) :
  (key ≠ key' →
   ∀ call,
     (∃ now, call = CacheGet now key)
     ∨ (∃ now v ttl, call = CacheSet now key v ttl)
     ∨ call = CacheDelete key →
     (InMemoryCache.get t key' (cache_step call c)).2
     = (InMemoryCache.get t key' c).2)
  ∧ (InMemoryCache.get t key (InMemoryCache.clear c)).2 = PyNone
  ∧ (InMemoryCache.get t key (InMemoryCache.delete key c)).2 = PyNone.
Proof.
  split_and!.
  - intros Hne call Hcall.
    assert (Hsame : InMemoryCache._cache (cache_step call c) !! key'
                    = InMemoryCache._cache c !! key'
                    ∧ InMemoryCache._expiry (cache_step call c) !! key'
                      = InMemoryCache._expiry c !! key').
    { destruct Hcall as [[now ->]|[(now & v & ttl & ->)| ->]]; cbn.
      - unfold InMemoryCache.get.
        destruct (InMemoryCache._cache c !! key); [|done].
        case_decide; [done|]. cbn. by rewrite !lookup_delete_ne.
      - by rewrite !lookup_insert_ne.
      - by rewrite !lookup_delete_ne. }
    destruct Hsame as [Hc He]. unfold InMemoryCache.get. rewrite Hc, He.
    destruct (InMemoryCache._cache c !! key'); [|done]. by case_decide.
  - done.
  - unfold InMemoryCache.get, InMemoryCache.delete. cbn.
    by rewrite lookup_delete_eq.
Qed.

Lemma cache_other_keys_witness :
  (InMemoryCache.get 5 "k2"
     (cache_step (CacheDelete "k1")
        (InMemoryCache.set 0 "k2" (PyInt 7) 300 InMemoryCache.__init__))).2
  = (InMemoryCache.get 5 "k2"
       (InMemoryCache.set 0 "k2" (PyInt 7) 300 InMemoryCache.__init__)).2.
Proof.
  apply (proj1 (cache_other_keys
                  (InMemoryCache.set 0 "k2" (PyInt 7) 300 InMemoryCache.__init__)
                  "k1" "k2" 5)).
  - discriminate.
  - right. right. reflexivity.
Defined.

(** ** The Redis cache *)

(** The decoder raises nothing but its own error. *)
Lemma scanstring_raises :
  ∀ (s : string) (e : PyExc),
    json.scanstring s = Raise e → exc_class e = JSONDecodeError.
Proof.
  fix IH 1. intros s e. destruct s as [|c s']; [by intros [= <-]|].
  cbn [json.scanstring].
  repeat (case_match; simplify_eq; try (by intros [= <-]); try done);
    unfold mbind, Result_bind;
    repeat (case_match; simplify_eq; try (by intros [= <-]); try done);
    intros [= <-]; eauto.
Qed.

Lemma scan_once_raises (fuel : nat) :
  (∀ s e, json.scan_once fuel s = Raise e → exc_class e = JSONDecodeError)
  ∧ (∀ s e, json.elements fuel s = Raise e → exc_class e = JSONDecodeError)
  ∧ (∀ s acc e, json.members fuel s acc = Raise e
                → exc_class e = JSONDecodeError).
Proof.
  induction fuel as [|fuel (IHs & IHe & IHm)].
  - split_and!; intros; cbn in *; by simplify_eq.
  - split_and!.
    + intros s e. cbn [json.scan_once]. unfold mbind, Result_bind.
      raise_cases; eauto using scanstring_raises.
    + intros s e. cbn [json.elements]. unfold mbind, Result_bind.
      raise_cases; eauto.
    + intros s acc e. cbn [json.members]. unfold mbind, Result_bind.
      raise_cases; eauto using scanstring_raises.
Qed.

Lemma loads_raises_decode_error (s : string) (e : PyExc) :
  json.loads s = Raise e → exc_class e = JSONDecodeError.
Proof.
  unfold json.loads, mbind, Result_bind.
  destruct (json.scan_once _ _) as [[v r]|e'] eqn:Hs.
  - destruct (json.skip_ws r); [done|]. by intros [= <-].
  - intros [= <-]. by eapply (proj1 (scan_once_raises _)).
Qed.

(** X14: with a connected client no method of [RedisCache] lets an
    exception escape that [except Exception] catches.  [get] returns a value
    other than [None] only when the store returned data that is not empty
    and that [json.loads] decodes to that value; a failing store, missing or
    empty data and data that is not JSON all read as [None].  [set],
    [delete] and [clear] return normally whatever the store does, and [set]
    also when the value cannot be encoded. *)
Theorem redis_cache_swallows (l : list string) (now : Z) (key : string) :
  (∀ reply, (∀ e, reply = Raise e → caught e = true) →
     ∃ v, RedisCache.get reply now key (RedisCache.Client l)
          = (RedisCache.Client l, Ok v)
          ∧ (v ≠ PyNone →
             ∃ d, reply = Ok (Some d) ∧ d ≠ "" ∧ json.loads d = Ok v))
  ∧ (∀ d v, d ≠ "" → json.loads d = Ok v →
       RedisCache.get (Ok (Some d)) now key (RedisCache.Client l)
       = (RedisCache.Client l, Ok v))
  ∧ (∀ reply v ttl, (∀ e, reply = Raise e → caught e = true) →
       RedisCache.set reply now key v ttl (RedisCache.Client l)
       = (RedisCache.Client l, Ok ()))
  ∧ (∀ reply, (∀ e, reply = Raise e → caught e = true) →
       RedisCache.delete reply key (RedisCache.Client l)
       = (RedisCache.Client l, Ok ())
       ∧ RedisCache.clear reply (RedisCache.Client l)
         = (RedisCache.Client l, Ok ())).
Proof.
  split_and!.
  - intros reply Hreply.
    unfold RedisCache.get, try_except, bind, RedisCache.lift, ret.
    destruct reply as [[d|]|e].
    + destruct (decide (d = "")) as [->|Hd].
      * exists PyNone. by split.
      * rewrite bool_decide_eq_false_2 by done.
        destruct (json.loads d) as [v|e] eqn:Hl.
        -- exists v. split; [done|]. intros _. by exists d.
        -- exists PyNone. unfold caught.
           rewrite (loads_raises_decode_error d e Hl). by split.
    + exists PyNone. by split.
    + exists PyNone. rewrite (Hreply e eq_refl). by split.
  - intros d v Hd Hl.
    unfold RedisCache.get, try_except, bind, RedisCache.lift, ret.
    rewrite bool_decide_eq_false_2 by done. by rewrite Hl.
  - intros reply v ttl Hreply.
    unfold RedisCache.set, try_except, bind, RedisCache.lift, ret.
    destruct (json.dumps v) as [text|e] eqn:Hd.
    + destruct reply as [[]|e]; [done|]. by rewrite (Hreply e eq_refl).
    + unfold caught. by rewrite (dumps_raises_TypeError v e Hd).
  - intros reply Hreply.
    unfold RedisCache.delete, RedisCache.clear, try_except, RedisCache.lift, ret.
    destruct reply as [[]|e]; [done|]. by rewrite (Hreply e eq_refl).
Qed.

(** ** Decoding a hash *)

Lemma dict_set_fresh {A : Type} (k : string) (v : A) (d : list (string * A)) :
  k ∉ d.*1 → dict_set k v d = (d ++ [(k, v)])%list.
Proof.
  induction d as [|[k' v'] d IH]; cbn; [done|]. intros Hk.
  apply not_elem_of_cons in Hk as [Hne Hk].
  rewrite decide_False by done. by rewrite IH.
Qed.

Lemma decode_fields_step (k v : string) (data : list (string * string))
    (acc : list (string * PyValue)) :
  RedisTaskQueue.decode_fields ((k, v) :: data) acc
  = (v' ← decode_field k v;
     RedisTaskQueue.decode_fields data (dict_set k v' acc)).
Proof. reflexivity. Qed.

(** Decoding goes field by field, in the order of the hash. *)
Lemma decode_fields_ok (data : list (string * string))
    (acc : list (string * PyValue)) :
  NoDup (acc.*1 ++ data.*1) →
  (∀ k v, (k, v) ∈ data → ∃ v', decode_field k v = Ok v') →
  ∃ d, RedisTaskQueue.decode_fields data acc = Ok (acc ++ d)%list
       ∧ Forall2 (λ kv kv', kv'.1 = kv.1 ∧ decode_field kv.1 kv.2 = Ok kv'.2)
           data d.
Proof.
  revert acc. induction data as [|[k v] data IH]; intros acc Hnd Hdec.
  - exists []. split; [by rewrite app_nil_r|constructor].
  - destruct (Hdec k v) as [v' Hv']; [by left|].
    rewrite decode_fields_step, Hv'. cbn [mbind Result_bind].
    unfold mbind, Result_bind.
    cbn [fmap list_fmap fst] in Hnd.
    assert (Hk : k ∉ acc.*1).
    { intros Hin. apply NoDup_app in Hnd as (_ & Hdisj & _).
      apply (Hdisj k Hin). by left. }
    rewrite (dict_set_fresh k v' acc Hk).
    destruct (IH (acc ++ [(k, v')])%list) as (d & Hrun & Hall).
    + rewrite fmap_app. cbn. rewrite <- app_assoc. done.
    + intros k0 v0 Hin. apply Hdec. by right.
    + exists ((k, v') :: d). rewrite Hrun, <- app_assoc. split; [done|].
      by constructor.
Qed.

Lemma decoded_get (data : list (string * string)) (d : list (string * PyValue))
    (k v : string) :
  Forall2 (λ kv kv', kv'.1 = kv.1 ∧ decode_field kv.1 kv.2 = Ok kv'.2) data d →
  dict_get k data = Some v →
  ∃ v', dict_get k d = Some v' ∧ decode_field k v = Ok v'.
Proof.
  induction 1 as [|[k1 v1] [k2 v2] data d [Hk Hv] Hall IH]; cbn; [done|].
  cbn in Hk, Hv. subst k2. case_decide as Heq.
  - intros [= <-]. subst k1. by exists v2.
  - apply IH.
Qed.

Lemma decode_fields_raises (data : list (string * string))
    (acc : list (string * PyValue)) (r : string) (e : PyExc) :
  dict_get "result" data = Some r → r ≠ "" → json.loads r = Raise e →
  RedisTaskQueue.decode_fields data acc = Raise e.
Proof.
  intros Hget Hr Hl. revert acc Hget.
  induction data as [|[k v] data IH]; intros acc; [done|].
  rewrite decode_fields_step. cbn [dict_get]. unfold decode_field, redis.decode.
  case_decide as Hk.
  - intros [= ->]. subst k. rewrite bool_decide_eq_true_2 by done.
    rewrite (bool_decide_eq_false_2 (r = "")) by done. cbn [andb negb].
    by rewrite Hl.
  - intros Hget. rewrite bool_decide_eq_false_2 by done.
    cbn [andb]. unfold mbind, Result_bind. by apply IH.
Qed.

(** X15: what [RedisTaskQueue.get_task_status] returns for the hash stored
    under the key of the task, on a store that answers.  An empty hash gives
    not-found.  When the hash has a [result] field whose text is not empty
    and is not JSON, the lookup raises the decoder's error.  Otherwise it
    returns a record with the fields of the hash in the same order: every
    field other than [result], the timestamps and [error] included, as the
    text that was stored, an empty [result] as the empty text, and any other
    [result] decoded. *)
Theorem redis_lookup_decodes (task_id : string)
    (db : gmap string (list (string * string))) (p : ThreadPoolExecutor.t)
    (l : list string) :
  NoDup (redis.hgetall (RedisTaskQueue.task_key task_id) db).*1 →
  (redis.hgetall (RedisTaskQueue.task_key task_id) db = [] →
   RedisTaskQueue.get_task_status task_id (RedisTaskQueue.Connected db p l)
   = (RedisTaskQueue.Connected db p l, Ok None))
  ∧ (∀ r e,
       dict_get "result" (redis.hgetall (RedisTaskQueue.task_key task_id) db)
       = Some r →
       r ≠ "" → json.loads r = Raise e →
       RedisTaskQueue.get_task_status task_id (RedisTaskQueue.Connected db p l)
       = (RedisTaskQueue.Connected db p l, Raise e)
       ∧ exc_class e = JSONDecodeError)
  ∧ (redis.hgetall (RedisTaskQueue.task_key task_id) db ≠ [] →
     (∀ r, dict_get "result"
             (redis.hgetall (RedisTaskQueue.task_key task_id) db) = Some r →
           r ≠ "" → ∃ v, json.loads r = Ok v) →
     ∃ d,
       RedisTaskQueue.get_task_status task_id (RedisTaskQueue.Connected db p l)
       = (RedisTaskQueue.Connected db p l, Ok (Some d))
       ∧ d.*1 = (redis.hgetall (RedisTaskQueue.task_key task_id) db).*1
       ∧ (∀ k v, k ≠ "result" →
            dict_get k (redis.hgetall (RedisTaskQueue.task_key task_id) db)
            = Some v →
            dict_get k d = Some (PyStr v))
       ∧ (∀ r, dict_get "result"
                 (redis.hgetall (RedisTaskQueue.task_key task_id) db) = Some r →
               dict_get "result" d
               = Some (if decide (r = "") then PyStr ""
                       else match json.loads r with
                            | Ok v => v
                            | Raise _ => PyNone
                            end))).
Proof.
  set (data := redis.hgetall (RedisTaskQueue.task_key task_id) db).
  intros Hnd. split_and!.
  - intros Hempty. unfold RedisTaskQueue.get_task_status. fold data.
    by rewrite Hempty.
  - intros r e Hget Hr Hl. split; [|by eapply loads_raises_decode_error].
    unfold RedisTaskQueue.get_task_status. fold data.
    destruct data as [|item data'] eqn:Hdata; [done|].
    by rewrite (decode_fields_raises _ _ r e Hget Hr Hl).
  - intros Hne Hres.
    assert (Hdec : ∀ k v, (k, v) ∈ data → ∃ v', decode_field k v = Ok v').
    { intros k v Hin. unfold decode_field, redis.decode.
      destruct (decide (k = "result")) as [->|Hk];
        [|rewrite bool_decide_eq_false_2 by done; by eexists].
      destruct (decide (v = "")) as [->|Hv]; [by eexists|].
      rewrite bool_decide_eq_true_2, (bool_decide_eq_false_2 (v = "")) by done.
      cbn [andb negb]. apply Hres; [|done].
      clear -Hin Hnd. induction data as [|[k' v'] data IH]; [by apply elem_of_nil in Hin|].
      cbn. cbn in Hnd. apply NoDup_cons in Hnd as [Hk' Hnd].
      apply elem_of_cons in Hin as [[= <- <-]|Hin]; [by rewrite decide_True|].
      rewrite decide_False; [by apply IH|].
      intros <-. apply Hk'. by apply (list_elem_of_fmap_2 fst _ ("result", v)). }
    destruct (decode_fields_ok data [] Hnd Hdec) as (d & Hrun & Hall).
    exists d. split_and!.
    + unfold RedisTaskQueue.get_task_status. fold data.
      destruct data as [|item data'] eqn:Hdata; [done|]. by rewrite Hrun.
    + clear -Hall. induction Hall as [|[k1 v1] [k2 v2] ? ? [Hk _] _ IH]; [done|].
      cbn in *. by rewrite Hk, IH.
    + intros k v Hk Hget.
      destruct (decoded_get data d k v Hall Hget) as (v' & -> & Hv').
      unfold decode_field, redis.decode in Hv'.
      rewrite bool_decide_eq_false_2 in Hv' by done. cbn in Hv'. congruence.
    + intros r Hget.
      destruct (decoded_get data d "result" r Hall Hget) as (v' & -> & Hv').
      unfold decode_field, redis.decode in Hv'.
      rewrite bool_decide_eq_true_2 in Hv' by done.
      destruct (decide (r = "")) as [->|Hr].
      * rewrite (bool_decide_eq_true_2 ("" = "")) in Hv' by done.
        cbn [andb negb] in Hv'. congruence.
      * rewrite (bool_decide_eq_false_2 (r = "")) in Hv' by done.
        cbn [andb negb] in Hv'. by rewrite Hv'.
Qed.

Lemma redis_lookup_decodes_witness :
  RedisTaskQueue.get_task_status "a"
    (final [Submit "a" 1 2 returns_n42 [] []] connected_queue)
  = (final [Submit "a" 1 2 returns_n42 [] []] connected_queue,
     Raise json.expecting_value)
  ∧ exc_class json.expecting_value = JSONDecodeError.
Proof.
  assert (Hnd : NoDup (redis.hgetall (RedisTaskQueue.task_key "a")
                         (redis.hset_mapping (RedisTaskQueue.task_key "a")
                            [("id", "a"); ("status", "pending");
                             ("created_at", float_repr 1);
                             ("updated_at", float_repr 2);
                             ("result", "None"); ("error", "None")] ∅)).*1).
  { vm_compute. repeat (constructor; [set_solver|]). constructor. }
  apply (proj1 (proj2 (redis_lookup_decodes "a" _
                         (ThreadPoolExecutor.submit (mkItem "a" returns_n42 [] [])
                            (ThreadPoolExecutor.mk 4 [] []))
                         ["Redis TaskQueue initialized"] Hnd)) "None").
  - vm_compute. reflexivity.
  - discriminate.
  - reflexivity.
Defined.

(** What the decoding of one field gives determines the decoded item. *)
Lemma decoded_unique (data : list (string * string))
    (d d' : list (string * PyValue)) :
  Forall2 (λ kv kv', kv'.1 = kv.1 ∧ decode_field kv.1 kv.2 = Ok kv'.2) data d →
  Forall2 (λ kv kv', kv'.1 = kv.1 ∧ decode_field kv.1 kv.2 = Ok kv'.2) data d' →
  d = d'.
Proof.
  intros H. revert d'.
  induction H as [|[k v] [k1 v1] data d [Hk Hv] Hall IH]; intros d' H';
    inversion H' as [|? [k2 v2] ? d2 [Hk2 Hv2] Hall2]; subst; [done|].
  cbn in *. subst. f_equal; [|by apply IH]. congruence.
Qed.

(** X9: on a store that answers and holds nothing under the key of the
    task, after a call of [submit] that binds, the start of the worker and
    a callable that returned a value [v] whose encoding [json.loads] reads
    back as [v'], the status lookup returns exactly six fields, in whatever
    order the store replies with the fields of the hash: [result] is [v'],
    and every other field is the text that was stored: the status is
    [completed], the timestamps are the texts of the reading at submission
    and of the reading at completion, and [error] is the text [None]. *)
Theorem redis_completed_lookup (uuid4 : string) (now1 now2 now3 now4 : Z)
    (func : Callable) (args : list PyValue) (kwargs : list (string * PyValue))
    (v v' : PyValue) (text : string)
    (db : gmap string (list (string * string))) (p : ThreadPoolExecutor.t)
    (l : list string) :
  bind_kwargs "RedisTaskQueue.submit" TaskQueue.submit_params kwargs = Ok () →
  db !! RedisTaskQueue.task_key uuid4 = None →
  json.dumps v = Ok text →
  json.loads text = Ok v' →
  ∃ q1 q2 db3 p3,
    RedisTaskQueue.submit uuid4 now1 now2 func args kwargs
      (RedisTaskQueue.Connected db p l) = (q1, Ok uuid4)
    ∧ RedisTaskQueue._execute_task_start now3 uuid4 q1 = (q2, Ok ())
    ∧ RedisTaskQueue._execute_task_finish now4 uuid4 (Returned v) q2
      = (RedisTaskQueue.Connected db3 p3 l, Ok ())
    ∧ ∀ reply db',
        reply ≡ₚ redis.hgetall (RedisTaskQueue.task_key uuid4) db3 →
        redis.hgetall (RedisTaskQueue.task_key uuid4) db' = reply →
        ∃ d,
          RedisTaskQueue.get_task_status uuid4
            (RedisTaskQueue.Connected db' p3 l)
          = (RedisTaskQueue.Connected db' p3 l, Ok (Some d))
          ∧ d ≡ₚ [("id", PyStr uuid4); ("status", PyStr "completed");
                  ("created_at", PyStr (float_repr now1));
                  ("updated_at", PyStr (float_repr now4));
                  ("result", v'); ("error", PyStr "None")].
Proof.
  intros Hb Hdb Hd Hl. eexists _, _, _, _.
  split; [by apply redis_submit_connected|].
  split; [apply redis_start_connected_eq|].
  split; [by apply redis_finish_returned|].
  intros reply db' Hperm Hreply.
  rewrite !hgetall_hset, hgetall_hset_mapping, (hgetall_missing _ _ Hdb) in Hperm.
  cbn [foldl fst snd] in Hperm.
  set (data := dict_set "updated_at" _ _) in Hperm.
  assert (Hdata : data = [("id", uuid4); ("status", "completed");
                          ("created_at", float_repr now1);
                          ("updated_at", float_repr now4);
                          ("result", text); ("error", "None")])
    by reflexivity.
  rewrite Hdata in Hperm. clear data Hdata.
  assert (Htext : text ≠ "") by (intros ->; by rewrite loads_empty in Hl).
  set (six := [("id", uuid4); ("status", "completed");
               ("created_at", float_repr now1); ("updated_at", float_repr now4);
               ("result", text); ("error", "None")]) in *.
  set (expected := [("id", PyStr uuid4); ("status", PyStr "completed");
                    ("created_at", PyStr (float_repr now1));
                    ("updated_at", PyStr (float_repr now4));
                    ("result", v'); ("error", PyStr "None")]).
  assert (Hsix : Forall2 (λ kv kv',
                    kv'.1 = kv.1 ∧ decode_field kv.1 kv.2 = Ok kv'.2)
                   six expected).
  { unfold six, expected. repeat constructor; cbn.
    unfold decode_field, redis.decode.
    rewrite bool_decide_eq_true_2 by done.
    rewrite (bool_decide_eq_false_2 (text = "")) by done. done. }
  assert (Hnd : NoDup ([] ++ reply.*1)).
  { cbn. rewrite Hperm. unfold six. cbn.
    repeat (apply NoDup_cons; split; [set_solver|]). apply NoDup_nil_2. }
  destruct (decode_fields_ok reply [] Hnd) as (d & Hrun & Hall).
  { intros k0 v0 Hin. rewrite Hperm in Hin.
    destruct (list_elem_of_lookup_1 _ _ Hin) as [i Hi].
    destruct (Forall2_lookup_l _ _ _ i _ Hsix Hi) as (kv' & _ & _ & Hdec).
    by exists kv'.2. }
  exists d. split.
  - unfold RedisTaskQueue.get_task_status. rewrite Hreply.
    destruct reply as [|item reply].
    { apply Permutation_nil_l in Hperm. discriminate Hperm. }
    by rewrite Hrun.
  - destruct (Permutation_Forall2 Hperm Hall) as (d' & Hperm' & Hall').
    by rewrite (decoded_unique six expected d' Hsix Hall').
Qed.

Lemma redis_completed_lookup_witness :
  ∃ q1 q2 db3 p3,
    RedisTaskQueue.submit "a" 1 2 returns_n42 [] [] connected_queue = (q1, Ok "a")
    ∧ RedisTaskQueue._execute_task_start 3 "a" q1 = (q2, Ok ())
    ∧ RedisTaskQueue._execute_task_finish 4 "a"
        (Returned (PyDict [("n", PyInt 42)])) q2
      = (RedisTaskQueue.Connected db3 p3 ["Redis TaskQueue initialized"], Ok ())
    ∧ ∀ reply db',
        reply ≡ₚ redis.hgetall (RedisTaskQueue.task_key "a") db3 →
        redis.hgetall (RedisTaskQueue.task_key "a") db' = reply →
        ∃ d,
          RedisTaskQueue.get_task_status "a"
            (RedisTaskQueue.Connected db' p3 ["Redis TaskQueue initialized"])
          = (RedisTaskQueue.Connected db' p3 ["Redis TaskQueue initialized"],
             Ok (Some d))
          ∧ d ≡ₚ [("id", PyStr "a"); ("status", PyStr "completed");
                  ("created_at", PyStr (float_repr 1));
                  ("updated_at", PyStr (float_repr 4));
                  ("result", PyDict [("n", PyInt 42)]);
                  ("error", PyStr "None")].
Proof.
  apply (redis_completed_lookup "a" 1 2 3 4 returns_n42 [] []
           (PyDict [("n", PyInt 42)]) (PyDict [("n", PyInt 42)])
           n42_text).
  - reflexivity.
  - reflexivity.
  - vm_compute. reflexivity.
  - vm_compute. reflexivity.
Defined.

(** ** Draining the pool *)

Lemma elem_of_delete_other {A : Type} (l : list A) (k : nat) (x y : A) :
  l !! k = Some x → y ∈ l → y ≠ x → y ∈ delete k l.
Proof.
  revert k. induction l as [|a l IH]; intros k Hk Hy Hne; [done|].
  destruct k as [|k]; cbn in *.
  - injection Hk as ->. by apply elem_of_cons in Hy as [->|Hy].
  - apply elem_of_cons in Hy as [->|Hy]; [by left|]. right. by eapply IH.
Qed.

Lemma item_elsewhere (l : list WorkItem) (w : WorkItem) (tid : string) :
  tid ∈ item_task_id <$> l → tid ≠ item_task_id w →
  ∃ w', w' ∈ l ∧ item_task_id w' = tid ∧ w' ≠ w.
Proof.
  intros Hin Hne. apply list_elem_of_fmap in Hin as (w' & -> & Hw').
  exists w'. split_and!; [done..|]. by intros ->.
Qed.

Lemma live_step (q q' : TaskQueue.t) (ev : Event) (out : Output) :
  Transition q ev q' out → submits_well_behaved ev → live q → live q'.
Proof.
  unfold live, waiting, at_work. intros Htr Hev (Hwb & Hpend & Hproc).
  destruct Htr as [uuid4 now1 now2 func args kwargs q' Ht Hp|task_id
    |max_age now q' Ht Hp|now Htake|now w p task q' Htake Htask Ht Hp
    |now w p q' Htake Htask Ht Hp|k now Hk|k now w v task q' Hk Hrun Htask Ht Hp
    |k now w e task q' Hk Hrun He Htask Ht Hp|k now w e q' Hk Hrun He Ht Hp
    |k now w q' Hk Hrun Htask Ht Hp
    |uuid4 now1 now2 func args kwargs e Hbind|now w p e q' Htake Hbind Ht Hp]; try done;
    try (apply take_Some in Htake as [Hwq Hrq]; rewrite Hwq in *);
    rewrite ?Hp; cbn; rewrite ?Hrq.
  - (* submit *)
    split_and!.
    + intros w [Hw|Hw]; [|by apply Hwb; right].
      apply elem_of_app in Hw as [Hw|Hw]; [by apply Hwb; left|].
      by apply list_elem_of_singleton in Hw as ->.
    + intros tid task. rewrite Ht, fmap_app.
      destruct (decide (tid = uuid4)) as [->|Hne]; [set_solver|].
      rewrite lookup_insert_ne by done. intros H1 H2.
      apply elem_of_app. left. by eapply Hpend.
    + intros tid task. rewrite Ht.
      destruct (decide (tid = uuid4)) as [->|Hne].
      * rewrite lookup_insert_eq. by intros [= <-].
      * rewrite lookup_insert_ne by done. apply Hproc.
  - (* sweep *)
    split_and!; [done|..]; intros tid task; rewrite Ht;
      intros Hs%swept_Some; eauto.
  - (* a worker starts *)
    split_and!.
    + intros w' [Hw|Hw]; [by apply Hwb; left; right|].
      apply elem_of_app in Hw as [Hw|Hw]; [by apply Hwb; right|].
      apply list_elem_of_singleton in Hw as ->. apply Hwb. left. by left.
    + intros tid task'. rewrite Ht.
      destruct (decide (tid = item_task_id w)) as [->|Hne].
      * rewrite lookup_insert_eq. by intros [= <-].
      * rewrite lookup_insert_ne by done. intros H1 H2.
        specialize (Hpend tid task' H1 H2). set_solver.
    + intros tid task'. rewrite Ht, fmap_app.
      destruct (decide (tid = item_task_id w)) as [->|Hne]; [set_solver|].
      rewrite lookup_insert_ne by done. intros H1 H2.
      apply elem_of_app. left. by eapply Hproc.
  - (* a worker starts on a record that has gone *)
    split_and!.
    + intros w' [Hw|Hw]; apply Hwb; [left; by right|by right].
    + intros tid task'. rewrite Ht. intros H1 H2.
      specialize (Hpend tid task' H1 H2).
      assert (tid ≠ item_task_id w) by congruence. set_solver.
    + intros tid task'. rewrite Ht. apply Hproc.
  - (* the callable returned *)
    split_and!.
    + intros w' [Hw|Hw]; apply Hwb; [by left|].
      right. by eapply list_elem_of_delete_inv.
    + intros tid task'. rewrite Ht.
      destruct (decide (tid = item_task_id w)) as [->|Hne].
      * rewrite lookup_insert_eq. by intros [= <-].
      * rewrite lookup_insert_ne by done. apply Hpend.
    + intros tid task'. rewrite Ht.
      destruct (decide (tid = item_task_id w)) as [->|Hne].
      * rewrite lookup_insert_eq. by intros [= <-].
      * rewrite lookup_insert_ne by done. intros H1 H2.
        destruct (item_elsewhere _ w tid (Hproc tid task' H1 H2) Hne)
          as (w' & Hw' & <- & Hne').
        apply list_elem_of_fmap_2. by eapply elem_of_delete_other.
  - (* the callable raised *)
    split_and!.
    + intros w' [Hw|Hw]; apply Hwb; [by left|].
      right. by eapply list_elem_of_delete_inv.
    + intros tid task'. rewrite Ht.
      destruct (decide (tid = item_task_id w)) as [->|Hne].
      * rewrite lookup_insert_eq. by intros [= <-].
      * rewrite lookup_insert_ne by done. apply Hpend.
    + intros tid task'. rewrite Ht.
      destruct (decide (tid = item_task_id w)) as [->|Hne].
      * rewrite lookup_insert_eq. by intros [= <-].
      * rewrite lookup_insert_ne by done. intros H1 H2.
        destruct (item_elsewhere _ w tid (Hproc tid task' H1 H2) Hne)
          as (w' & Hw' & <- & Hne').
        apply list_elem_of_fmap_2. by eapply elem_of_delete_other.
  - (* not caught: excluded *)
    assert (Hw : well_behaved w).
    { apply Hwb. right. by eapply list_elem_of_lookup_2. }
    unfold well_behaved in Hw. rewrite Hrun, He in Hw. by destruct Hw.
  - (* the record has gone *)
    split_and!.
    + intros w' [Hw|Hw]; apply Hwb; [by left|].
      right. by eapply list_elem_of_delete_inv.
    + intros tid task'. rewrite Ht. apply Hpend.
    + intros tid task'. rewrite Ht. intros H1 H2.
      assert (Hne : tid ≠ item_task_id w) by congruence.
      destruct (item_elsewhere _ w tid (Hproc tid task' H1 H2) Hne)
        as (w' & Hw' & <- & Hne').
      apply list_elem_of_fmap_2. by eapply elem_of_delete_other.
  - (* the call of the wrapper does not bind: excluded *)
    assert (Hw : well_behaved w) by (apply Hwb; left; by left).
    destruct Hw as [Hb _].
    by rewrite (binds_execute _ _ Hb) in Hbind.
Qed.

Lemma final_cons (ev : Event) (evs : list Event) (q : TaskQueue.t) :
  final (ev :: evs) q = final evs (step ev q).1.
Proof.
  unfold final. cbn. destruct (step ev q) as [q1 out]. cbn.
  by destruct (run evs q1).
Qed.

Lemma final_app (evs evs' : list Event) (q : TaskQueue.t) :
  final (evs ++ evs')%list q = final evs' (final evs q).
Proof.
  revert q. induction evs as [|ev evs IH]; intros q; [done|].
  rewrite <- app_comm_cons, !final_cons. apply IH.
Qed.

Lemma final_live (evs : list Event) (q : TaskQueue.t) :
  Forall submits_well_behaved evs → live q → live (final evs q).
Proof.
  revert q. induction evs as [|ev evs IH]; intros q Hevs Hq; [done|].
  apply Forall_cons in Hevs as [Hev Hevs]. rewrite final_cons.
  apply IH; [done|]. by eapply live_step; [apply step_sound|..].
Qed.

Lemma final_bound (evs : list Event) (q : TaskQueue.t) (n : nat) :
  ThreadPoolExecutor._max_workers (TaskQueue._executor q) = n
  ∧ (length (at_work q) ≤ n)%nat →
  ThreadPoolExecutor._max_workers (TaskQueue._executor (final evs q)) = n
  ∧ (length (at_work (final evs q)) ≤ n)%nat.
Proof.
  revert q. induction evs as [|ev evs IH]; intros q Hq; [done|].
  rewrite final_cons. apply IH.
  by eapply transition_bound; [apply step_sound|].
Qed.

(** A free worker never lets the pool grow; when there are jobs, one is
    running afterwards or one has gone. *)
Lemma start_jobs (q q' : TaskQueue.t) (now : Z) (out : Output) :
  Transition q (WorkerStart now) q' out →
  (0 < ThreadPoolExecutor._max_workers (TaskQueue._executor q))%nat →
  (jobs q' ≤ jobs q)%nat
  ∧ ((0 < jobs q)%nat → at_work q' ≠ [] ∨ (jobs q' < jobs q)%nat).
Proof.
  unfold jobs, waiting, at_work. intros Htr Hpos.
  inversion Htr as [| | |? Htake|? w p task ? Htake Htask Ht Hp
                    |? w p ? Htake Htask Ht Hp| | | | | |
                    |? w p e ? Htake Hbind Ht Hp]; subst.
  - split; [done|]. intros Hjobs.
    destruct (ThreadPoolExecutor.running (TaskQueue._executor q')) eqn:Hr;
      [|by left].
    exfalso. unfold ThreadPoolExecutor.take in Htake. rewrite Hr in Htake.
    destruct (ThreadPoolExecutor._work_queue (TaskQueue._executor q'));
      cbn in *; [lia|].
    destruct (ThreadPoolExecutor._max_workers (TaskQueue._executor q'));
      [lia|done].
  - apply take_Some in Htake as [Hw Hr]. rewrite Hp, Hw. cbn.
    rewrite length_app, Hr. cbn. split; [lia|]. intros _. left.
    by destruct (ThreadPoolExecutor.running (TaskQueue._executor q)).
  - apply take_Some in Htake as [Hw Hr]. rewrite Hw, Hr. cbn.
    split; [lia|]. intros _. right. lia.
  - apply take_Some in Htake as [Hw Hr]. rewrite Hw, Hr. cbn.
    split; [lia|]. intros _. right. lia.
Qed.

(** The worker that has run longest leaves the pool. *)
Lemma finish_jobs (q q' : TaskQueue.t) (now : Z) (out : Output) :
  Transition q (WorkerFinish 0 now) q' out →
  (jobs q' ≤ jobs q)%nat ∧ (at_work q ≠ [] → (jobs q' < jobs q)%nat).
Proof.
  unfold jobs, waiting, at_work. intros Htr.
  inversion Htr as [| | | | | |? ? Hk|? ? w v task ? Hk Hrun Htask Ht Hp
                    |? ? w e task ? Hk Hrun He Htask Ht Hp
                    |? ? w e ? Hk Hrun He Ht Hp
                    |? ? w ? Hk Hrun Htask Ht Hp| |]; subst.
  - split; [done|]. intros Hne.
    by destruct (ThreadPoolExecutor.running (TaskQueue._executor q')).
  - rewrite Hp. cbn.
    destruct (ThreadPoolExecutor.running (TaskQueue._executor q)); [done|].
    cbn. split; [lia|]. intros _. lia.
  - rewrite Hp. cbn.
    destruct (ThreadPoolExecutor.running (TaskQueue._executor q)); [done|].
    cbn. split; [lia|]. intros _. lia.
  - rewrite Hp. cbn.
    destruct (ThreadPoolExecutor.running (TaskQueue._executor q)); [done|].
    cbn. split; [lia|]. intros _. lia.
  - rewrite Hp. cbn.
    destruct (ThreadPoolExecutor.running (TaskQueue._executor q)); [done|].
    cbn. split; [lia|]. intros _. lia.
Qed.

Lemma drain_S (n : nat) (now : Z) :
  drain (S n) now = WorkerStart now :: WorkerFinish 0 now :: drain n now.
Proof. reflexivity. Qed.

(** Each round takes one job out of the pool, as long as there is one. *)
Lemma drain_jobs (n : nat) (now : Z) (q : TaskQueue.t) (m : nat) :
  (0 < m)%nat →
  ThreadPoolExecutor._max_workers (TaskQueue._executor q) = m
  ∧ (length (at_work q) ≤ m)%nat →
  (jobs (final (drain n now) q) ≤ jobs q - n)%nat.
Proof.
  intros Hpos. revert q. induction n as [|n IH]; intros q Hq.
  - cbn. lia.
  - rewrite drain_S, !final_cons.
    pose proof (step_sound (WorkerStart now) q) as H1.
    set (q1 := (step (WorkerStart now) q).1) in *.
    pose proof (step_sound (WorkerFinish 0 now) q1) as H2.
    set (q2 := (step (WorkerFinish 0 now) q1).1) in *.
    pose proof (transition_bound _ _ _ _ m H1 Hq) as Hq1.
    pose proof (transition_bound _ _ _ _ m H2 Hq1) as Hq2.
    apply start_jobs in H1 as [Hle1 Hgo1]; [|destruct Hq as [-> _]; lia].
    apply finish_jobs in H2 as [Hle2 Hgo2].
    specialize (IH q2 Hq2).
    destruct (decide (jobs q = 0%nat)) as [Hz|Hnz]; [lia|].
    destruct Hgo1 as [Hne|Hlt]; [lia|specialize (Hgo2 Hne)|]; lia.
Qed.

Lemma live_init (max_workers : Z) (q0 : TaskQueue.t) :
  TaskQueue.__init__ max_workers = Ok q0 →
  live q0
  ∧ (0 < Z.to_nat max_workers)%nat
  ∧ ThreadPoolExecutor._max_workers (TaskQueue._executor q0)
    = Z.to_nat max_workers
  ∧ (length (at_work q0) ≤ Z.to_nat max_workers)%nat.
Proof.
  unfold TaskQueue.__init__, ThreadPoolExecutor.__init__.
  case_decide; cbn; [done|]. intros [= <-].
  unfold live, waiting, at_work. cbn. split_and!; try done; try lia.
  intros w [Hw|Hw]; by apply elem_of_nil in Hw.
Qed.

(** X16: after any run of a new in-memory queue in which every job was
    submitted with keywords that bind in the wrapper (none named [self],
    [task_id] or [func]) and with a callable that returns or raises what
    [except Exception] catches, as many rounds of a free worker taking the
    next job and the longest-running worker finishing as there are jobs in
    the pool empty the pool, and then every record the queue still holds
    is COMPLETED or FAILED. *)
Theorem drained_queue_is_settled (max_workers : Z) (q0 : TaskQueue.t)
    (evs : list Event) (n : nat) (now : Z) :
  TaskQueue.__init__ max_workers = Ok q0 →
  Forall submits_well_behaved evs →
  (jobs (final evs q0) ≤ n)%nat →
  waiting (final (evs ++ drain n now)%list q0) = []
  ∧ at_work (final (evs ++ drain n now)%list q0) = []
  ∧ ∀ tid task,
      TaskQueue.get_task tid (final (evs ++ drain n now)%list q0) = Some task →
      terminal (Task.status task) = true.
Proof.
  intros Hinit Hevs Hn. rewrite final_app.
  destruct (live_init _ _ Hinit) as (Hlive & Hpos & Hbound).
  pose proof (final_live evs q0 Hevs Hlive) as Hlive1.
  pose proof (final_bound evs q0 (Z.to_nat max_workers) Hbound) as Hbound1.
  set (q1 := final evs q0) in *.
  pose proof (drain_jobs n now q1 (Z.to_nat max_workers) Hpos Hbound1) as Hjobs.
  assert (Hdrain : Forall submits_well_behaved (drain n now)).
  { clear. induction n as [|n IH]; [constructor|].
    rewrite drain_S. by repeat constructor. }
  pose proof (final_live _ q1 Hdrain Hlive1) as (_ & Hpend & Hproc).
  set (q2 := final (drain n now) q1) in *.
  assert (Hz : jobs q2 = 0%nat) by lia. unfold jobs in Hz.
  assert (Hw : waiting q2 = []).
  { destruct (waiting q2); [done|]. cbn in Hz. lia. }
  assert (Hr : at_work q2 = []).
  { destruct (at_work q2); [done|]. cbn in Hz. lia. }
  split_and!; [done..|].
  unfold TaskQueue.get_task. intros tid task Htask.
  destruct (Task.status task) eqn:Hs; try done.
  - specialize (Hpend tid task Htask Hs). rewrite Hw in Hpend.
    by apply elem_of_nil in Hpend.
  - specialize (Hproc tid task Htask Hs). rewrite Hr in Hproc.
    by apply elem_of_nil in Hproc.
Qed.

Lemma drained_queue_is_settled_witness :
  waiting (final (three_tasks ++ drain 3 8)%list example_queue) = []
  ∧ at_work (final (three_tasks ++ drain 3 8)%list example_queue) = []
  ∧ ∀ tid task,
      TaskQueue.get_task tid (final (three_tasks ++ drain 3 8)%list example_queue)
      = Some task →
      terminal (Task.status task) = true.
Proof.
  apply (drained_queue_is_settled 4 example_queue three_tasks 3 8).
  - reflexivity.
  - unfold three_tasks. repeat (apply Forall_cons; split);
      try apply Forall_nil; try exact I;
      (split; [apply binds_nil|reflexivity || exact I]).
  - vm_compute. lia.
Defined.
